(** * CELLA-PM: the dependency-aware schedule cascade engine

    A shallow embedding of the scheduling core of [src/App.tsx]
    ([cascadeSchedule], [checkDependencies] and the merge step of
    [handleConfirmChanges]) and of the helpers and handlers around it
    ([addDays], the task handlers, the module templates), together with
    the part of the ECMAScript [Date] object these functions go through,
    and the properties of the engine proved over it.

    The date fields of a task are strings nothing validates.  The model
    reads the ISO forms as the engine does and leaves every other string
    to the host ([Host]), so the statements hold for whatever
    [Date.parse] makes of a string; where a property needs dates without
    a time of day, it says so ([calendarDates]). *)

From Stdlib Require Import ZArith Lia Ascii String List Bool.
From stdpp Require Import gmap strings list fin_maps pretty.

Local Open Scope Z_scope.

(* ===================================================================== *)
(** * Outcomes of a call: a returned value or a thrown exception          *)
(* ===================================================================== *)

(** The only exception the engine can raise is the [RangeError]
    ("Invalid time value") of [Date.prototype.toISOString]. *)
Inductive Error := RangeError.

Inductive Exc (A : Type) : Type :=
| Returns (a : A)
| Throws (e : Error).
Arguments Returns {A} a.
Arguments Throws {A} e.

(** [Exc] is a monad; stdpp's [x ← c; k] notation sequences calls and
    propagates the first exception. *)
#[global] Instance Exc_ret : MRet Exc := fun _ a => Returns a.
#[global] Instance Exc_bind : MBind Exc := fun _ _ k c =>
  match c with
  | Returns a => k a
  | Throws e => Throws e
  end.

(* ===================================================================== *)
(** * The ECMAScript Date object, as far as the engine uses it            *)
(* ===================================================================== *)

Module JSDate.

(** A time value is an integral number of milliseconds since
    1970-01-01T00:00Z, or NaN.  [None] stands for NaN. *)
Definition Number := option Z.

Definition msPerDay : Z := 24 * 60 * 60 * 1000.
Definition maxTime : Z := 8640000000000000.

(** TimeClip: a time value outside +-8.64e15 ms is NaN. *)
Definition TimeClip (t : Z) : Number :=
  if (- maxTime <=? t) && (t <=? maxTime) then Some t else None.

(** The numbers of the source are doubles.  A time value is an integer
    of magnitude at most 8.64e15, below 2^53, and is a double; the sum or
    the difference of two doubles is the exact result rounded to the
    nearest double, the one with the even significand when two are
    equally near.  [fl z] is the double an exact integer result [z]
    rounds to: [z] itself up to 2^53, and beyond that a multiple of the
    spacing of the doubles at [z], which is [2 ^ (log2 |z| - 52)]. *)
Definition fl (z : Z) : Z :=
  let a := Z.abs z in
  if a <=? 2 ^ 53 then z
  else
    let ulp := 2 ^ (Z.log2 a - 52) in
    let q := a / ulp in
    let r := a mod ulp in
    let q' := if (ulp <? 2 * r) || ((2 * r =? ulp) && Z.odd q) then q + 1 else q in
    Z.sgn z * (q' * ulp).

(** Day(t) and TimeWithinDay(t). *)
Definition Day (t : Z) : Z := t / msPerDay.
Definition TimeWithinDay (t : Z) : Z := t mod msPerDay.

(** ** Proleptic Gregorian calendar, on day numbers since the epoch *)

(** Day number of the civil date [y]-[m]-[d] ([m] from 1 to 12).  The
    formula is linear in [d], so a day past the end of the month runs
    over into the next one, as MakeDay does. *)
Definition daysFromCivil (y m d : Z) : Z :=
  let y' := if m <=? 2 then y - 1 else y in
  let era := y' / 400 in
  let yoe := y' mod 400 in
  let mp := if 2 <? m then m - 3 else m + 9 in
  let doy := (153 * mp + 2) / 5 + d - 1 in
  let doe := yoe * 365 + yoe / 4 - yoe / 100 + doy in
  era * 146097 + doe - 719468.

(** The civil date of a day of the 400-year era, counted from 1 March of
    the era's first year: (year of era, month, day of month). *)
Definition civilOfEraDay (doe : Z) : Z * Z * Z :=
  let yoe := (doe - doe / 1460 + doe / 36524 - doe / 146096) / 365 in
  let doy := doe - (365 * yoe + yoe / 4 - yoe / 100) in
  let mp := (5 * doy + 2) / 153 in
  let d := doy - (153 * mp + 2) / 5 + 1 in
  let m := if mp <? 10 then mp + 3 else mp - 9 in
  (if m <=? 2 then yoe + 1 else yoe, m, d).

(** (YearFromTime, MonthFromTime + 1, DateFromTime) of a day number. *)
Definition civilFromDays (z : Z) : Z * Z * Z :=
  let z' := z + 719468 in
  let era := z' / 146097 in
  let '(y, m, d) := civilOfEraDay (z' mod 146097) in
  (y + 400 * era, m, d).

(** ** Printing: [toISOString().split('T')[0]] *)

Definition digitChar (k : Z) : ascii := ascii_of_nat (48 + Z.to_nat k).

Definition pad2 (n : Z) : list ascii :=
  [digitChar (n / 10 mod 10); digitChar (n mod 10)].
Definition pad4 (n : Z) : list ascii :=
  [digitChar (n / 1000 mod 10); digitChar (n / 100 mod 10)] ++ pad2 n.
Definition pad6 (n : Z) : list ascii :=
  [digitChar (n / 100000 mod 10); digitChar (n / 10000 mod 10)] ++ pad4 n.

(** Years 0 to 9999 print with four digits, the others in the expanded
    form: a sign and six digits. *)
Definition yearChars (y : Z) : list ascii :=
  if (0 <=? y) && (y <=? 9999) then pad4 y
  else (if y <? 0 then "-"%char else "+"%char) :: pad6 (Z.abs y).

(** The date part of the ISO string of a finite time value. *)
Definition isoDate (t : Z) : string :=
  let '(y, m, d) := civilFromDays (Day t) in
  string_of_list_ascii (yearChars y ++ "-"%char :: pad2 m ++ "-"%char :: pad2 d).

(** [d.toISOString().split('T')[0]]: throws on an Invalid Date. *)
Definition toISODate (tv : Number) : Exc string :=
  match tv with
  | Some t => Returns (isoDate t)
  | None => Throws RangeError
  end.

(** ** Parsing: [new Date(s)] on a date string *)

Definition digitVal (c : ascii) : option Z :=
  let n := Z.of_nat (nat_of_ascii c) in
  if (48 <=? n) && (n <=? 57) then Some (n - 48) else None.

Fixpoint number (cs : list ascii) (acc : Z) : option Z :=
  match cs with
  | [] => Some acc
  | c :: cs' =>
      match digitVal c with
      | Some k => number cs' (10 * acc + k)
      | None => None
      end
  end.

Definition isDash (c : ascii) : bool := Ascii.eqb c "-"%char.
Definition isPlus (c : ascii) : bool := Ascii.eqb c "+"%char.

(** MakeDate(MakeDay(y, m - 1, d), 0) in UTC, clipped.  Month 01 to 12
    and day 01 to 31 are the legal element values. *)
Definition makeDate (y m d : Z) : Number :=
  if (1 <=? m) && (m <=? 12) && (1 <=? d) && (d <=? 31)
  then TimeClip (daysFromCivil y m d * msPerDay)
  else None.

(** The month and day that follow the year of a date-only form: nothing,
    [-MM] or [-MM-DD]; a part left out is 01. *)
Definition parseMonthDay (y : Z) (cs : list ascii) : Number :=
  match cs with
  | [] => makeDate y 1 1
  | [s1; m1; m2] =>
      if isDash s1 then m ← number [m1; m2] 0; makeDate y m 1 else None
  | [s1; m1; m2; s2; d1; d2] =>
      if isDash s1 && isDash s2 then
        m ← number [m1; m2] 0;
        d ← number [d1; d2] 0;
        makeDate y m d
      else None
  | _ => None
  end.

(** [Date.parse] on the date-only forms of the ECMAScript Date Time
    String Format: [YYYY], [YYYY-MM], [YYYY-MM-DD], and the same with an
    expanded year, [+YYYYYY] or [-YYYYYY] ([-000000] is no year).  They
    are read as UTC midnight.  [YYYY-MM-DD] is the form the [Task]
    interface documents for its date fields, and it and its expanded-year
    form are what [isoDate] prints.  A day of the month up to 31 that the
    month does not have runs over into the next month, as in V8.  [None]
    says that the string is not of these forms, or holds an element out
    of range. *)
Definition parseDateOnly (s : string) : Number :=
  match list_ascii_of_string s with
  | [] => None
  | c :: cs =>
      if isDash c || isPlus c then
        match cs with
        | y1 :: y2 :: y3 :: y4 :: y5 :: y6 :: rest =>
            y ← number [y1; y2; y3; y4; y5; y6] 0;
            if isDash c && (y =? 0) then None
            else parseMonthDay (if isDash c then - y else y) rest
        | _ => None
        end
      else
        match c :: cs with
        | y1 :: y2 :: y3 :: y4 :: rest =>
            y ← number [y1; y2; y3; y4] 0;
            parseMonthDay y rest
        | _ => None
        end
  end.

Definition isT (c : ascii) : bool := Ascii.eqb c "T"%char.
Definition isZ (c : ascii) : bool := Ascii.eqb c "Z"%char.
Definition isColon (c : ascii) : bool := Ascii.eqb c ":"%char.
Definition isDot (c : ascii) : bool := Ascii.eqb c "."%char.

(** What follows the seconds of a UTC date-time form: [Z], or [.sss] and
    [Z]; the milliseconds. *)
Definition parseFraction (cs : list ascii) : option Z :=
  match cs with
  | [z] => if isZ z then Some 0 else None
  | [p; f1; f2; f3; z] =>
      if isDot p && isZ z then number [f1; f2; f3] 0 else None
  | _ => None
  end.

(** [Date.parse] on the UTC date-time forms [YYYY-MM-DDTHH:mm:ssZ] and
    [YYYY-MM-DDTHH:mm:ss.sssZ], the latter the form [toISOString]
    prints, with a day of the month that every month has (01 to 28), an
    hour from 00 to 23 and minutes and seconds from 00 to 59: the time
    value of that instant.  [None] says that the string is not of these
    forms or holds an element outside these ranges. *)
Definition parseDateTimeUTC (s : string) : Number :=
  match list_ascii_of_string s with
  | y1 :: y2 :: y3 :: y4 :: s1 :: m1 :: m2 :: s2 :: d1 :: d2 :: t
      :: h1 :: h2 :: c1 :: n1 :: n2 :: c2 :: e1 :: e2 :: rest =>
      if isDash s1 && isDash s2 && isT t && isColon c1 && isColon c2 then
        y ← number [y1; y2; y3; y4] 0;
        m ← number [m1; m2] 0;
        d ← number [d1; d2] 0;
        h ← number [h1; h2] 0;
        mi ← number [n1; n2] 0;
        sec ← number [e1; e2] 0;
        ms ← parseFraction rest;
        if (1 <=? m) && (m <=? 12) && (1 <=? d) && (d <=? 28)
           && (h <=? 23) && (mi <=? 59) && (sec <=? 59)
        then TimeClip (daysFromCivil y m d * msPerDay
                       + ((h * 60 + mi) * 60 + sec) * 1000 + ms)
        else None
      else None
  | _ => None
  end.

(** A string that holds no decimal digit, as [TBD] or the empty string:
    V8 finds no number for the day in it, and it is no date. *)
Definition hasDigit (s : string) : bool :=
  existsb (fun c => match digitVal c with Some _ => true | None => false end)
    (list_ascii_of_string s).

(** The host.  What [Date.parse] makes of a string of another form
    depends on the engine and on its time zone: the date-time forms
    without [Z] are read in local time or with their offset, and any
    other string, as [2023-10-1] or [Oct 5, 2023], by rules of the
    engine's own.  The host gives the result for these strings, a number
    or NaN; nothing is assumed about it. *)
Class Host := { otherFormats : string -> option Z }.

(** [Date.parse(s)], as [new Date(s)] stores it: the result is a time
    value, so a number the host gives is clipped. *)
Definition parse `{Host} (s : string) : Number :=
  match parseDateOnly s with
  | Some t => Some t
  | None =>
      match parseDateTimeUTC s with
      | Some t => Some t
      | None => if hasDigit s then otherFormats s ≫= TimeClip else None
      end
  end.

(** The examples below need a host to run on; their date strings are
    read without consulting it, so any host does.  This one reads no
    string of another form. *)
Definition exampleHost : Host := {| otherFormats := fun _ => None |}.

(** [new Date(s).getTime()] *)
Definition getTimeOf `{Host} (s : string) : Number := parse s.

(** [new Date(v)] for a number [v]. *)
Definition ofNumber (v : Number) : Number := v ≫= TimeClip.

End JSDate.

(* ===================================================================== *)
(** * The data model (the [types] module)                                  *)
(* ===================================================================== *)

Inductive TaskStatus := Pending | InProgress | Completed | Blocked | Delayed.

(** [interface Task].  [startDate] and [endDate] are strings, documented
    as [YYYY-MM-DD]; the optional fields [isNew] and [reason] are absent
    ([None]) on a committed task. *)
Record Task := mkTask {
  id : string;
  name : string;
  startDate : string;
  endDate : string;
  duration : Z;
  status : TaskStatus;
  assignee : string;
  progress : Z;
  dependencies : list string;
  gmpCritical : bool;
  category : string;
  isNew : option bool;
  reason : option string
}.

#[global] Instance Task_inhabited : Inhabited Task :=
  populate (mkTask EmptyString EmptyString EmptyString EmptyString 0 Pending
              EmptyString 0 [] false EmptyString None None).

(** [interface ProposedChange] *)
Module ProposedChange.
Record ProposedChange := mkChange {
  taskId : string;
  taskName : option string;
  originalStartDate : option string;
  originalEndDate : option string;
  newStartDate : string;
  newEndDate : string;
  originalAssignee : option string;
  newAssignee : option string;
  reason : string
}.
End ProposedChange.
Abbreviation ProposedChange := ProposedChange.ProposedChange.

(* ===================================================================== *)
(** * [cascadeSchedule]                                                   *)
(* ===================================================================== *)

Import JSDate.

(** [{...task, startDate: s, endDate: e}] *)
Definition withDates (task : Task) (s e : string) : Task :=
  mkTask (id task) (name task) s e (duration task) (status task)
    (assignee task) (progress task) (dependencies task) (gmpCritical task)
    (category task) (isNew task) (reason task).

(** [new Map(currentTasks.map(t => [t.id, t]))].  The constructor sets
    the entries in array order: of two tasks with one id, the later one
    is the one the map holds. *)
Definition taskMapOf (currentTasks : list Task) : gmap string Task :=
  foldl (fun m t => <[id t := t]> m) ∅ currentTasks.

(** The callback of [task.dependencies.forEach]: one update of
    [maxDependencyEnd].  An id the map does not hold is skipped; a
    comparison with NaN is false. *)
Definition visitDependency `{Host} (taskMap : gmap string Task)
    (maxDependencyEnd : Z) (depId : string) : Z :=
  match taskMap !! depId with
  | Some dep =>
      match getTimeOf (endDate dep) with
      | Some depEnd =>
          if maxDependencyEnd <? depEnd then depEnd else maxDependencyEnd
      | None => maxDependencyEnd
      end
  | None => maxDependencyEnd
  end.

(** [maxDependencyEnd] after the [forEach], starting from 0, the epoch. *)
Definition maxDependencyEndOf `{Host} (taskMap : gmap string Task)
    (deps : list string) : Z :=
  foldl (visitDependency taskMap) 0 deps.

(** The body of the [for] loop for the task in slot [i]: the task the
    slot holds afterwards, and whether it was replaced.  The sum
    [maxDependencyEnd + 24 * 60 * 60 * 1000] is below 2^53 and exact; the
    difference [shift] and the sum [endMs + shift] are rounded. *)
Definition scheduleTask `{Host} (taskMap : gmap string Task) (task : Task)
    : Exc (Task * bool) :=
  match dependencies task with
  | [] => Returns (task, false)
  | _ :: _ =>
      let maxDependencyEnd := maxDependencyEndOf taskMap (dependencies task) in
      if 0 <? maxDependencyEnd then
        let minStartMs := maxDependencyEnd + 24 * 60 * 60 * 1000 in
        match getTimeOf (startDate task) with
        | Some currentStartMs =>
            if currentStartMs <? minStartMs then
              let shift := fl (minStartMs - currentStartMs) in
              let newStart := ofNumber (Some minStartMs) in
              let newEnd :=
                ofNumber ((fun endMs => fl (endMs + shift)) <$> getTimeOf (endDate task)) in
              s ← toISODate newStart;
              e ← toISODate newEnd;
              Returns (withDates task s e, true)
            else Returns (task, false)
        | None => Returns (task, false)
        end
      else Returns (task, false)
  end.

(** One run of the [for] loop over [currentTasks].  [taskMap] is built
    before the loop and holds the task objects of the start of the pass;
    iteration [i] reads and writes slot [i] only, so the loop is a
    traversal that collects the slots and the [hasChanged] flag. *)
Fixpoint forEachTask `{Host} (taskMap : gmap string Task) (currentTasks : list Task)
    : Exc (list Task * bool) :=
  match currentTasks with
  | [] => Returns ([], false)
  | task :: rest =>
      '(task', changed) ← scheduleTask taskMap task;
      '(rest', hasChanged) ← forEachTask taskMap rest;
      Returns (task' :: rest', changed || hasChanged)
  end.

(** The variables of the [while] loop. *)
Record LoopState := mkLoop {
  currentTasks : list Task;
  hasChanged : bool;
  iterations : Z
}.

(** [hasChanged && iterations < 50] *)
Definition loopCondition (st : LoopState) : bool :=
  hasChanged st && (iterations st <? 50).

(** The body of the [while] loop: one pass. *)
Definition loopBody `{Host} (st : LoopState) : Exc LoopState :=
  '(tasks', changed) ← forEachTask (taskMapOf (currentTasks st)) (currentTasks st);
  Returns (mkLoop tasks' changed (iterations st + 1)).

(** The [while] loop, unfolded at most [fuel] times. *)
Fixpoint whileLoop `{Host} (fuel : nat) (st : LoopState) : Exc LoopState :=
  match fuel with
  | O => Returns st
  | S fuel' =>
      if loopCondition st then st' ← loopBody st; whileLoop fuel' st'
      else Returns st
  end.

(** The state on entry: [currentTasks] is a copy of [tasks]. *)
Definition initialState (tasks : list Task) : LoopState :=
  mkLoop tasks true 0.

(** The final state of the loop.  50 unfoldings are enough: the loop
    stops by its own condition (see [whileLoop_50_stops]). *)
Definition cascadeRun `{Host} (tasks : list Task) : Exc LoopState :=
  whileLoop 50 (initialState tasks).

Definition cascadeSchedule `{Host} (tasks : list Task) : Exc (list Task) :=
  st ← cascadeRun tasks; Returns (currentTasks st).

(** ** The [while] loop as a transition system *)

(** [whileRuns st n out]: started in [st], the loop ends after [n] runs
    of its body, with outcome [out]: it returns the state in which the
    condition fails, or a run of the body throws. *)
Inductive whileRuns `{Host} : LoopState -> nat -> Exc LoopState -> Prop :=
| while_exit st :
    loopCondition st = false -> whileRuns st 0 (Returns st)
| while_throw st e :
    loopCondition st = true -> loopBody st = Throws e ->
    whileRuns st 1 (Throws e)
| while_iter st st' n out :
    loopCondition st = true -> loopBody st = Returns st' ->
    whileRuns st' n out -> whileRuns st (S n) out.

(* ===================================================================== *)
(** * [cascadeSchedule] on task objects                                   *)
(* ===================================================================== *)

(** The same function with the objects made explicit, to speak about
    copies and mutation.  A store is the sequence of the task objects
    allocated so far and a reference is an allocation index; an array of
    tasks is a list of references.  The function allocates ([{...t}] and
    [{...task, startDate, endDate}]) and assigns slots of its own array
    [currentTasks]; it never assigns a field of an object.  The spread
    copies are shallow: a copy holds the same [dependencies] array as its
    original, which the function only reads. *)
Module Objects.

Definition alloc (store : list Task) (obj : Task) : list Task * nat :=
  (store ++ [obj], length store).

(** [tasks.map(t => ({...t}))] *)
Fixpoint copyTasks (store : list Task) (tasks : list nat) : list Task * list nat :=
  match tasks with
  | [] => (store, [])
  | r :: rest =>
      let '(store1, r') := alloc store (store !!! r) in
      let '(store2, rest') := copyTasks store1 rest in
      (store2, r' :: rest')
  end.

(** [new Map(currentTasks.map(t => [t.id, t]))], holding references. *)
Definition refMapOf (store : list Task) (currentTasks : list nat) : gmap string nat :=
  foldl (fun m (r : nat) => <[id (store !!! r) := r]> m) ∅ currentTasks.

(** The body of the [for] loop for the slot holding [r]: the objects the
    map refers to are read through the store; a shifted task is a new
    object. *)
Definition scheduleSlot `{Host} (store : list Task) (taskMap : gmap string nat) (r : nat)
    : Exc (list Task * nat * bool) :=
  match scheduleTask ((fun d : nat => store !!! d) <$> taskMap) (store !!! r) with
  | Returns (task', true) =>
      let '(store', r') := alloc store task' in Returns (store', r', true)
  | Returns (_, false) => Returns (store, r, false)
  | Throws e => Throws e
  end.

Fixpoint forEachSlot `{Host} (store : list Task) (taskMap : gmap string nat)
    (currentTasks : list nat) : Exc (list Task * list nat * bool) :=
  match currentTasks with
  | [] => Returns (store, [], false)
  | r :: rest =>
      '((store1, r'), changed) ← scheduleSlot store taskMap r;
      '((store2, rest'), hasChanged) ← forEachSlot store1 taskMap rest;
      Returns (store2, r' :: rest', changed || hasChanged)
  end.

Record LoopState := mkLoop {
  store : list Task;
  currentTasks : list nat;
  hasChanged : bool;
  iterations : Z
}.

Definition loopCondition (st : LoopState) : bool :=
  hasChanged st && (iterations st <? 50).

Definition loopBody `{Host} (st : LoopState) : Exc LoopState :=
  '((store', tasks'), changed) ←
     forEachSlot (store st) (refMapOf (store st) (currentTasks st)) (currentTasks st);
  Returns (mkLoop store' tasks' changed (iterations st + 1)).

Fixpoint whileLoop `{Host} (fuel : nat) (st : LoopState) : Exc LoopState :=
  match fuel with
  | O => Returns st
  | S fuel' =>
      if loopCondition st then st' ← loopBody st; whileLoop fuel' st'
      else Returns st
  end.

(** The store and the array the call returns. *)
Definition cascadeSchedule `{Host} (store0 : list Task) (tasks : list nat)
    : Exc (list Task * list nat) :=
  let '(store1, copies) := copyTasks store0 tasks in
  st ← whileLoop 50 (mkLoop store1 copies true 0);
  Returns (store st, currentTasks st).

(** A reference to an object of the store. *)
Definition validIn (store : list Task) (r : nat) : Prop := (r < length store)%nat.

(** The tasks an array of references denotes. *)
Definition contents (store : list Task) (tasks : list nat) : list Task :=
  (fun r : nat => store !!! r) <$> tasks.

End Objects.

(* ===================================================================== *)
(** * [checkDependencies]                                                 *)
(* ===================================================================== *)

(** [getDate] and [setDate] work in the local time zone of the host.
    A zone gives the offset of local time from UTC in milliseconds, at a
    UTC time value ([LocalTZA(t, true)]) and at a local time value
    ([LocalTZA(t, false)]). *)
Record Zone := mkZone {
  offsetAtUTC : Z -> Z;
  offsetAtLocal : Z -> Z
}.

Definition LocalTime (zone : Zone) (t : Z) : Z := t + offsetAtUTC zone t.
Definition UTC (zone : Zone) (t : Z) : Z := t - offsetAtLocal zone t.

(** [d.getDate()]: the day of the month of [d] in local time. *)
Definition getDate (zone : Zone) (tv : Number) : Number :=
  (fun t => let '(_, _, d) := civilFromDays (Day (LocalTime zone t)) in d) <$> tv.

(** [d.setDate(dt)]: the time value of the local day [dt] of the local
    month of [d], at the local time of day of [d], clipped. *)
Definition setDate (zone : Zone) (tv : Number) (dt : Number) : Number :=
  t ← tv;
  date ← dt;
  let local := LocalTime zone t in
  let '(y, m, _) := civilFromDays (Day local) in
  TimeClip (UTC zone (daysFromCivil y m date * msPerDay + TimeWithinDay local)).

(** [a <= b] on numbers: false when either is NaN. *)
Definition numberLe (a b : Number) : bool :=
  match a, b with
  | Some x, Some y => x <=? y
  | _, _ => false
  end.

(** The record [checkDependencies] returns on a conflict. *)
Record Conflict := mkConflict {
  dependency : Task;
  suggestedDate : string
}.

(** The [for ... of] loop over [updatedTask.dependencies]. *)
Fixpoint checkEach `{Host} (zone : Zone) (updatedTask : Task) (allTasks : list Task)
    (deps : list string) : Exc (option Conflict) :=
  match deps with
  | [] => Returns None
  | depId :: rest =>
      match find (fun t => String.eqb (id t) depId) allTasks with
      | Some depTask =>
          let depEnd := parse (endDate depTask) in
          let currentStart := parse (startDate updatedTask) in
          if numberLe currentStart depEnd then
            let suggested := setDate zone depEnd ((fun d => d + 1) <$> getDate zone depEnd) in
            s ← toISODate suggested;
            Returns (Some (mkConflict depTask s))
          else checkEach zone updatedTask allTasks rest
      | None => checkEach zone updatedTask allTasks rest
      end
  end.

Definition checkDependencies `{Host} (zone : Zone) (updatedTask : Task)
    (allTasks : list Task) : Exc (option Conflict) :=
  checkEach zone updatedTask allTasks (dependencies updatedTask).

(** A zone with one offset all year, and zones with one change of offset
    at the UTC time value [instant].  A local time that the change skips
    or repeats is read with the offset before the change. *)
Definition fixedZone (offset : Z) : Zone :=
  mkZone (fun _ => offset) (fun _ => offset).

Definition zoneWithChange (before after instant : Z) : Zone :=
  mkZone (fun t => if t <? instant then before else after)
         (fun t => if t <? instant + Z.max before after then before else after).

Definition msPerHour : Z := 60 * 60 * 1000.

(** UTC, a zone eight hours ahead of UTC all year (China Standard Time,
    as Asia/Shanghai has kept it since 1992), and US Eastern time around
    the start of daylight saving time on 2023-03-12 at 07:00 UTC. *)
Definition zoneUTC : Zone := fixedZone 0.
Definition zonePlus8 : Zone := fixedZone (8 * msPerHour).
Definition zoneNewYork2023 : Zone :=
  zoneWithChange (-5 * msPerHour) (-4 * msPerHour) 1678604400000.

(* ===================================================================== *)
(** * The merge step of [handleConfirmChanges]                            *)
(* ===================================================================== *)

(** [a || b] on an optional string: [undefined] and the empty string are
    falsy. *)
Definition orElse (a : option string) (b : string) : string :=
  match a with
  | Some s => if String.eqb s EmptyString then b else s
  | None => b
  end.

(** The callback of [prev.tasks.map]: the first change whose [taskId] is
    the task's id is applied. *)
Definition applyChange (changes : list ProposedChange) (task : Task) : Task :=
  match find (fun c => String.eqb (ProposedChange.taskId c) (id task)) changes with
  | Some change =>
      mkTask (id task) (name task)
        (ProposedChange.newStartDate change) (ProposedChange.newEndDate change)
        (duration task) (status task)
        (orElse (ProposedChange.newAssignee change) (assignee task))
        (progress task) (dependencies task) (gmpCritical task) (category task)
        (isNew task) (reason task)
  | None => task
  end.

(** [const { isNew, reason, ...rest } = t; return rest] *)
Definition finalizeNewTask (t : Task) : Task :=
  mkTask (id t) (name t) (startDate t) (endDate t) (duration t) (status t)
    (assignee t) (progress t) (dependencies t) (gmpCritical t) (category t)
    None None.

Definition mergedTasks (prevTasks : list Task) (changes : list ProposedChange)
    (newTasks : list Task) : list Task :=
  map (applyChange changes) prevTasks ++ map finalizeNewTask newTasks.

(** The single user is an administrator. *)
Definition canEditTasks : bool := true.

(** The new [tasks] of the project state; [None] when the handler
    returns without an update. *)
Definition handleConfirmChanges `{Host} (prevTasks : list Task)
    (changes : list ProposedChange) (newTasks : list Task)
    : option (Exc (list Task)) :=
  if negb canEditTasks then None
  else Some (cascadeSchedule (mergedTasks prevTasks changes newTasks)).

(* ===================================================================== *)
(** * Vocabulary of the statements                                        *)
(* ===================================================================== *)

Definition wholeDay (t : Z) : Prop := t mod msPerDay = 0.

(** The time values of a task's dates, NaN when the string is no date. *)
Definition startMs `{Host} (t : Task) : Number := parse (startDate t).
Definition endMs `{Host} (t : Task) : Number := parse (endDate t).

(** The dates of [t] are calendar dates: each one is read as midnight
    UTC of a day, as [YYYY-MM-DD] is, or is no date at all. *)
Definition calendarDates `{Host} (t : Task) : Prop :=
  (forall s, startMs t = Some s -> wholeDay s) /\
  (forall e, endMs t = Some e -> wholeDay e).

(** [endDate - startDate] in milliseconds. *)
Definition spanMs `{Host} (t : Task) : Number :=
  e ← endMs t; s ← startMs t; Some (e - s).

(** [t'] is [t] with both dates moved by [shift] milliseconds. *)
Definition shiftedBy `{Host} (shift : Z) (t t' : Task) : Prop :=
  exists s e,
    startMs t = Some s /\ endMs t = Some e /\
    startMs t' = Some (s + shift) /\ endMs t' = Some (e + shift) /\
    t' = withDates t (isoDate (s + shift)) (isoDate (e + shift)).

(** [t'] is [t], or [t] with both dates moved later by one and the same
    positive whole number of days. *)
Definition movedLater `{Host} (t t' : Task) : Prop :=
  t' = t \/ exists shift, 0 < shift /\ wholeDay shift /\ shiftedBy shift t t'.

(** [t'] agrees with [t] on every field other than the two dates. *)
Definition sameOtherFields (t t' : Task) : Prop :=
  id t' = id t /\ name t' = name t /\ duration t' = duration t /\
  status t' = status t /\ assignee t' = assignee t /\
  progress t' = progress t /\ dependencies t' = dependencies t /\
  gmpCritical t' = gmpCritical t /\ category t' = category t /\
  isNew t' = isNew t /\ reason t' = reason t.

(** [t'] agrees with [t] on every field other than the two dates and
    the assignee. *)
Definition keptByMerge (t t' : Task) : Prop :=
  id t' = id t /\ name t' = name t /\ duration t' = duration t /\
  status t' = status t /\ progress t' = progress t /\
  dependencies t' = dependencies t /\ gmpCritical t' = gmpCritical t /\
  category t' = category t /\ isNew t' = isNew t /\ reason t' = reason t.

(** [startDate <= endDate], on dates that parse. *)
Definition datesOrdered `{Host} (t : Task) : Prop :=
  exists s e, startMs t = Some s /\ endMs t = Some e /\ s <= e.

(** The finish-to-start invariant of task [t] in the list [ts]: [t]
    starts strictly after the end of every dependency that resolves in
    [ts] (as [taskMap.get] resolves it). *)
Definition finishToStart `{Host} (ts : list Task) (t : Task) : Prop :=
  exists s, startMs t = Some s /\
    forall d D, d ∈ dependencies t -> taskMapOf ts !! d = Some D ->
      exists e, endMs D = Some e /\ e < s.

(** [t] has a dependency that resolves in [ts] to a task ending after
    1970-01-01. *)
Definition constrained `{Host} (ts : list Task) (t : Task) : Prop :=
  exists d D e, d ∈ dependencies t /\ taskMapOf ts !! d = Some D /\
    endMs D = Some e /\ 0 < e.

(** A pass over [ts] replaces no task. *)
Definition settled `{Host} (ts : list Task) : Prop :=
  forEachTask (taskMapOf ts) ts = Returns (ts, false).

(** The dates of [t] parse, it lasts at most [D] ms and ends by [H]. *)
Definition within `{Host} (D H : Z) (t : Task) : Prop :=
  exists s e, startMs t = Some s /\ endMs t = Some e /\ e - s <= D /\ e <= H.

(** The number the loop body computes for the new end of a task that
    starts at [s], ends at [e] and has to start at [minStart]. *)
Definition newEndOf (minStart s e : Z) : Z := fl (e + fl (minStart - s)).

(** The body of the loop has to shift [t] in a pass with map [m], and
    the new start or the new end is no valid time value: the day after
    [maxDependencyEnd] is past the range of [Date], or the end date is
    no date, or the shifted end date is outside the range. *)
Definition unshiftable `{Host} (m : gmap string Task) (t : Task) : Prop :=
  let mx := maxDependencyEndOf m (dependencies t) in
  0 < mx /\
  exists s, startMs t = Some s /\ s < mx + msPerDay /\
    (maxTime < mx + msPerDay \/ endMs t = None \/
     exists e, endMs t = Some e /\
       ~ (- maxTime <= newEndOf (mx + msPerDay) s e <= maxTime)).

(** ** Sample tasks *)

Definition sample (i s e : string) (deps : list string) : Task :=
  mkTask i i s e 5 Pending "QA" 0 deps false "IQ" None None.

(** A depends on B. *)
Definition chainA : Task := sample "A" "2023-10-01" "2023-10-05" ["B"].
Definition chainB : Task := sample "B" "2023-10-01" "2023-10-10" [].

(** A depends on B and B depends on A. *)
Definition cycleA : Task := sample "A" "2023-10-01" "2023-10-05" ["B"].
Definition cycleB : Task := sample "B" "2023-10-01" "2023-10-10" ["A"].

(** A task whose end date precedes its start date. *)
Definition inverted : Task := sample "A" "2023-10-05" "2023-10-01" [].

(** A task depending on an id no task carries. *)
Definition haunted : Task := sample "A" "2023-10-01" "2023-10-05" ["ghost"].

(** A task to be shifted whose end date is no date. *)
Definition openEnded : Task := sample "A" "2023-10-01" "TBD" ["B"].

(** A depends on B, which ends on 1970-01-01, after A starts. *)
Definition ancientA : Task := sample "A" "1960-10-01" "1960-10-05" ["B"].
Definition ancientB : Task := sample "B" "1969-10-01" "1970-01-01" [].

(** ** The conflict check as the specification words it *)

(** The first dependency id, in stored order, that resolves in
    [allTasks] to a task whose end date is on or after the start date of
    [updatedTask]; with the time value of that end date. *)
Fixpoint firstViolation `{Host} (updatedTask : Task) (allTasks : list Task)
    (deps : list string) : option (Task * Z) :=
  match deps with
  | [] => None
  | depId :: rest =>
      match find (fun t => String.eqb (id t) depId) allTasks with
      | Some depTask =>
          match startMs updatedTask, endMs depTask with
          | Some s, Some e =>
              if s <=? e then Some (depTask, e)
              else firstViolation updatedTask allTasks rest
          | _, _ => firstViolation updatedTask allTasks rest
          end
      | None => firstViolation updatedTask allTasks rest
      end
  end.

(** A task starting on 2023-03-10 that depends on one ending on
    2023-03-12. *)
Definition marchA : Task := sample "A" "2023-03-10" "2023-03-14" ["B"].
Definition marchB : Task := sample "B" "2023-03-01" "2023-03-12" [].

(* ===================================================================== *)
(** * The other helpers and handlers of [App.tsx]                         *)
(* ===================================================================== *)

(** [addDays(dateStr, days)]: [setDate(getDate() + days)] in local time,
    printed with [toISOString] in UTC. *)
Definition addDays `{Host} (zone : Zone) (dateStr : string) (days : Z) : Exc string :=
  let date := parse dateStr in
  toISODate (setDate zone date ((fun d => d + days) <$> getDate zone date)).

(** [tasks.map(t => t.id === updatedTask.id ? updatedTask : t)] *)
Definition replaceTask (updatedTask : Task) (tasks : list Task) : list Task :=
  map (fun t => if String.eqb (id t) (id updatedTask) then updatedTask else t) tasks.

(** [type ViewMode] and the two zoom handlers, as functions of the mode. *)
Module Zoom.

Inductive ViewMode := Day | Week | Month | Quarter.

Definition handleZoomIn (viewMode : ViewMode) : ViewMode :=
  match viewMode with
  | Quarter => Month
  | Month => Week
  | Week => Day
  | Day => Day
  end.

Definition handleZoomOut (viewMode : ViewMode) : ViewMode :=
  match viewMode with
  | Day => Week
  | Week => Month
  | Month => Quarter
  | Quarter => Quarter
  end.

End Zoom.

(** The argument of [handleInsertTask] and of [handleAddModule]. *)
Inductive Position := before | after.
Inductive ModuleType := general | facility | equipment | tech_transfer.

(** A step of a module template. *)
Module Step.
Record Step := mkStep {
  name : string;
  duration : Z;
  gmp : bool;
  cat : string
}.
End Step.
Abbreviation Step := Step.Step.

Definition facilityTemplate : list Step :=
  [ Step.mkStep "URS (用户需求说明书) 签署" 5 true "Planning";
    Step.mkStep "施工商选型与审计" 10 true "Procurement";
    Step.mkStep "设计确认 (DQ)" 7 true "Validation";
    Step.mkStep "施工与安装确认 (IQ)" 20 true "Construction";
    Step.mkStep "运行确认 (OQ) & HVAC调试" 14 true "Validation";
    Step.mkStep "性能确认 (PQ) & 环境监测" 14 true "Validation" ].

Definition equipmentTemplate : list Step :=
  [ Step.mkStep "URS (用户需求说明书) 签署" 5 true "Planning";
    Step.mkStep "供应商选型与审计" 10 true "Procurement";
    Step.mkStep "设计确认 (DQ)" 5 true "Validation";
    Step.mkStep "到货与安装确认 (IQ)" 7 true "Validation";
    Step.mkStep "运行确认 (OQ)" 10 true "Validation";
    Step.mkStep "性能确认 (PQ)" 10 true "Validation" ].

Definition techTransferTemplate : list Step :=
  [ Step.mkStep "技术转移方案 (Protocol) 制定" 5 true "Planning";
    Step.mkStep "物料供应商审计" 14 true "Quality";
    Step.mkStep "分析方法转移 (AMT)" 14 true "QC";
    Step.mkStep "工艺参数确认 runs" 10 true "Process";
    Step.mkStep "工艺验证 (PPQ)" 21 true "Validation" ].

(** [`task_${baseId}_${index}`] *)
Definition moduleTaskId (baseId : Z) (index : nat) : string :=
  "task_" +:+ pretty baseId +:+ "_" +:+ pretty index.

(** [prevTaskId ? [prevTaskId] : []]: the empty string is falsy. *)
Definition dependenciesOn (prevTaskId : string) : list string :=
  if String.eqb prevTaskId EmptyString then [] else [prevTaskId].

(** [template.map((step, index) => ...)] with its two variables
    [currentStartDate] and [prevTaskId]: each task ends [step.duration]
    days after it starts, depends on the task before it, and the next one
    starts the day after it ends. *)
Fixpoint expandTemplate `{Host} (zone : Zone) (baseId : Z) (prefix : string)
    (template : list Step) (index : nat)
    (currentStartDate prevTaskId : string) : Exc (list Task) :=
  match template with
  | [] => Returns []
  | step :: rest =>
      let taskId := moduleTaskId baseId index in
      endDate ← addDays zone currentStartDate (Step.duration step);
      let task :=
        mkTask taskId (prefix +:+ " " +:+ Step.name step) currentStartDate endDate
          (Step.duration step) Pending "待定" 0 (dependenciesOn prevTaskId)
          (Step.gmp step) (Step.cat step) None None in
      next ← addDays zone endDate 1;
      tasks ← expandTemplate zone baseId prefix rest (S index) next taskId;
      Returns (task :: tasks)
  end.

(** The [newTasks] of [handleAddModule].  [baseId] is [Date.now()] and
    [now] the time value of [new Date()]. *)
Definition moduleTasks `{Host} (zone : Zone) (baseId now : Z) (type : ModuleType)
    : Exc (list Task) :=
  let today := isoDate now in
  match type with
  | general =>
      endDate ← addDays zone today 5;
      Returns [mkTask ("task_" +:+ pretty baseId) "新建通用任务" today endDate 5
                 Pending "未分配" 0 [] false "General" None None]
  | facility => expandTemplate zone baseId "[厂房]" facilityTemplate 0 today EmptyString
  | equipment => expandTemplate zone baseId "[设备]" equipmentTemplate 0 today EmptyString
  | tech_transfer =>
      expandTemplate zone baseId "[技转]" techTransferTemplate 0 today EmptyString
  end.

(** The handlers that edit the task list, as transitions of the part of
    the application state they read and write: [project.tasks],
    [conflict] and [pendingTaskUpdate]. *)
Module App.

Record ConflictState := mkConflictState {
  task : Task;
  dependency : Task;
  suggestedDate : string
}.

Record State := mkState {
  tasks : list Task;
  conflict : option ConflictState;
  pendingTaskUpdate : option Task
}.

(** [handleTaskUpdate]: an edit with a conflict is held back, any other
    edit is applied and the schedule cascaded. *)
Definition handleTaskUpdate `{Host} (zone : Zone) (updatedTask : Task) (st : State)
    : Exc State :=
  if negb canEditTasks then Returns st
  else
    match checkDependencies zone updatedTask (tasks st) with
    | Throws e => Throws e
    | Returns (Some (mkConflict depTask suggested)) =>
        Returns (mkState (tasks st)
                   (Some (mkConflictState updatedTask depTask suggested))
                   (Some updatedTask))
    | Returns None =>
        newTasksCascaded ← cascadeSchedule (replaceTask updatedTask (tasks st));
        Returns (mkState newTasksCascaded (conflict st) (pendingTaskUpdate st))
    end.

(** The [fixedTask] of [resolveConflict]: the pending task moved to the
    suggested date, its end date moved with it.  The difference
    [durationMs] and the sum [newStart + durationMs] are rounded. *)
Definition fixedTaskOf `{Host} (pending : Task) (newStartStr : string) : Exc Task :=
  let oldStart := getTimeOf (startDate pending) in
  let oldEnd := getTimeOf (endDate pending) in
  let durationMs := e ← oldEnd; s ← oldStart; Some (fl (e - s)) in
  let newStart := getTimeOf newStartStr in
  let newEnd := ofNumber (n ← newStart; d ← durationMs; Some (fl (n + d))) in
  newEndStr ← toISODate newEnd;
  Returns (withDates pending newStartStr newEndStr).

(** [resolveConflict] *)
Definition resolveConflict `{Host} (st : State) : Exc State :=
  match pendingTaskUpdate st, conflict st with
  | Some pending, Some c =>
      if canEditTasks then
        fixedTask ← fixedTaskOf pending (suggestedDate c);
        newTasksCascaded ← cascadeSchedule (replaceTask fixedTask (tasks st));
        Returns (mkState newTasksCascaded None None)
      else Returns st
  | _, _ => Returns st
  end.

(** [cancelConflict] *)
Definition cancelConflict (st : State) : State :=
  mkState (tasks st) None None.

(** [handleTaskDelete] *)
Definition handleTaskDelete (taskId : string) (st : State) : State :=
  if negb canEditTasks then st
  else
    mkState (List.filter (fun t => negb (String.eqb (id t) taskId)) (tasks st))
      (conflict st) (pendingTaskUpdate st).

(** [tasks.findIndex(t => t.id === targetTaskId)], [None] for -1. *)
Fixpoint findIndex (targetTaskId : string) (l : list Task) : option nat :=
  match l with
  | [] => None
  | t :: rest =>
      if String.eqb (id t) targetTaskId then Some 0%nat
      else S <$> findIndex targetTaskId rest
  end.

(** [handleInsertTask]; [now] is [Date.now()]. *)
Definition handleInsertTask (now : Z) (targetTaskId : string)
    (position : Position) (st : State) : State :=
  if negb canEditTasks then st
  else
    match findIndex targetTaskId (tasks st) with
    | None => st
    | Some index =>
        let targetTask : Task := tasks st !!! index in
        let newTask :=
          mkTask ("task_" +:+ pretty now) "新任务" (startDate targetTask)
            (endDate targetTask) (duration targetTask) Pending "未分配" 0 []
            false "General" (Some true) None in
        let insertIndex := match position with after => S index | before => index end in
        mkState (take insertIndex (tasks st) ++ newTask :: drop insertIndex (tasks st))
          (conflict st) (pendingTaskUpdate st)
    end.

(** [handleAddModule] *)
Definition handleAddModule `{Host} (zone : Zone) (baseId now : Z) (type : ModuleType)
    (st : State) : Exc State :=
  if negb canEditTasks then Returns st
  else
    newTasks ← moduleTasks zone baseId now type;
    Returns (mkState (tasks st ++ newTasks) (conflict st) (pendingTaskUpdate st)).

End App.

(** ** Vocabulary for the module templates *)

(** The tasks [ts] are laid out one after the other from the time value
    [c]: each starts where the layout has come to, ends [duration] days
    later, and the next one starts the day after and depends on it; the
    first one has the dependencies [deps0]. *)
Fixpoint laidOut `{Host} (c : Z) (deps0 : list string) (ts : list Task) : Prop :=
  match ts with
  | [] => True
  | t :: rest =>
      startMs t = Some c /\ endMs t = Some (c + duration t * msPerDay) /\
      dependencies t = deps0 /\
      laidOut (c + duration t * msPerDay + msPerDay) [id t] rest
  end.

(** [t] is the task of the step [step] of a template: its name after
    the prefix, its duration, its GMP flag and its category. *)
Definition fromStep (prefix : string) (step : Step) (t : Task) : Prop :=
  name t = prefix +:+ " " +:+ Step.name step /\
  duration t = Step.duration step /\
  gmpCritical t = Step.gmp step /\ category t = Step.cat step.

(** [ts] are the tasks of the steps of [template], in order, with the
    ids [task_<baseId>_0], [task_<baseId>_1], ... *)
Definition templated (baseId : Z) (prefix : string) (template : list Step)
    (ts : list Task) : Prop :=
  map id ts = map (moduleTaskId baseId) (seq 0 (length template)) /\
  Forall2 (fromStep prefix) template ts.

(** [ts] is the module of the given type: the single general task, or
    the tasks of the type's template. *)
Definition moduleOf (baseId : Z) (type : ModuleType) (ts : list Task) : Prop :=
  match type with
  | general =>
      map id ts = ["task_" +:+ pretty baseId] /\
      map name ts = ["新建通用任务"] /\ map duration ts = [5]
  | facility => templated baseId "[厂房]" facilityTemplate ts
  | equipment => templated baseId "[设备]" equipmentTemplate ts
  | tech_transfer => templated baseId "[技转]" techTransferTemplate ts
  end.

(** The days a template takes: its durations and one day after each
    step. *)
Definition templateDays (template : list Step) : Z :=
  foldr (fun step acc => Step.duration step + 1 + acc) 0 template.

(* ##################################################################### *)
(** * Properties                                                          *)
(* ##################################################################### *)

(** Unfolding the sequencing of outcomes and of numbers. *)
Ltac exc_simpl :=
  cbn [JSDate.ofNumber JSDate.toISODate mbind mret option_bind Exc_bind Exc_ret
       fmap option_fmap option_map].

(* ===================================================================== *)
(** * Facts about the Date model                                          *)
(* ===================================================================== *)

Module JSDateFacts.
Import JSDate.

(** ** The calendar functions are inverse to each other *)

Lemma yearOfEra_bounds (doe : Z) : 0 <= doe < 146097 ->
  let yoe := (doe - doe / 1460 + doe / 36524 - doe / 146096) / 365 in
  0 <= doe - (365 * yoe + yoe / 4 - yoe / 100) <= 365 /\ 0 <= yoe <= 399.
Proof. intros H yoe. subst yoe. Z.to_euclidean_division_equations; lia. Qed.

Lemma monthOfYear_bounds (doy : Z) : 0 <= doy <= 365 ->
  let mp := (5 * doy + 2) / 153 in
  0 <= mp <= 11 /\ 1 <= doy - (153 * mp + 2) / 5 + 1 <= 31.
Proof. intros H mp. subst mp. Z.to_euclidean_division_equations; lia. Qed.

Lemma civilOfEraDay_spec (doe y m d : Z) :
  0 <= doe < 146097 -> civilOfEraDay doe = (y, m, d) ->
  1 <= m <= 12 /\ 1 <= d <= 31 /\ 0 <= y <= 400 /\
  daysFromCivil y m d = doe - 719468.
Proof.
  intros Hdoe. unfold civilOfEraDay.
  pose proof (yearOfEra_bounds doe Hdoe) as Hy. cbv zeta in Hy.
  set (yoe := (doe - doe / 1460 + doe / 36524 - doe / 146096) / 365) in *.
  destruct Hy as [Hdoy Hyoe].
  pose proof (monthOfYear_bounds _ Hdoy) as Hm. cbv zeta in Hm.
  set (doy := doe - (365 * yoe + yoe / 4 - yoe / 100)) in *.
  set (mp := (5 * doy + 2) / 153) in *.
  destruct Hm as [Hmp Hd]. clearbody mp.
  assert (Hdoe' : doe = 365 * yoe + yoe / 4 - yoe / 100 + doy) by (subst doy; lia).
  assert (Hdd : doy = (153 * mp + 2) / 5 + (doy - (153 * mp + 2) / 5 + 1) - 1) by lia.
  set (dd := doy - (153 * mp + 2) / 5 + 1) in *.
  clearbody dd. clearbody doy. clearbody yoe.
  destruct (Z.ltb_spec mp 10).
  - destruct (Z.leb_spec (mp + 3) 2); [lia|].
    intros [= <- <- <-]. repeat split; try lia.
    unfold daysFromCivil.
    destruct (Z.leb_spec (mp + 3) 2); [lia|].
    destruct (Z.ltb_spec 2 (mp + 3)); [|lia].
    replace (mp + 3 - 3) with mp by lia.
    cbv zeta. rewrite (Z.div_small yoe 400), (Z.mod_small yoe 400) by lia. lia.
  - destruct (Z.leb_spec (mp - 9) 2); [|lia].
    intros [= <- <- <-]. repeat split; try lia.
    unfold daysFromCivil.
    destruct (Z.leb_spec (mp - 9) 2); [|lia].
    destruct (Z.ltb_spec 2 (mp - 9)); [lia|].
    replace (mp - 9 + 9) with mp by lia. replace (yoe + 1 - 1) with yoe by lia.
    cbv zeta. rewrite (Z.div_small yoe 400), (Z.mod_small yoe 400) by lia. lia.
Qed.

Lemma daysFromCivil_era (y m d k : Z) :
  daysFromCivil (y + 400 * k) m d = daysFromCivil y m d + 146097 * k.
Proof.
  unfold daysFromCivil.
  replace (if m <=? 2 then y + 400 * k - 1 else y + 400 * k)
    with ((if m <=? 2 then y - 1 else y) + k * 400)
    by (destruct (m <=? 2); lia).
  rewrite Z_div_plus_full, Z_mod_plus_full by lia. lia.
Qed.

Lemma civilFromDays_spec (z y m d : Z) :
  civilFromDays z = (y, m, d) ->
  1 <= m <= 12 /\ 1 <= d <= 31 /\ daysFromCivil y m d = z /\
  400 * ((z + 719468) / 146097) <= y <= 400 * ((z + 719468) / 146097) + 400.
Proof.
  unfold civilFromDays. intros Hc.
  pose proof (Z.mod_pos_bound (z + 719468) 146097 ltac:(lia)) as Hb.
  destruct (civilOfEraDay ((z + 719468) mod 146097)) as [[y0 m0] d0] eqn:He.
  apply civilOfEraDay_spec in He as (Hm & Hd & Hy & Hdays); [|exact Hb].
  injection Hc as <- <- <-.
  rewrite daysFromCivil_era.
  pose proof (Z.div_mod (z + 719468) 146097 ltac:(lia)).
  lia.
Qed.

Lemma daysFromCivil_next_day (y m d : Z) :
  daysFromCivil y m (d + 1) = daysFromCivil y m d + 1.
Proof. unfold daysFromCivil. lia. Qed.


(** ** Printing a date and reading it back *)

Lemma digitVal_digitChar (k : Z) : 0 <= k <= 9 -> digitVal (digitChar k) = Some k.
Proof.
  intros H.
  assert (Hk : k = 0 \/ k = 1 \/ k = 2 \/ k = 3 \/ k = 4 \/
               k = 5 \/ k = 6 \/ k = 7 \/ k = 8 \/ k = 9) by lia.
  repeat (destruct Hk as [-> | Hk]; [reflexivity|]). subst k. reflexivity.
Qed.

Lemma number_digit (n : Z) (cs : list ascii) (acc : Z) :
  number (digitChar (n mod 10) :: cs) acc = number cs (10 * acc + n mod 10).
Proof.
  cbn [number]. rewrite digitVal_digitChar; [reflexivity|].
  pose proof (Z.mod_pos_bound n 10). lia.
Qed.

Lemma number_pad2 (n : Z) : 0 <= n <= 99 -> number (pad2 n) 0 = Some n.
Proof.
  intros H. unfold pad2. rewrite !number_digit. cbn [number]. f_equal. Z.to_euclidean_division_equations; lia.
Qed.

Lemma number_pad4 (n : Z) : 0 <= n <= 9999 -> number (pad4 n) 0 = Some n.
Proof.
  intros H. unfold pad4, pad2. cbn [app]. rewrite !number_digit.
  cbn [number]. f_equal. Z.to_euclidean_division_equations; lia.
Qed.

Lemma number_pad6 (n : Z) : 0 <= n <= 999999 -> number (pad6 n) 0 = Some n.
Proof.
  intros H. unfold pad6, pad4, pad2. cbn [app]. rewrite !number_digit.
  cbn [number]. f_equal. Z.to_euclidean_division_equations; lia.
Qed.

Lemma makeDate_civil (z y m d : Z) :
  civilFromDays z = (y, m, d) -> makeDate y m d = TimeClip (z * msPerDay).
Proof.
  intros Hc. apply civilFromDays_spec in Hc as (Hm & Hd & Hz & _).
  unfold makeDate. rewrite Hz.
  destruct (Z.leb_spec 1 m), (Z.leb_spec m 12), (Z.leb_spec 1 d),
    (Z.leb_spec d 31); try lia. reflexivity.
Qed.

Lemma TimeClip_range (t : Z) : - maxTime <= t <= maxTime -> TimeClip t = Some t.
Proof.
  intros [H1 H2]. unfold TimeClip.
  apply Z.leb_le in H1. apply Z.leb_le in H2. rewrite H1, H2. reflexivity.
Qed.

Lemma TimeClip_Some (t u : Z) : TimeClip t = Some u -> u = t /\ - maxTime <= t <= maxTime.
Proof.
  unfold TimeClip.
  destruct (Z.leb_spec (- maxTime) t), (Z.leb_spec t maxTime);
    cbn [andb]; intros [= <-]. lia.
Qed.

Lemma TimeClip_Day (t : Z) :
  - maxTime <= t <= maxTime -> TimeClip (Day t * msPerDay) = Some (Day t * msPerDay).
Proof.
  intros H. apply TimeClip_range. unfold Day, maxTime in *.
  change msPerDay with 86400000.
  Z.to_euclidean_division_equations; lia.
Qed.

Lemma isDash_digit (k : Z) : 0 <= k <= 9 -> isDash (digitChar k) || isPlus (digitChar k) = false.
Proof.
  intros H.
  assert (Hk : k = 0 \/ k = 1 \/ k = 2 \/ k = 3 \/ k = 4 \/
               k = 5 \/ k = 6 \/ k = 7 \/ k = 8 \/ k = 9) by lia.
  repeat (destruct Hk as [-> | Hk]; [reflexivity|]). subst k. reflexivity.
Qed.

(** Reading back the date a valid time value prints as gives the start of
    its (UTC) day. *)
Lemma parseDateOnly_isoDate (t : Z) :
  - maxTime <= t <= maxTime -> parseDateOnly (isoDate t) = Some (Day t * msPerDay).
Proof.
  intros Ht. unfold isoDate.
  destruct (civilFromDays (Day t)) as [[y m] d] eqn:Hc.
  pose proof (makeDate_civil _ _ _ _ Hc) as Hmk.
  rewrite TimeClip_Day in Hmk by exact Ht.
  apply civilFromDays_spec in Hc as (Hm & Hd & _ & Hy).
  assert (Hday : -100000000 <= Day t <= 100000000)
    by (unfold Day, maxTime in *; change msPerDay with 86400000;
        Z.to_euclidean_division_equations; lia).
  assert (Hyr : -999999 <= y <= 999999)
    by (Z.to_euclidean_division_equations; lia).
  pose proof (number_pad2 m ltac:(lia)) as Hn2m.
  pose proof (number_pad2 d ltac:(lia)) as Hn2d.
  unfold parseDateOnly. rewrite list_ascii_of_string_of_list_ascii. unfold yearChars.
  destruct ((0 <=? y) && (y <=? 9999)) eqn:Hsmall.
  - apply andb_prop in Hsmall as [H0 H1].
    apply Z.leb_le in H0. apply Z.leb_le in H1.
    pose proof (number_pad4 y ltac:(lia)) as Hn4.
    unfold pad4, pad2 in *. cbn [app] in *.
    rewrite isDash_digit by (pose proof (Z.mod_pos_bound (y / 1000) 10); lia).
    rewrite Hn4. cbn [mbind option_bind parseMonthDay].
    change (isDash "-") with true. cbn [andb].
    rewrite Hn2m, Hn2d. exact Hmk.
  - pose proof (number_pad6 (Z.abs y) ltac:(lia)) as Hn6.
    unfold pad6, pad4, pad2 in *. cbn [app] in *.
    destruct (Z.ltb_spec y 0) as [Hneg|Hpos].
    + change (isDash "-") with true. cbn [orb andb].
      rewrite Hn6. cbn [mbind option_bind parseMonthDay].
      destruct (Z.eqb_spec (Z.abs y) 0); [lia|].
      change (isDash "-") with true. cbn [andb].
      rewrite Hn2m, Hn2d. cbn [mbind option_bind].
      replace (- Z.abs y) with y by lia. exact Hmk.
    + change (isDash "+") with false. change (isPlus "+") with true.
      cbn [orb andb].
      rewrite Hn6. cbn [mbind option_bind parseMonthDay].
      change (isDash "-") with true. cbn [andb].
      rewrite Hn2m, Hn2d. cbn [mbind option_bind].
      replace (Z.abs y) with y by lia. exact Hmk.
Qed.

Lemma makeDate_whole_day (y m d t : Z) :
  makeDate y m d = Some t -> t mod msPerDay = 0 /\ - maxTime <= t <= maxTime.
Proof.
  unfold makeDate. destruct (_ && _ && _ && _); [|discriminate].
  intros H. apply TimeClip_Some in H as [-> H]. split; [|exact H].
  apply Z.mod_mul. discriminate.
Qed.

Lemma parseMonthDay_whole_day (y : Z) (cs : list ascii) (t : Z) :
  parseMonthDay y cs = Some t -> t mod msPerDay = 0 /\ - maxTime <= t <= maxTime.
Proof.
  unfold parseMonthDay, mbind, option_bind.
  repeat case_match; try discriminate; apply makeDate_whole_day.
Qed.

(** A string of a date-only form is read as a whole number of days
    inside the range of time values. *)
Lemma parseDateOnly_whole_day (s : string) (t : Z) :
  parseDateOnly s = Some t -> t mod msPerDay = 0 /\ - maxTime <= t <= maxTime.
Proof.
  unfold parseDateOnly, mbind, option_bind.
  repeat case_match; try discriminate; apply parseMonthDay_whole_day.
Qed.

Lemma parseDateTimeUTC_range (s : string) (t : Z) :
  parseDateTimeUTC s = Some t -> - maxTime <= t <= maxTime.
Proof.
  unfold parseDateTimeUTC.
  destruct (list_ascii_of_string s) as [|c cs]; [discriminate|].
  do 18 (destruct cs as [|? cs]; [discriminate|]). cbv beta iota.
  destruct (_ && _ && _ && _ && _); [|discriminate].
  unfold mbind, option_bind.
  do 6 (destruct (number _ 0); [|discriminate]).
  destruct (parseFraction cs); [|discriminate].
  destruct (_ && _ && _ && _ && _ && _ && _); [|discriminate].
  intros Hc. apply TimeClip_Some in Hc as [-> Hc]. exact Hc.
Qed.

(** ** [Date.parse] on any host *)

Section Parse.
Context {host : Host}.

(** Whatever the host, [new Date(s)] holds a time value or NaN. *)
Lemma parse_range (s : string) (t : Z) :
  parse s = Some t -> - maxTime <= t <= maxTime.
Proof.
  unfold parse.
  destruct (parseDateOnly s) as [t1|] eqn:H1.
  { intros [= <-]. apply (parseDateOnly_whole_day _ _ H1). }
  destruct (parseDateTimeUTC s) as [t2|] eqn:H2.
  { intros [= <-]. apply (parseDateTimeUTC_range _ _ H2). }
  destruct (hasDigit s); [|discriminate].
  destruct (otherFormats s) as [v|]; [|discriminate].
  cbn [mbind option_bind]. intros Hc. apply TimeClip_Some in Hc as [-> Hc]. exact Hc.
Qed.

(** A string of a date-only form is read alike on every host. *)
Lemma parse_date_only (s : string) (t : Z) :
  parseDateOnly s = Some t -> parse s = Some t.
Proof. intros Hp. unfold parse. rewrite Hp. reflexivity. Qed.

Lemma parse_isoDate (t : Z) :
  - maxTime <= t <= maxTime -> parse (isoDate t) = Some (Day t * msPerDay).
Proof. intros Ht. apply parse_date_only, parseDateOnly_isoDate, Ht. Qed.

Lemma parse_isoDate_whole (t : Z) :
  - maxTime <= t <= maxTime -> t mod msPerDay = 0 -> parse (isoDate t) = Some t.
Proof.
  intros Ht Hm. rewrite parse_isoDate by exact Ht. f_equal.
  unfold Day. pose proof (Z.div_mod t msPerDay ltac:(discriminate)). lia.
Qed.

End Parse.

(** ** Rounding *)

Lemma fl_small (z : Z) : Z.abs z <= 2 ^ 53 -> fl z = z.
Proof.
  intros Hz. unfold fl. destruct (Z.leb_spec (Z.abs z) (2 ^ 53)); [reflexivity | lia].
Qed.

(** A whole number of days is a multiple of 2^10, and a double as long
    as it is below 2^63 in magnitude. *)
Lemma fl_whole_day (z : Z) :
  z mod msPerDay = 0 -> Z.abs z < 2 ^ 63 -> fl z = z.
Proof.
  intros Hw Hz. unfold fl.
  destruct (Z.leb_spec (Z.abs z) (2 ^ 53)) as [|Hbig]; [reflexivity|].
  assert (Hpos : 0 < Z.abs z) by (change (2 ^ 53) with 9007199254740992 in Hbig; lia).
  assert (Hlo : 53 <= Z.log2 (Z.abs z)) by (apply Z.log2_le_pow2; lia).
  assert (Hhi : Z.log2 (Z.abs z) < 63) by (apply Z.log2_lt_pow2; lia).
  assert (Ha : Z.abs z mod msPerDay = 0).
  { destruct (Z.abs_spec z) as [[_ ->] | [_ ->]]; [exact Hw|].
    change msPerDay with 86400000 in *. Z.to_euclidean_division_equations. lia. }
  set (a := Z.abs z) in *. set (k := Z.log2 a - 52).
  assert (Hk : k = 1 \/ k = 2 \/ k = 3 \/ k = 4 \/ k = 5 \/
               k = 6 \/ k = 7 \/ k = 8 \/ k = 9 \/ k = 10) by (subst k; lia).
  clearbody k.
  assert (Hr : 0 < 2 ^ k /\ a mod 2 ^ k = 0).
  { change msPerDay with 86400000 in Ha. clearbody a.
    repeat (destruct Hk as [-> | Hk];
            [split; [reflexivity|];
             match goal with |- _ mod ?p = 0 => let v := eval cbv in p in change p with v end;
             Z.to_euclidean_division_equations; lia|]).
    subst k. split; [reflexivity|].
    change (2 ^ 10) with 1024. Z.to_euclidean_division_equations. lia. }
  destruct Hr as [Hu Hr]. rewrite Hr.
  destruct (Z.ltb_spec (2 ^ k) (2 * 0)); [lia|].
  destruct (Z.eqb_spec (2 * 0) (2 ^ k)); [lia|]. cbn [orb andb].
  pose proof (Z.div_mod a (2 ^ k) ltac:(lia)) as Hdm. rewrite Hr in Hdm.
  replace (a / 2 ^ k * 2 ^ k) with a by lia.
  subst a. destruct (Z.abs_spec z) as [[Hs ->] | [Hs ->]].
  - destruct (Z.sgn_spec z) as [[? ->] | [[? ->] | [? ->]]]; lia.
  - destruct (Z.sgn_spec z) as [[? ->] | [[? ->] | [? ->]]]; lia.
Qed.

End JSDateFacts.

(* ===================================================================== *)
(** * Facts about one pass of the cascade                                 *)
(* ===================================================================== *)

Section PassFacts.
Context {host : Host}.
Import JSDate JSDateFacts.

(** ** Calendar dates *)

(** A task whose two dates are of a date-only form, as the [YYYY-MM-DD]
    the interface documents, has calendar dates, whatever the host. *)
Lemma dateOnly_calendarDates (t : Task) (s e : Z) :
  parseDateOnly (startDate t) = Some s -> parseDateOnly (endDate t) = Some e ->
  calendarDates t.
Proof.
  intros Hs He. unfold calendarDates, startMs, endMs.
  rewrite (parse_date_only _ _ Hs), (parse_date_only _ _ He).
  split; intros x [= <-].
  - apply (parseDateOnly_whole_day _ _ Hs).
  - apply (parseDateOnly_whole_day _ _ He).
Qed.

(** ** The map of a pass *)

Lemma taskMapOf_from (ts : list Task) (m : gmap string Task) (k : string) (D : Task) :
  foldl (fun m t => <[id t := t]> m) m ts !! k = Some D ->
  (D ∈ ts /\ id D = k) \/ m !! k = Some D.
Proof.
  revert m. induction ts as [|t ts IH]; intros m H; cbn [foldl] in H.
  - right. exact H.
  - destruct (IH _ H) as [[Hin Hid] | Hm].
    + left. split; [right; exact Hin | exact Hid].
    + destruct (decide (id t = k)) as [Heq | Hne].
      * rewrite <- Heq, lookup_insert_eq in Hm. injection Hm as <-.
        left. split; [left | exact Heq].
      * rewrite lookup_insert_ne in Hm by exact Hne. right. exact Hm.
Qed.

(** A dependency id resolves to a task of the list carrying that id. *)
Lemma taskMapOf_elem (ts : list Task) (k : string) (D : Task) :
  taskMapOf ts !! k = Some D -> D ∈ ts /\ id D = k.
Proof.
  intros H. destruct (taskMapOf_from ts ∅ k D H) as [Hin | Hm]; [exact Hin|].
  rewrite lookup_empty in Hm. discriminate.
Qed.

Lemma taskMapOf_from_ids (ts ts' : list Task) (m m' : gmap string Task) :
  map id ts = map id ts' ->
  (forall k, is_Some (m !! k) <-> is_Some (m' !! k)) ->
  forall k, is_Some (foldl (fun m t => <[id t := t]> m) m ts !! k) <->
            is_Some (foldl (fun m t => <[id t := t]> m) m' ts' !! k).
Proof.
  revert ts' m m'. induction ts as [|t ts IH]; intros [|t' ts'] m m' Hids Hm k;
    try discriminate; cbn [foldl].
  - apply Hm.
  - injection Hids as Hid Hids. apply IH; [exact Hids|].
    intros k'. rewrite Hid. destruct (decide (id t' = k')) as [->|Hne].
    + rewrite !lookup_insert_eq. split; eauto.
    + rewrite !lookup_insert_ne by exact Hne. apply Hm.
Qed.

(** Which ids resolve depends on the ids of the list only. *)
Lemma taskMapOf_ids (ts ts' : list Task) (k : string) :
  map id ts = map id ts' ->
  taskMapOf ts !! k = None -> taskMapOf ts' !! k = None.
Proof.
  intros Hids Hk. pose proof (taskMapOf_from_ids ts ts' ∅ ∅ Hids (fun _ => reflexivity _) k) as H.
  apply eq_None_not_Some. intros Hs. apply H in Hs.
  unfold taskMapOf in Hk. rewrite Hk in Hs. destruct Hs; discriminate.
Qed.

(** ** [maxDependencyEnd] *)

Lemma visitDependency_cases (m : gmap string Task) (acc : Z) (d : string) :
  (visitDependency m acc d = acc /\
   forall D e, m !! d = Some D -> parse (endDate D) = Some e -> e <= acc) \/
  (exists D, m !! d = Some D /\ parse (endDate D) = Some (visitDependency m acc d) /\
             acc < visitDependency m acc d).
Proof.
  unfold visitDependency, getTimeOf.
  destruct (m !! d) as [D|]; [|left; split; [reflexivity | discriminate]].
  destruct (parse (endDate D)) as [e|] eqn:Hp.
  - destruct (Z.ltb_spec acc e).
    + right. exists D. auto.
    + left. split; [reflexivity|]. intros D' e' [= <-]. rewrite Hp. intros [= <-]. lia.
  - left. split; [reflexivity|]. intros D' e' [= <-]. rewrite Hp. discriminate.
Qed.

Lemma visitDependency_ge (m : gmap string Task) (acc : Z) (d : string) :
  acc <= visitDependency m acc d.
Proof. destruct (visitDependency_cases m acc d) as [[-> _] | (D & _ & _ & H)]; lia. Qed.

Lemma foldl_visit_ge (m : gmap string Task) (deps : list string) (acc : Z) :
  acc <= foldl (visitDependency m) acc deps.
Proof.
  revert acc. induction deps as [|d deps IH]; intros acc; cbn [foldl]; [lia|].
  pose proof (visitDependency_ge m acc d). pose proof (IH (visitDependency m acc d)). lia.
Qed.

(** The result is the start value or the end date of a resolved
    dependency. *)
Lemma foldl_visit_attained (m : gmap string Task) (deps : list string) (acc : Z) :
  foldl (visitDependency m) acc deps = acc \/
  exists d D, d ∈ deps /\ m !! d = Some D /\
    parse (endDate D) = Some (foldl (visitDependency m) acc deps).
Proof.
  revert acc. induction deps as [|d deps IH]; intros acc; cbn [foldl]; [left; reflexivity|].
  destruct (IH (visitDependency m acc d)) as [Heq | (d' & D & Hin & Hm & Hp)].
  - rewrite Heq.
    destruct (visitDependency_cases m acc d) as [[-> _] | (D & Hm & Hp & _)].
    + left. reflexivity.
    + right. exists d, D. split; [left|]. auto.
  - right. exists d', D. split; [right; exact Hin|]. auto.
Qed.

(** The result bounds the end date of every resolved dependency. *)
Lemma foldl_visit_upper (m : gmap string Task) (deps : list string) (acc : Z)
    (d : string) (D : Task) (e : Z) :
  d ∈ deps -> m !! d = Some D -> parse (endDate D) = Some e ->
  e <= foldl (visitDependency m) acc deps.
Proof.
  revert acc. induction deps as [|d' deps IH]; intros acc Hin Hm Hp.
  - inversion Hin.
  - cbn [foldl]. apply elem_of_cons in Hin as [-> | Hin].
    + pose proof (foldl_visit_ge m deps (visitDependency m acc d')).
      destruct (visitDependency_cases m acc d') as [[Heq Hle] | (D' & Hm' & Hp' & _)].
      * specialize (Hle D e Hm Hp). lia.
      * rewrite Hm in Hm'. injection Hm' as <-. rewrite Hp in Hp'.
        injection Hp' as Hp'. lia.
    + apply IH; assumption.
Qed.

Lemma maxDependencyEndOf_nonneg (m : gmap string Task) (deps : list string) :
  0 <= maxDependencyEndOf m deps.
Proof. apply foldl_visit_ge. Qed.

Lemma maxDependencyEndOf_range (m : gmap string Task) (deps : list string) :
  0 <= maxDependencyEndOf m deps <= maxTime.
Proof.
  split; [apply maxDependencyEndOf_nonneg|]. unfold maxDependencyEndOf.
  destruct (foldl_visit_attained m deps 0) as [-> | (d & D & _ & _ & Hp)].
  - unfold maxTime. lia.
  - apply parse_range in Hp. lia.
Qed.

(** When the tasks of the map have calendar dates, [maxDependencyEnd]
    is a whole number of days. *)
Lemma maxDependencyEndOf_whole (m : gmap string Task) (deps : list string) :
  (forall d D, m !! d = Some D -> calendarDates D) ->
  wholeDay (maxDependencyEndOf m deps).
Proof.
  intros Hm. unfold maxDependencyEndOf.
  destruct (foldl_visit_attained m deps 0) as [-> | (d & D & _ & HD & Hp)].
  - reflexivity.
  - apply (Hm d D HD), Hp.
Qed.

(** On whole days the new end is computed exactly. *)
Lemma newEndOf_whole (minStart s e : Z) :
  wholeDay minStart -> wholeDay s -> wholeDay e ->
  0 <= minStart <= maxTime + msPerDay ->
  - maxTime <= s <= maxTime -> - maxTime <= e <= maxTime ->
  newEndOf minStart s e = e + (minStart - s).
Proof.
  unfold wholeDay, newEndOf. intros Hm Hs He Hmr Hsr Her.
  assert (Hshift : (minStart - s) mod msPerDay = 0).
  { rewrite Zminus_mod, Hm, Hs. reflexivity. }
  unfold maxTime in *. change msPerDay with 86400000 in Hmr.
  rewrite (fl_whole_day (minStart - s)), fl_whole_day; trivial.
  - rewrite Zplus_mod, He, Hshift. reflexivity.
  - change (2 ^ 63) with 9223372036854775808. lia.
  - change (2 ^ 63) with 9223372036854775808. lia.
Qed.

(** ** The body of the [for] loop *)

(** What [scheduleTask] does, by outcome.  [mx] is [maxDependencyEnd]. *)
Lemma scheduleTask_spec (m : gmap string Task) (t : Task) :
  let mx := maxDependencyEndOf m (dependencies t) in
  match scheduleTask m t with
  | Returns (t', false) =>
      t' = t /\
      (0 < mx -> forall s, startMs t = Some s -> mx + msPerDay <= s)
  | Returns (t', true) =>
      0 < mx /\
      exists s e, startMs t = Some s /\ endMs t = Some e /\
        s < mx + msPerDay /\ mx + msPerDay <= maxTime /\
        - maxTime <= newEndOf (mx + msPerDay) s e <= maxTime /\
        t' = withDates t (isoDate (mx + msPerDay))
               (isoDate (newEndOf (mx + msPerDay) s e))
  | Throws _ => unshiftable m t
  end.
Proof.
  intros mx. unfold unshiftable, scheduleTask.
  destruct (dependencies t) as [|d0 deps0] eqn:Hdeps.
  { split; [reflexivity|]. subst mx. cbn. lia. }
  fold mx. change (24 * 60 * 60 * 1000) with msPerDay.
  unfold getTimeOf. fold (startMs t). fold (endMs t).
  pose proof (maxDependencyEndOf_range m (d0 :: deps0)) as [_ Hmx]. fold mx in Hmx.
  destruct (Z.ltb_spec 0 mx) as [Hpos|Hnpos]; [|cbv beta iota; split; [reflexivity | lia]].
  destruct (startMs t) as [s|] eqn:Hs; [|cbv beta iota; split; [reflexivity | discriminate]].
  destruct (Z.ltb_spec s (mx + msPerDay)) as [Hlt|Hge];
    [|cbv beta iota; split; [reflexivity | intros _ s' [= <-]; lia]].
  assert (Hlow : - maxTime <= mx + msPerDay) by (unfold maxTime, msPerDay; lia).
  cbv zeta. fold (newEndOf (mx + msPerDay) s).
  destruct (Z_le_gt_dec (mx + msPerDay) maxTime) as [Hin|Hout].
  - destruct (endMs t) as [e|] eqn:He; exc_simpl;
      rewrite (TimeClip_range (mx + msPerDay)) by lia; exc_simpl.
    + fold (newEndOf (mx + msPerDay) s e).
      destruct (TimeClip (newEndOf (mx + msPerDay) s e)) as [u|] eqn:Hclip; exc_simpl.
      * apply TimeClip_Some in Hclip as [-> Hr].
        split; [exact Hpos|]. exists s, e. repeat split; auto; lia.
      * split; [exact Hpos|]. exists s. repeat split; auto.
        right. right. exists e. split; [reflexivity|]. intros Hr.
        rewrite TimeClip_range in Hclip by exact Hr. discriminate.
    + split; [exact Hpos|]. exists s. repeat split; auto.
  - exc_simpl. unfold TimeClip.
    destruct (Z.leb_spec (mx + msPerDay) maxTime); [lia|].
    rewrite andb_false_r. exc_simpl.
    split; [exact Hpos|]. exists s. repeat split; auto.
Qed.

Lemma scheduleTask_keep (m : gmap string Task) (t t' : Task) :
  scheduleTask m t = Returns (t', false) -> t' = t.
Proof.
  intros H. pose proof (scheduleTask_spec m t) as Hs. rewrite H in Hs.
  cbv beta iota zeta in Hs. tauto.
Qed.

(** The body writes the two dates only. *)
Lemma scheduleTask_sameOtherFields (m : gmap string Task) (t t' : Task) (c : bool) :
  scheduleTask m t = Returns (t', c) -> sameOtherFields t t'.
Proof.
  intros H. pose proof (scheduleTask_spec m t) as Hs. rewrite H in Hs.
  cbv beta iota zeta in Hs. destruct c.
  - destruct Hs as (_ & s & e & _ & _ & _ & _ & _ & ->).
    unfold sameOtherFields. cbn. tauto.
  - destruct Hs as [-> _]. unfold sameOtherFields. tauto.
Qed.

(** On calendar dates, a replaced task is the old one with both dates
    moved later by the same whole number of days, to start the day after
    [maxDependencyEnd]. *)
Lemma scheduleTask_shift (m : gmap string Task) (t t' : Task) :
  (forall d D, m !! d = Some D -> calendarDates D) -> calendarDates t ->
  scheduleTask m t = Returns (t', true) ->
  exists shift, 0 < shift /\ wholeDay shift /\ shiftedBy shift t t' /\
    0 < maxDependencyEndOf m (dependencies t) /\
    startMs t' = Some (maxDependencyEndOf m (dependencies t) + msPerDay).
Proof.
  intros Hm [Hcs Hce] H. pose proof (scheduleTask_spec m t) as Hs. rewrite H in Hs.
  cbv beta iota zeta in Hs.
  destruct Hs as (Hpos & s & e & Hs & He & Hlt & Hin & Hend & ->).
  pose proof (maxDependencyEndOf_whole m (dependencies t) Hm) as Hw.
  set (mx := maxDependencyEndOf m (dependencies t)) in *.
  pose proof (Hcs s Hs) as Hsw. pose proof (parse_range _ _ Hs) as Hsr.
  pose proof (Hce e He) as Hew. pose proof (parse_range _ _ He) as Her.
  assert (Hmw : wholeDay (mx + msPerDay)).
  { unfold wholeDay in *. rewrite Zplus_mod, Hw, Z_mod_same_full. reflexivity. }
  assert (Hday : 0 < msPerDay) by reflexivity.
  rewrite (newEndOf_whole (mx + msPerDay) s e) in * by (trivial; lia).
  assert (Hshift : wholeDay (mx + msPerDay - s)).
  { unfold wholeDay in *. rewrite Zminus_mod, Hmw, Hsw. reflexivity. }
  assert (Hst : parse (isoDate (mx + msPerDay)) = Some (mx + msPerDay)).
  { apply parse_isoDate_whole; [lia | exact Hmw]. }
  assert (Hen : parse (isoDate (e + (mx + msPerDay - s))) = Some (e + (mx + msPerDay - s))).
  { apply parse_isoDate_whole; [lia|].
    unfold wholeDay in *. rewrite Zplus_mod, Hew, Hshift. reflexivity. }
  exists (mx + msPerDay - s). split; [lia|]. split; [exact Hshift|].
  split; [|split; [exact Hpos | exact Hst]].
  exists s, e. unfold startMs, endMs in *. cbn [startDate endDate withDates].
  replace (s + (mx + msPerDay - s)) with (mx + msPerDay) by lia.
  auto.
Qed.

(** ** The [for] loop *)

Lemma forEachTask_Returns (m : gmap string Task) (ts ts' : list Task) (ch : bool) :
  forEachTask m ts = Returns (ts', ch) ->
  Forall2 (fun t t' => exists c, scheduleTask m t = Returns (t', c)) ts ts' /\
  (ch = false -> ts' = ts).
Proof.
  revert ts' ch. induction ts as [|t ts IH]; intros ts' ch; cbn [forEachTask].
  - intros [= <- <-]. split; [constructor | reflexivity].
  - destruct (scheduleTask m t) as [[t1 c1]|] eqn:H1; exc_simpl; [|discriminate].
    destruct (forEachTask m ts) as [[ts1 c2]|] eqn:H2; exc_simpl; [|discriminate].
    intros [= <- <-]. destruct (IH _ _ eq_refl) as [IH1 IH2]. split.
    + constructor; [exists c1; exact H1 | exact IH1].
    + intros Hor. apply orb_false_elim in Hor as [-> ->].
      rewrite (scheduleTask_keep _ _ _ H1), (IH2 eq_refl). reflexivity.
Qed.

Lemma forEachTask_stable (m : gmap string Task) (ts : list Task) :
  Forall (fun t => scheduleTask m t = Returns (t, false)) ts ->
  forEachTask m ts = Returns (ts, false).
Proof.
  induction 1 as [|t ts Ht _ IH]; cbn [forEachTask]; [reflexivity|].
  rewrite Ht. exc_simpl. rewrite IH. reflexivity.
Qed.

Lemma forEachTask_unchanged (m : gmap string Task) (ts ts' : list Task) :
  forEachTask m ts = Returns (ts', false) ->
  ts' = ts /\ Forall (fun t => scheduleTask m t = Returns (t, false)) ts.
Proof.
  revert ts'. induction ts as [|t ts IH]; intros ts'; cbn [forEachTask].
  - intros [= <-]. split; [reflexivity | constructor].
  - destruct (scheduleTask m t) as [[t1 c1]|] eqn:H1; exc_simpl; [|discriminate].
    destruct (forEachTask m ts) as [[ts1 c2]|] eqn:H2; exc_simpl; [|discriminate].
    intros [= <- Hor]. apply orb_false_elim in Hor as [-> ->].
    destruct (IH _ eq_refl) as [-> IH2].
    pose proof (scheduleTask_keep _ _ _ H1) as ->. split; [reflexivity|].
    constructor; assumption.
Qed.

Lemma forEachTask_Throws (m : gmap string Task) (ts : list Task) (e : Error) :
  forEachTask m ts = Throws e -> exists t, t ∈ ts /\ scheduleTask m t = Throws e.
Proof.
  induction ts as [|t ts IH]; cbn [forEachTask]; [discriminate|].
  destruct (scheduleTask m t) as [[t1 c1]|e1] eqn:H1; exc_simpl.
  - destruct (forEachTask m ts) as [[ts1 c2]|e2] eqn:H2; exc_simpl; [discriminate|].
    intros Heq. destruct e, e2. destruct (IH eq_refl) as (t' & Hin & Ht').
    exists t'. split; [right; exact Hin | exact Ht'].
  - intros Heq. destruct e, e1. exists t. split; [left | exact H1].
Qed.

End PassFacts.

(* ===================================================================== *)
(** * Facts about the loop                                                *)
(* ===================================================================== *)

Section LoopFacts.
Context {host : Host}.
Import JSDate JSDateFacts.

Lemma withDates_withDates (t : Task) (s e s' e' : string) :
  withDates (withDates t s e) s' e' = withDates t s' e'.
Proof. reflexivity. Qed.

Lemma wholeDay_add (a b : Z) : wholeDay a -> wholeDay b -> wholeDay (a + b).
Proof. unfold wholeDay. intros Ha Hb. rewrite Zplus_mod, Ha, Hb. reflexivity. Qed.

Lemma movedLater_refl (t : Task) : movedLater t t.
Proof. left. reflexivity. Qed.

Lemma movedLater_trans (t1 t2 t3 : Task) :
  movedLater t1 t2 -> movedLater t2 t3 -> movedLater t1 t3.
Proof.
  intros [-> | (a & Ha & Hwa & s & e & Hs & He & Hs2 & He2 & H2)]; [auto|].
  intros [-> | (b & Hb & Hwb & s' & e' & Hs' & He' & Hs3 & He3 & H3)].
  - right. exists a. split; [exact Ha|]. split; [exact Hwa|]. exists s, e. auto.
  - right. exists (a + b). split; [lia|]. split; [apply wholeDay_add; assumption|].
    rewrite Hs2 in Hs'. injection Hs' as <-. rewrite He2 in He'. injection He' as <-.
    exists s, e. rewrite !Z.add_assoc. repeat split; try assumption.
    rewrite H3, H2. apply withDates_withDates.
Qed.

Lemma Forall2_movedLater_refl (ts : list Task) : Forall2 movedLater ts ts.
Proof. induction ts; constructor; [apply movedLater_refl | assumption]. Qed.

Lemma Forall2_movedLater_trans (l1 l2 l3 : list Task) :
  Forall2 movedLater l1 l2 -> Forall2 movedLater l2 l3 -> Forall2 movedLater l1 l3.
Proof.
  intros H. revert l3.
  induction H as [|a b l1 l2 Hab _ IH]; intros l3 H3; inversion H3; subst; constructor.
  - eapply movedLater_trans; eassumption.
  - apply IH. assumption.
Qed.

Lemma wholeDay_sub (a b : Z) : wholeDay a -> wholeDay b -> wholeDay (a - b).
Proof. unfold wholeDay. intros Ha Hb. rewrite Zminus_mod, Ha, Hb. reflexivity. Qed.

(** A task with calendar dates that is moved later has calendar dates. *)
Lemma movedLater_calendar (t t' : Task) :
  calendarDates t -> movedLater t t' -> calendarDates t'.
Proof.
  intros Hc [-> | (shift & _ & Hw & s & e & Hs & He & Hs' & He' & _)]; [exact Hc|].
  destruct Hc as [Hcs Hce]. split.
  - intros s' Hs2. rewrite Hs' in Hs2. injection Hs2 as <-.
    apply wholeDay_add; [apply Hcs, Hs | exact Hw].
  - intros e' He2. rewrite He' in He2. injection He2 as <-.
    apply wholeDay_add; [apply Hce, He | exact Hw].
Qed.

Lemma Forall2_movedLater_calendar (ts ts' : list Task) :
  Forall calendarDates ts -> Forall2 movedLater ts ts' -> Forall calendarDates ts'.
Proof.
  intros Hc Hm. induction Hm as [|t t' ts ts' Ht _ IH]; [constructor|].
  inversion Hc; subst. constructor; [eapply movedLater_calendar; eassumption | auto].
Qed.

(** The tasks the map of a pass holds are tasks of the list. *)
Lemma taskMapOf_calendar (ts : list Task) :
  Forall calendarDates ts ->
  forall d D, taskMapOf ts !! d = Some D -> calendarDates D.
Proof.
  intros Hc d D HD. apply taskMapOf_elem in HD as [Hin _].
  rewrite Forall_forall in Hc. apply Hc, Hin.
Qed.

Lemma scheduleTask_movedLater (m : gmap string Task) (t t' : Task) (c : bool) :
  (forall d D, m !! d = Some D -> calendarDates D) -> calendarDates t ->
  scheduleTask m t = Returns (t', c) -> movedLater t t'.
Proof.
  intros Hm Ht. destruct c; intros H.
  - apply scheduleTask_shift in H as (shift & Hpos & Hw & Hsh & _); try assumption.
    right. exists shift. auto.
  - left. eapply scheduleTask_keep, H.
Qed.

Lemma forEachTask_movedLater (m : gmap string Task) (ts ts' : list Task) (ch : bool) :
  (forall d D, m !! d = Some D -> calendarDates D) -> Forall calendarDates ts ->
  forEachTask m ts = Returns (ts', ch) -> Forall2 movedLater ts ts'.
Proof.
  intros Hm Hc H. apply forEachTask_Returns in H as [H _].
  induction H as [|t t' ts ts' [c Ht] _ IH]; [constructor|].
  inversion Hc; subst. constructor; [|auto].
  eapply scheduleTask_movedLater; eassumption.
Qed.

(** ** Every pass writes the two dates only *)

Lemma sameOtherFields_refl (t : Task) : sameOtherFields t t.
Proof. unfold sameOtherFields. tauto. Qed.

Lemma sameOtherFields_trans (t1 t2 t3 : Task) :
  sameOtherFields t1 t2 -> sameOtherFields t2 t3 -> sameOtherFields t1 t3.
Proof.
  unfold sameOtherFields.
  intros (A1 & A2 & A3 & A4 & A5 & A6 & A7 & A8 & A9 & A10 & A11)
         (B1 & B2 & B3 & B4 & B5 & B6 & B7 & B8 & B9 & B10 & B11).
  repeat split; congruence.
Qed.

Lemma Forall2_sameOtherFields_refl (ts : list Task) : Forall2 sameOtherFields ts ts.
Proof. induction ts; constructor; [apply sameOtherFields_refl | assumption]. Qed.

Lemma Forall2_sameOtherFields_trans (l1 l2 l3 : list Task) :
  Forall2 sameOtherFields l1 l2 -> Forall2 sameOtherFields l2 l3 ->
  Forall2 sameOtherFields l1 l3.
Proof.
  intros H. revert l3.
  induction H as [|a b l1 l2 Hab _ IH]; intros l3 H3; inversion H3; subst; constructor.
  - eapply sameOtherFields_trans; eassumption.
  - apply IH. assumption.
Qed.

Lemma forEachTask_sameOtherFields (m : gmap string Task) (ts ts' : list Task) (ch : bool) :
  forEachTask m ts = Returns (ts', ch) -> Forall2 sameOtherFields ts ts'.
Proof.
  intros H. apply forEachTask_Returns in H as [H _].
  eapply Forall2_impl; [exact H|]. intros t t' [c Hc].
  eapply scheduleTask_sameOtherFields, Hc.
Qed.

(** The ids of the tasks stay in their slots. *)
Lemma sameOtherFields_ids (ts ts' : list Task) :
  Forall2 sameOtherFields ts ts' -> map id ts' = map id ts.
Proof.
  induction 1 as [|t t' ts ts' Ht _ IH]; cbn [map]; [reflexivity|].
  destruct Ht as [-> _]. rewrite IH. reflexivity.
Qed.

Lemma loopBody_Returns (st st' : LoopState) :
  loopBody st = Returns st' ->
  forEachTask (taskMapOf (currentTasks st)) (currentTasks st)
    = Returns (currentTasks st', hasChanged st') /\
  iterations st' = iterations st + 1.
Proof.
  unfold loopBody.
  destruct (forEachTask _ _) as [[ts' ch]|]; exc_simpl; [|discriminate].
  intros [= <-]. split; reflexivity.
Qed.

(** An invariant of the body holds of the final state. *)
Lemma whileLoop_invariant (I : LoopState -> Prop) (fuel : nat) :
  (forall s s', I s -> loopCondition s = true -> loopBody s = Returns s' -> I s') ->
  forall st st', I st -> whileLoop fuel st = Returns st' -> I st'.
Proof.
  intros Hstep. induction fuel as [|fuel IH]; intros st st' HI; cbn [whileLoop].
  - intros [= <-]. exact HI.
  - destruct (loopCondition st) eqn:Hc; [|intros [= <-]; exact HI].
    destruct (loopBody st) as [s1|] eqn:Hb; exc_simpl; [|discriminate].
    apply IH. eapply Hstep; eassumption.
Qed.

(** With enough unfoldings the loop ends because its condition fails. *)
Lemma whileLoop_stops (fuel : nat) (st st' : LoopState) :
  50 <= iterations st + Z.of_nat fuel ->
  whileLoop fuel st = Returns st' -> loopCondition st' = false.
Proof.
  revert st. induction fuel as [|fuel IH]; intros st Hf; cbn [whileLoop].
  - intros [= <-]. unfold loopCondition.
    destruct (Z.ltb_spec (iterations st) 50); [lia|]. apply andb_false_r.
  - destruct (loopCondition st) eqn:Hc; [|intros [= <-]; exact Hc].
    destruct (loopBody st) as [s1|] eqn:Hb; exc_simpl; [|discriminate].
    apply IH. apply loopBody_Returns in Hb as [_ ->]. lia.
Qed.

Lemma whileLoop_50_stops (tasks : list Task) (st : LoopState) :
  cascadeRun tasks = Returns st -> loopCondition st = false.
Proof. apply whileLoop_stops. cbn. lia. Qed.

Lemma whileLoop_movedLater (fuel : nat) (st st' : LoopState) :
  Forall calendarDates (currentTasks st) ->
  whileLoop fuel st = Returns st' ->
  Forall2 movedLater (currentTasks st) (currentTasks st').
Proof.
  intros Hcal.
  apply (whileLoop_invariant (fun s => Forall2 movedLater (currentTasks st) (currentTasks s))).
  - intros s s' HI _ Hb. apply loopBody_Returns in Hb as [Hb _].
    pose proof (Forall2_movedLater_calendar _ _ Hcal HI) as Hcs.
    apply forEachTask_movedLater in Hb; [|apply taskMapOf_calendar, Hcs | exact Hcs].
    eapply Forall2_movedLater_trans; eassumption.
  - apply Forall2_movedLater_refl.
Qed.

Lemma whileLoop_sameOtherFields (fuel : nat) (st st' : LoopState) :
  whileLoop fuel st = Returns st' ->
  Forall2 sameOtherFields (currentTasks st) (currentTasks st').
Proof.
  apply (whileLoop_invariant
           (fun s => Forall2 sameOtherFields (currentTasks st) (currentTasks s))).
  - intros s s' HI _ Hb. apply loopBody_Returns in Hb as [Hb _].
    apply forEachTask_sameOtherFields in Hb.
    eapply Forall2_sameOtherFields_trans; eassumption.
  - apply Forall2_sameOtherFields_refl.
Qed.

Lemma cascadeSchedule_Returns (tasks out : list Task) :
  cascadeSchedule tasks = Returns out <->
  exists st, cascadeRun tasks = Returns st /\ currentTasks st = out.
Proof.
  unfold cascadeSchedule. destruct (cascadeRun tasks) as [st|e]; exc_simpl.
  - split; [intros [= <-]; eauto | intros (st' & [= <-] & <-); reflexivity].
  - split; [discriminate | intros (st' & H & _); discriminate].
Qed.

(** Every slot of the result holds the task the slot held on entry with,
    at most, other dates. *)
Lemma cascadeSchedule_sameOtherFields (tasks out : list Task) :
  cascadeSchedule tasks = Returns out -> Forall2 sameOtherFields tasks out.
Proof.
  intros H. apply cascadeSchedule_Returns in H as (st & Hrun & <-).
  apply (whileLoop_sameOtherFields _ _ _ Hrun).
Qed.

(** On calendar dates, every slot of the result holds the task the slot
    held on entry, or that task moved later. *)
Lemma cascadeSchedule_movedLater (tasks out : list Task) :
  Forall calendarDates tasks ->
  cascadeSchedule tasks = Returns out -> Forall2 movedLater tasks out.
Proof.
  intros Hcal H. apply cascadeSchedule_Returns in H as (st & Hrun & <-).
  apply (whileLoop_movedLater 50 (initialState tasks) st Hcal Hrun).
Qed.

End LoopFacts.

(* ===================================================================== *)
(** * Duration and field preservation (C5, C6)                            *)
(* ===================================================================== *)

Section Preservation.
Context {host : Host}.
Import JSDate JSDateFacts.

Lemma movedLater_sameOtherFields (t t' : Task) :
  movedLater t t' -> sameOtherFields t t'.
Proof.
  intros [-> | (shift & _ & _ & s & e & _ & _ & _ & _ & ->)];
    unfold sameOtherFields; cbn; tauto.
Qed.

Lemma movedLater_spanMs (t t' : Task) : movedLater t t' -> spanMs t' = spanMs t.
Proof.
  intros [-> | (shift & _ & _ & s & e & Hs & He & Hs' & He' & _)]; [reflexivity|].
  unfold spanMs. rewrite Hs, He, Hs', He'. cbn. f_equal. lia.
Qed.

Lemma movedLater_datesOrdered (t t' : Task) :
  movedLater t t' -> datesOrdered t <-> datesOrdered t'.
Proof.
  intros [-> | (shift & _ & _ & s & e & Hs & He & Hs' & He' & _)]; [reflexivity|].
  unfold datesOrdered. rewrite Hs, He, Hs', He'.
  split; intros (s0 & e0 & [= <-] & [= <-] & Hle); eexists _, _; repeat split; lia.
Qed.

(** C5, as amended.  On a task list whose dates are calendar dates
    (each is read as midnight UTC of a day, as [YYYY-MM-DD] is, or is no
    date), [cascadeSchedule] preserves each task's duration: the returned
    list has the length of the input, and the task it returns in a slot
    has the id of the input task of that slot and the same
    [endDate - startDate]; it is that very task, or that task with one
    and the same positive whole number of days added to its [startDate]
    and to its [endDate]. *)
Theorem cascadeSchedule_preserves_duration (tasks out : list Task) :
  Forall calendarDates tasks ->
  cascadeSchedule tasks = Returns out ->
  length out = length tasks /\
  forall i t, tasks !! i = Some t ->
    exists t', out !! i = Some t' /\ id t' = id t /\ spanMs t' = spanMs t /\
      (t' = t \/
       exists shift, 0 < shift /\ wholeDay shift /\ shiftedBy shift t t').
Proof.
  intros Hcal H. apply cascadeSchedule_movedLater in H; [|exact Hcal].
  split; [symmetry; eapply Forall2_length, H|].
  intros i t Hi.
  destruct (Forall2_lookup_l _ _ _ _ _ H Hi) as (t' & Hi' & Hm).
  exists t'. split; [exact Hi'|].
  split; [apply movedLater_sameOtherFields, Hm|].
  split; [apply movedLater_spanMs, Hm | exact Hm].
Qed.

(** C6, as amended.  On a task list whose dates are calendar dates,
    [cascadeSchedule] leaves the order of each task's own two dates as
    it finds it: the task returned in a slot has [startDate <= endDate]
    exactly when the input task of the slot has. *)
Theorem cascadeSchedule_keeps_date_order (tasks out : list Task) :
  Forall calendarDates tasks ->
  cascadeSchedule tasks = Returns out ->
  length out = length tasks /\
  forall i t t', tasks !! i = Some t -> out !! i = Some t' ->
    (datesOrdered t <-> datesOrdered t').
Proof.
  intros Hcal H. apply cascadeSchedule_movedLater in H; [|exact Hcal].
  split; [symmetry; eapply Forall2_length, H|].
  intros i t t' Hi Hi'. apply movedLater_datesOrdered.
  eapply Forall2_lookup_lr; eassumption.
Qed.

End Preservation.

(* ===================================================================== *)
(** * Convergence: the invariant and idempotence (C1, C2)                 *)
(* ===================================================================== *)

Section Convergence.
Context {host : Host}.
Import JSDate JSDateFacts.

(** When the loop ends with [hasChanged] false, its last pass replaced
    nothing. *)
Lemma cascadeRun_settled (tasks : list Task) (st : LoopState) :
  cascadeRun tasks = Returns st -> hasChanged st = false ->
  settled (currentTasks st).
Proof.
  intros Hrun.
  apply (whileLoop_invariant
           (fun s => hasChanged s = false -> settled (currentTasks s)))
    with (3 := Hrun).
  - intros s s' _ _ Hb Hch. apply loopBody_Returns in Hb as [Hb _].
    rewrite Hch in Hb. pose proof (forEachTask_unchanged _ _ _ Hb) as [Heq Hall].
    unfold settled. rewrite Heq. apply forEachTask_stable. exact Hall.
  - discriminate.
Qed.

Lemma settled_elem (ts : list Task) (t : Task) :
  settled ts -> t ∈ ts -> scheduleTask (taskMapOf ts) t = Returns (t, false).
Proof.
  intros Hs Hin. apply forEachTask_unchanged in Hs as [_ Hall].
  rewrite Forall_forall in Hall. apply Hall, Hin.
Qed.

Lemma settled_cascadeSchedule (ts : list Task) :
  settled ts -> cascadeSchedule ts = Returns ts.
Proof.
  intros Hs. unfold cascadeSchedule, cascadeRun, initialState.
  change (whileLoop 50) with (whileLoop (S 49)). cbn [whileLoop].
  unfold loopCondition, loopBody. cbn [hasChanged iterations currentTasks andb].
  change (0 <? 50) with true. cbv beta iota.
  unfold settled in Hs. rewrite Hs. exc_simpl. reflexivity.
Qed.

(** C1, as amended.  When the loop ends with [hasChanged] false, that
    is, when a pass among the 50 changed no task, the finish-to-start
    invariant holds in the returned list for every task whose start date
    parses and that has a resolved dependency ending after 1970-01-01:
    it starts strictly after the end of each of its resolved
    dependencies. *)
Theorem cascadeSchedule_converged_invariant (tasks : list Task) (st : LoopState) :
  cascadeRun tasks = Returns st -> hasChanged st = false ->
  cascadeSchedule tasks = Returns (currentTasks st) /\
  forall t s, t ∈ currentTasks st -> startMs t = Some s ->
    constrained (currentTasks st) t ->
    forall d D e, d ∈ dependencies t ->
      taskMapOf (currentTasks st) !! d = Some D -> endMs D = Some e -> e < s.
Proof.
  intros Hrun Hch. split.
  { apply cascadeSchedule_Returns. eauto. }
  pose proof (cascadeRun_settled _ _ Hrun Hch) as Hset.
  intros t s Hin Hs (d0 & D0 & e0 & Hd0 & HD0 & He0 & Hpos) d D e Hd HD He.
  pose proof (settled_elem _ _ Hset Hin) as Hst.
  pose proof (scheduleTask_spec (taskMapOf (currentTasks st)) t) as Hspec.
  rewrite Hst in Hspec. cbv beta iota zeta in Hspec. destruct Hspec as [_ Hspec].
  pose proof (foldl_visit_upper _ _ 0 _ _ _ Hd0 HD0 He0) as Hup0.
  pose proof (foldl_visit_upper _ _ 0 _ _ _ Hd HD He) as Hup.
  fold (maxDependencyEndOf (taskMapOf (currentTasks st)) (dependencies t)) in Hup0, Hup.
  specialize (Hspec ltac:(lia) s Hs). unfold msPerDay in Hspec. lia.
Qed.

(** C2, as amended.  When the loop ends with [hasChanged] false,
    cascading the returned list again returns it unchanged. *)
Theorem cascadeSchedule_idempotent_when_converged (tasks : list Task) (st : LoopState) :
  cascadeRun tasks = Returns st -> hasChanged st = false ->
  cascadeSchedule tasks = Returns (currentTasks st) /\
  cascadeSchedule (currentTasks st) = Returns (currentTasks st).
Proof.
  intros Hrun Hch. split.
  - apply cascadeSchedule_Returns. eauto.
  - apply settled_cascadeSchedule. eapply cascadeRun_settled; eassumption.
Qed.

End Convergence.

(* ===================================================================== *)
(** * Termination (C4)                                                    *)
(* ===================================================================== *)

Section Termination.
Context {host : Host}.

Lemma whileRuns_deterministic (st : LoopState) (n : nat) (out : Exc LoopState) :
  whileRuns st n out ->
  forall n' out', whileRuns st n' out' -> n' = n /\ out' = out.
Proof.
  induction 1 as [st Hc | st e Hc Hb | st st1 n out Hc Hb _ IH];
    intros n' out' H';
    inversion H' as [? Hc' | ? e' Hc' Hb' | ? st2 m o Hc' Hb' Hr']; subst;
    try congruence.
  - split; reflexivity.
  - split; [reflexivity | congruence].
  - assert (st2 = st1) by congruence. subst st2.
    destruct (IH _ _ Hr') as [-> ->]. split; reflexivity.
Qed.

(** From a state with [iterations >= 50 - fuel], the [while] loop ends
    after at most [fuel] runs of its body, with the outcome [whileLoop]
    computes. *)
Lemma whileLoop_runs (fuel : nat) (st : LoopState) :
  50 <= iterations st + Z.of_nat fuel ->
  exists n, (n <= fuel)%nat /\ whileRuns st n (whileLoop fuel st).
Proof.
  revert st. induction fuel as [|fuel IH]; intros st Hf; cbn [whileLoop].
  - exists 0%nat. split; [lia|]. apply while_exit. unfold loopCondition.
    destruct (Z.ltb_spec (iterations st) 50); [lia|]. apply andb_false_r.
  - destruct (loopCondition st) eqn:Hc.
    + destruct (loopBody st) as [st1|e] eqn:Hb; exc_simpl.
      * destruct (IH st1) as (n & Hn & Hr).
        { apply loopBody_Returns in Hb as [_ ->]. lia. }
        exists (S n). split; [lia|]. eapply while_iter; eassumption.
      * exists 1%nat. split; [lia|]. apply while_throw; assumption.
    + exists 0%nat. split; [lia|]. apply while_exit, Hc.
Qed.

Lemma whileRuns_iterations (st : LoopState) (n : nat) (out : Exc LoopState) :
  whileRuns st n out ->
  forall st', out = Returns st' -> iterations st' = iterations st + Z.of_nat n.
Proof.
  induction 1 as [st Hc | st e Hc Hb | st st1 n out Hc Hb _ IH]; intros st' Hout.
  - injection Hout as <-. lia.
  - discriminate.
  - rewrite (IH _ Hout). apply loopBody_Returns in Hb as [_ ->]. lia.
Qed.

(** C4.  On every task list the [while] loop of [cascadeSchedule] ends
    after at most 50 runs of its body, with one outcome only, and that
    outcome is the one [cascadeRun] computes; on the cycle in which A
    depends on B and B on A it ends after exactly 50 passes and returns
    (with [hasChanged] still true). *)
Theorem cascadeSchedule_terminates :
  (forall tasks : list Task,
     exists n, (n <= 50)%nat /\
       whileRuns (initialState tasks) n (cascadeRun tasks) /\
       forall n' out', whileRuns (initialState tasks) n' out' ->
         n' = n /\ out' = cascadeRun tasks) /\
  whileRuns (initialState [cycleA; cycleB]) 50
    (Returns (mkLoop [sample "A" "2024-10-10" "2024-10-14" ["B"];
                      sample "B" "2024-10-10" "2024-10-19" ["A"]] true 50)).
Proof.
  assert (Hall : forall tasks : list Task,
     exists n, (n <= 50)%nat /\
       whileRuns (initialState tasks) n (cascadeRun tasks) /\
       forall n' out', whileRuns (initialState tasks) n' out' ->
         n' = n /\ out' = cascadeRun tasks).
  { intros tasks.
    destruct (whileLoop_runs 50 (initialState tasks)) as (n & Hn & Hr); [cbn; lia|].
    exists n. split; [exact Hn|]. split; [exact Hr|].
    intros n' out'. apply (whileRuns_deterministic _ _ _ Hr). }
  split; [exact Hall|].
  destruct (Hall [cycleA; cycleB]) as (n & _ & Hr & _).
  assert (Hrun : cascadeRun [cycleA; cycleB]
            = Returns (mkLoop [sample "A" "2024-10-10" "2024-10-14" ["B"];
                               sample "B" "2024-10-10" "2024-10-19" ["A"]] true 50))
    by (vm_compute; reflexivity).
  rewrite Hrun in Hr.
  pose proof (whileRuns_iterations _ _ _ Hr _ eq_refl) as Hit.
  cbn in Hit. assert (n = 50%nat) by lia. subst n. exact Hr.
Qed.

End Termination.

(* ===================================================================== *)
(** * Dependencies that impose nothing (C7, C10)                          *)
(* ===================================================================== *)

Section Unconstrained.
Context {host : Host}.
Import JSDate JSDateFacts.

(** No dependency resolves to a task ending after the epoch:
    [maxDependencyEnd] stays 0. *)
Lemma maxDependencyEndOf_zero (m : gmap string Task) (deps : list string) :
  (forall d D e, d ∈ deps -> m !! d = Some D -> endMs D = Some e -> e <= 0) ->
  maxDependencyEndOf m deps = 0.
Proof.
  intros H. unfold maxDependencyEndOf.
  destruct (foldl_visit_attained m deps 0) as [Heq | (d & D & Hin & Hm & Hp)];
    [exact Heq|].
  pose proof (H d D _ Hin Hm Hp). pose proof (foldl_visit_ge m deps 0). lia.
Qed.

Lemma scheduleTask_unconstrained (m : gmap string Task) (t : Task) :
  maxDependencyEndOf m (dependencies t) = 0 -> scheduleTask m t = Returns (t, false).
Proof.
  intros H0. pose proof (scheduleTask_spec m t) as Hs. cbv zeta in Hs.
  rewrite H0 in Hs.
  destruct (scheduleTask m t) as [[t' [|]]|e].
  - destruct Hs as [Hs _]. lia.
  - destruct Hs as [-> _]. reflexivity.
  - destruct Hs as [Hs _]. lia.
Qed.

(** A dependency ending on or before the epoch never raises
    [maxDependencyEnd]. *)
Lemma foldl_visit_delete (m : gmap string Task) (d : string) (D : Task) (e : Z)
    (deps : list string) (acc : Z) :
  m !! d = Some D -> endMs D = Some e -> e <= 0 -> 0 <= acc ->
  foldl (visitDependency (delete d m)) acc deps = foldl (visitDependency m) acc deps.
Proof.
  intros Hm He Hle. revert acc.
  induction deps as [|x deps IH]; intros acc Hacc; cbn [foldl]; [reflexivity|].
  assert (Hx : visitDependency (delete d m) acc x = visitDependency m acc x).
  { unfold visitDependency. destruct (decide (d = x)) as [<-|Hne].
    - rewrite lookup_delete_eq, Hm. unfold getTimeOf. fold (endMs D). rewrite He.
      destruct (Z.ltb_spec acc e); [lia | reflexivity].
    - rewrite lookup_delete_ne by exact Hne. reflexivity. }
  rewrite Hx. apply IH. pose proof (visitDependency_ge m acc x). lia.
Qed.

Lemma scheduleTask_delete (m : gmap string Task) (d : string) (D : Task) (e : Z)
    (t : Task) :
  m !! d = Some D -> endMs D = Some e -> e <= 0 ->
  scheduleTask (delete d m) t = scheduleTask m t.
Proof.
  intros Hm He Hle. unfold scheduleTask, maxDependencyEndOf.
  rewrite (foldl_visit_delete m d D e) by (assumption || lia). reflexivity.
Qed.

(** The ids of the tasks stay in their slots through the loop. *)
Lemma movedLater_ids (ts ts' : list Task) :
  Forall2 movedLater ts ts' -> map id ts' = map id ts.
Proof.
  induction 1 as [|t t' ts ts' Ht _ IH]; cbn [map]; [reflexivity|].
  apply movedLater_sameOtherFields in Ht as [-> _]. rewrite IH. reflexivity.
Qed.

(** A pass that has nothing to enforce returns the list as it is. *)
Lemma cascadeSchedule_nothing_to_enforce (tasks : list Task) :
  (forall t, t ∈ tasks ->
     maxDependencyEndOf (taskMapOf tasks) (dependencies t) = 0) ->
  cascadeSchedule tasks = Returns tasks.
Proof.
  intros H. apply settled_cascadeSchedule, forEachTask_stable.
  apply Forall_forall. intros t Hin. apply scheduleTask_unconstrained, H, Hin.
Qed.

(** A slot whose task has only unresolved dependency ids keeps its task
    through the loop. *)
Lemma whileLoop_unresolved_slot (tasks : list Task) (i : nat) (t : Task)
    (fuel : nat) (st st' : LoopState) :
  (forall d, d ∈ dependencies t -> taskMapOf tasks !! d = None) ->
  map id (currentTasks st) = map id tasks -> currentTasks st !! i = Some t ->
  whileLoop fuel st = Returns st' ->
  currentTasks st' !! i = Some t.
Proof.
  intros Hun Hids Hi Hrun.
  apply (whileLoop_invariant
           (fun s => map id (currentTasks s) = map id tasks /\
                     currentTasks s !! i = Some t))
    with (3 := Hrun); [|split; assumption].
  intros s s' [Hids' Hi'] _ Hb. apply loopBody_Returns in Hb as [Hb _].
  split.
  - rewrite <- Hids'. apply sameOtherFields_ids. eapply forEachTask_sameOtherFields, Hb.
  - apply forEachTask_Returns in Hb as [Hb _].
    destruct (Forall2_lookup_l _ _ _ _ _ Hb Hi') as (t' & Ht' & c & Hc).
    rewrite scheduleTask_unconstrained in Hc; [injection Hc as <- _; exact Ht'|].
    apply maxDependencyEndOf_zero. intros d D e Hd HD _.
    rewrite (taskMapOf_ids tasks (currentTasks s) d) in HD;
      [discriminate | symmetry; exact Hids' | apply Hun, Hd].
Qed.

(** C10.  A dependency that ends on or before 1970-01-01 is treated like
    an unresolved id: deleting it from the map of the pass changes what
    the loop body does for no task; a task whose resolved dependencies
    all end on or before 1970-01-01 is not replaced by the body; a list
    in which that holds of every task is returned as it is; so A, which
    starts in 1960 and depends on B ending on 1970-01-01, keeps its dates
    although it starts before B ends. *)
Theorem cascadeSchedule_epoch_sentinel :
  (forall (m : gmap string Task) d D e t,
     m !! d = Some D -> endMs D = Some e -> e <= 0 ->
     scheduleTask m t = scheduleTask (delete d m) t) /\
  (forall (m : gmap string Task) t,
     (forall d D e, d ∈ dependencies t -> m !! d = Some D ->
                    endMs D = Some e -> e <= 0) ->
     scheduleTask m t = Returns (t, false)) /\
  (forall tasks : list Task,
     (forall t d D e, t ∈ tasks -> d ∈ dependencies t ->
        taskMapOf tasks !! d = Some D -> endMs D = Some e -> e <= 0) ->
     cascadeSchedule tasks = Returns tasks) /\
  (cascadeSchedule [ancientA; ancientB] = Returns [ancientA; ancientB] /\
   taskMapOf [ancientA; ancientB] !! "B" = Some ancientB /\
   endMs ancientB = Some 0 /\
   ~ finishToStart [ancientA; ancientB] ancientA).
Proof.
  split; [|split; [|split]].
  - intros m d D e t Hm He Hle. symmetry. eapply scheduleTask_delete; eassumption.
  - intros m t H. apply scheduleTask_unconstrained, maxDependencyEndOf_zero, H.
  - intros tasks H. apply cascadeSchedule_nothing_to_enforce.
    intros t Hin. apply maxDependencyEndOf_zero. intros d D e. apply H, Hin.
  - split; [vm_compute; reflexivity|]. split; [vm_compute; reflexivity|].
    split; [vm_compute; reflexivity|].
    intros (s & Hs & Hdeps).
    destruct (Hdeps "B" ancientB) as (e & He & Hlt); [left | vm_compute; reflexivity |].
    vm_compute in Hs, He. injection Hs as <-. injection He as <-. lia.
Qed.

End Unconstrained.

(* ===================================================================== *)
(** * When [cascadeSchedule] throws (C7)                                  *)
(* ===================================================================== *)

Section Throwing.
Context {host : Host}.
Import JSDate JSDateFacts.

(** The loop returns when its body returns in every state a run can
    reach. *)
Lemma whileLoop_total (I : LoopState -> Prop) (fuel : nat) :
  (forall s, I s -> loopCondition s = true ->
     exists s', loopBody s = Returns s' /\ I s') ->
  forall st, I st -> exists st', whileLoop fuel st = Returns st'.
Proof.
  intros Hstep. induction fuel as [|fuel IH]; intros st HI; cbn [whileLoop]; [eauto|].
  destruct (loopCondition st) eqn:Hc; [|eauto].
  destruct (Hstep st HI Hc) as (s' & -> & HI'). exc_simpl. apply IH, HI'.
Qed.

(** The body on a task with calendar dates within bounds: no exception
    as long as the bound leaves room for one more shift, and the task
    stays within the bound moved by one duration and one day. *)
Lemma scheduleTask_within (m : gmap string Task) (D H : Z) (t : Task) :
  0 <= D -> H + D + msPerDay <= maxTime ->
  (forall d X, m !! d = Some X -> within D H X /\ calendarDates X) ->
  within D H t -> calendarDates t ->
  exists t' c, scheduleTask m t = Returns (t', c) /\
    within D (H + D + msPerDay) t' /\ calendarDates t'.
Proof.
  intros HD Hroom Hm (s & e & Hs & He & Hspan & Hend) Hcal.
  assert (Hmcal : forall d X, m !! d = Some X -> calendarDates X)
    by (intros d X HX; apply (Hm d X HX)).
  assert (Hmx : maxDependencyEndOf m (dependencies t) <= H \/
                maxDependencyEndOf m (dependencies t) = 0).
  { unfold maxDependencyEndOf.
    destruct (foldl_visit_attained m (dependencies t) 0) as [-> | (d & X & _ & HX & Hp)];
      [right; reflexivity|].
    left. destruct (Hm d X HX) as [(s1 & e1 & _ & He1 & _ & Hle) _].
    unfold endMs in He1. rewrite Hp in He1. injection He1 as <-. exact Hle. }
  pose proof (scheduleTask_spec m t) as Hspec. cbv zeta in Hspec.
  assert (Hday : 0 < msPerDay) by reflexivity.
  destruct (scheduleTask m t) as [[t' [|]]|err] eqn:Heq.
  - exists t', true. split; [reflexivity|].
    pose proof (scheduleTask_movedLater _ _ _ _ Hmcal Hcal Heq) as Hmoved.
    split; [|eapply movedLater_calendar; eassumption].
    apply scheduleTask_shift in Heq
      as (shift & _ & _ & (s1 & e1 & Hs1 & He1 & Hs' & He' & _) & Hpos & Hst);
      try assumption.
    rewrite Hs in Hs1. injection Hs1 as <-. rewrite He in He1. injection He1 as <-.
    rewrite Hs' in Hst. injection Hst as Hst.
    exists (s + shift), (e + shift). repeat split; auto; lia.
  - destruct Hspec as [-> _]. exists t, false. split; [reflexivity|].
    split; [|exact Hcal]. exists s, e. repeat split; auto; lia.
  - exfalso. destruct Hspec as (Hpos & s0 & Hs0 & Hlt & Hbad).
    rewrite Hs in Hs0. injection Hs0 as <-.
    destruct Hbad as [Hbad | [Hbad | (e0 & He0 & Hbad)]].
    + lia.
    + rewrite He in Hbad. discriminate.
    + rewrite He in He0. injection He0 as <-. apply Hbad.
      pose proof (maxDependencyEndOf_whole m (dependencies t) Hmcal) as Hw.
      pose proof (maxDependencyEndOf_range m (dependencies t)) as Hr.
      destruct Hcal as [Hcs Hce].
      pose proof (parse_range _ _ Hs). pose proof (parse_range _ _ He).
      rewrite newEndOf_whole; try lia; auto.
      apply wholeDay_add; [exact Hw | reflexivity].
Qed.

Lemma forEachTask_within (m : gmap string Task) (D H : Z) (ts : list Task) :
  0 <= D -> H + D + msPerDay <= maxTime ->
  (forall d X, m !! d = Some X -> within D H X /\ calendarDates X) ->
  Forall (fun t => within D H t /\ calendarDates t) ts ->
  exists ts' c, forEachTask m ts = Returns (ts', c) /\
    Forall (fun t => within D (H + D + msPerDay) t /\ calendarDates t) ts'.
Proof.
  intros HD Hroom Hm. induction 1 as [|t ts [Ht Hc] _ (ts' & c' & IH & Hall)];
    cbn [forEachTask].
  - exists [], false. split; [reflexivity | constructor].
  - destruct (scheduleTask_within m D H t HD Hroom Hm Ht Hc) as (t' & c & -> & Hw).
    exc_simpl. rewrite IH. exc_simpl.
    exists (t' :: ts'), (c || c'). split; [reflexivity|]. constructor; assumption.
Qed.

(** A task the loop body throws on: it has to be shifted, and its new
    start or its new end is no valid time value. *)
Lemma scheduleTask_Throws (m : gmap string Task) (t : Task) (e : Error) :
  scheduleTask m t = Throws e -> unshiftable m t.
Proof.
  intros H. pose proof (scheduleTask_spec m t) as Hs. rewrite H in Hs.
  cbv beta iota zeta in Hs. exact Hs.
Qed.

(** When the loop throws, it does so on a task of a list it has reached
    by writing dates, and on calendar dates by moving tasks later. *)
Lemma whileLoop_Throws (tasks : list Task) (fuel : nat) (e : Error) :
  forall st,
  Forall2 sameOtherFields tasks (currentTasks st) ->
  (Forall calendarDates tasks -> Forall2 movedLater tasks (currentTasks st)) ->
  whileLoop fuel st = Throws e ->
  exists ts t, Forall2 sameOtherFields tasks ts /\
    (Forall calendarDates tasks -> Forall2 movedLater tasks ts) /\
    t ∈ ts /\ unshiftable (taskMapOf ts) t.
Proof.
  induction fuel as [|fuel IH]; intros st Hf Hm; cbn [whileLoop]; [discriminate|].
  destruct (loopCondition st); [|discriminate].
  destruct (loopBody st) as [st1|e1] eqn:Hb; exc_simpl.
  - apply loopBody_Returns in Hb as [Hb _]. apply IH.
    + eapply Forall2_sameOtherFields_trans;
        [exact Hf | eapply forEachTask_sameOtherFields, Hb].
    + intros Hcal. specialize (Hm Hcal).
      pose proof (Forall2_movedLater_calendar _ _ Hcal Hm) as Hcs.
      apply forEachTask_movedLater in Hb; [|apply taskMapOf_calendar, Hcs | exact Hcs].
      eapply Forall2_movedLater_trans; eassumption.
  - intros _. unfold loopBody in Hb.
    destruct (forEachTask _ _) as [[ts' ch]|e2] eqn:Hfe; exc_simpl; [discriminate|].
    apply forEachTask_Throws in Hfe as (t & Hin & Ht).
    exists (currentTasks st), t. split; [exact Hf|]. split; [exact Hm|].
    split; [exact Hin|]. eapply scheduleTask_Throws, Ht.
Qed.

(** C7, as amended.  [cascadeSchedule] returns, and does not throw, on
    every task list whose dates are all calendar dates and leave room
    below the end of the range of [Date]: with [D] a bound on the
    durations and [H] on the end dates, [H + 50 * (D + one day)] is a
    valid time value.  Dependency ids that do not resolve are skipped:
    on any task list, a task whose dependency ids are all unresolved is
    returned in its slot as it is whenever the call returns, and a list
    in which no dependency id resolves is returned as it is.  When the
    call throws, a pass has met a task it has to shift whose new start
    or new end is no valid time value: its end date is no date, or the
    shift leaves the range of [Date]; the list of that pass holds the
    input tasks with, at most, other dates, and on calendar dates the
    input tasks moved later. *)
Theorem cascadeSchedule_unknown_dependencies_and_throws :
  (forall (tasks : list Task) (D H : Z),
     0 <= D -> H + 50 * (D + msPerDay) <= maxTime ->
     (forall t, t ∈ tasks -> within D H t /\ calendarDates t) ->
     exists out, cascadeSchedule tasks = Returns out) /\
  (forall (tasks out : list Task) (i : nat) (t : Task),
     cascadeSchedule tasks = Returns out -> tasks !! i = Some t ->
     (forall d, d ∈ dependencies t -> taskMapOf tasks !! d = None) ->
     out !! i = Some t) /\
  (forall tasks : list Task,
     (forall t d, t ∈ tasks -> d ∈ dependencies t -> taskMapOf tasks !! d = None) ->
     cascadeSchedule tasks = Returns tasks) /\
  (forall (tasks : list Task) (e : Error),
     cascadeSchedule tasks = Throws e ->
     exists ts t, Forall2 sameOtherFields tasks ts /\
       (Forall calendarDates tasks -> Forall2 movedLater tasks ts) /\
       t ∈ ts /\ unshiftable (taskMapOf ts) t).
Proof.
  split; [|split; [|split]].
  - intros tasks D H HD Hroom Hall.
    assert (Hday : 0 < msPerDay) by reflexivity.
    destruct (whileLoop_total
      (fun s => 0 <= iterations s <= 50 /\
                Forall (fun t => within D (H + iterations s * (D + msPerDay)) t /\
                                 calendarDates t) (currentTasks s))
      50) with (st := initialState tasks) as (st' & Hrun).
    + intros s [Hit Hw] Hc.
      assert (Hlt : iterations s < 50).
      { unfold loopCondition in Hc. apply andb_prop in Hc as [_ Hc].
        apply Z.ltb_lt, Hc. }
      destruct (forEachTask_within (taskMapOf (currentTasks s)) D
                  (H + iterations s * (D + msPerDay)) (currentTasks s))
        as (ts' & c & Hf & Hw'); [lia | nia | | exact Hw |].
      * intros d X HX. apply taskMapOf_elem in HX as [HX _].
        rewrite Forall_forall in Hw. apply Hw, HX.
      * exists (mkLoop ts' c (iterations s + 1)). unfold loopBody. rewrite Hf.
        exc_simpl. split; [reflexivity|]. cbn [iterations currentTasks].
        split; [lia|].
        replace (H + (iterations s + 1) * (D + msPerDay))
          with (H + iterations s * (D + msPerDay) + D + msPerDay) by lia.
        exact Hw'.
    + cbn [initialState iterations currentTasks]. split; [lia|].
      apply Forall_forall. intros t Hin. rewrite Z.mul_0_l, Z.add_0_r. apply Hall, Hin.
    + exists (currentTasks st'). unfold cascadeSchedule, cascadeRun. rewrite Hrun.
      reflexivity.
  - intros tasks out i t Hret Hi Hun.
    apply cascadeSchedule_Returns in Hret as (st & Hrun & <-).
    apply (whileLoop_unresolved_slot tasks i t 50 (initialState tasks) st);
      [exact Hun | reflexivity | exact Hi | exact Hrun].
  - intros tasks Hun. apply cascadeSchedule_nothing_to_enforce.
    intros t Hin. apply maxDependencyEndOf_zero. intros d D e Hd HD _.
    rewrite (Hun t d Hin Hd) in HD. discriminate.
  - intros tasks e. unfold cascadeSchedule, cascadeRun.
    destruct (whileLoop 50 (initialState tasks)) as [st|e1] eqn:Hrun; exc_simpl;
      [discriminate|].
    intros _. apply (whileLoop_Throws tasks 50 e1 (initialState tasks)); [| |exact Hrun].
    + apply Forall2_sameOtherFields_refl.
    + intros _. apply Forall2_movedLater_refl.
Qed.

End Throwing.

(* ===================================================================== *)
(** * The conflict check (C3)                                             *)
(* ===================================================================== *)

Section ConflictCheck.
Context {host : Host}.
Import JSDate JSDateFacts.

(** In a zone with one offset, [d.setDate(d.getDate() + 1)] adds one day
    to the time value. *)
Lemma setDate_next_day_fixed (offset t : Z) :
  setDate (fixedZone offset) (Some t)
    ((fun d => d + 1) <$> getDate (fixedZone offset) (Some t))
  = TimeClip (t + msPerDay).
Proof.
  unfold setDate, getDate, LocalTime, UTC. cbn [fixedZone offsetAtUTC offsetAtLocal].
  exc_simpl.
  destruct (civilFromDays (Day (t + offset))) as [[y m] d] eqn:Hc.
  apply civilFromDays_spec in Hc as (_ & _ & Hday & _).
  rewrite daysFromCivil_next_day, Hday. f_equal.
  unfold Day, TimeWithinDay.
  pose proof (Z.div_mod (t + offset) msPerDay ltac:(discriminate)). lia.
Qed.

(** In a zone with one offset, [checkDependencies] reports the first
    violated dependency and suggests the day after its end date; it
    throws when that day is past the range of [Date]. *)
Lemma checkDependencies_fixed_zone (offset : Z) (updatedTask : Task)
    (allTasks : list Task) :
  checkDependencies (fixedZone offset) updatedTask allTasks =
  match firstViolation updatedTask allTasks (dependencies updatedTask) with
  | None => Returns None
  | Some (depTask, e) =>
      if e + msPerDay <=? maxTime
      then Returns (Some (mkConflict depTask (isoDate (e + msPerDay))))
      else Throws RangeError
  end.
Proof.
  unfold checkDependencies.
  induction (dependencies updatedTask) as [|depId rest IH];
    cbn [checkEach firstViolation]; [reflexivity|].
  destruct (find _ allTasks) as [depTask|]; [|exact IH].
  fold (endMs depTask). fold (startMs updatedTask).
  destruct (startMs updatedTask) as [s|]; [|exact IH].
  destruct (endMs depTask) as [e|] eqn:He; [|exact IH].
  cbn [numberLe]. destruct (s <=? e); [|exact IH].
  rewrite setDate_next_day_fixed.
  pose proof (parse_range _ _ He) as Hr.
  destruct (Z.leb_spec (e + msPerDay) maxTime).
  - rewrite TimeClip_range by (unfold msPerDay in *; lia). reflexivity.
  - unfold TimeClip. destruct (Z.leb_spec (e + msPerDay) maxTime); [lia|].
    rewrite andb_false_r. reflexivity.
Qed.

(** C3, on the code.  For the tasks of the specification's example the
    check suggests 2023-10-11 in UTC, eight hours ahead of UTC (China)
    and in New York.  But for a dependency ending on 2023-03-12, the day
    daylight saving time starts in New York, the check run there
    suggests 2023-03-12 again, not the day after: [setDate] adds a local
    day, which has 23 hours, and [toISOString] prints the UTC date.  The
    same call in UTC or eight hours ahead of it suggests 2023-03-13. *)
Theorem checkDependencies_local_day :
  checkDependencies zoneUTC chainA [chainA; chainB]
    = Returns (Some (mkConflict chainB "2023-10-11")) /\
  checkDependencies zonePlus8 chainA [chainA; chainB]
    = Returns (Some (mkConflict chainB "2023-10-11")) /\
  checkDependencies zoneNewYork2023 chainA [chainA; chainB]
    = Returns (Some (mkConflict chainB "2023-10-11")) /\
  checkDependencies zoneUTC marchA [marchA; marchB]
    = Returns (Some (mkConflict marchB "2023-03-13")) /\
  checkDependencies zonePlus8 marchA [marchA; marchB]
    = Returns (Some (mkConflict marchB "2023-03-13")) /\
  checkDependencies zoneNewYork2023 marchA [marchA; marchB]
    = Returns (Some (mkConflict marchB "2023-03-12")).
Proof. repeat split; vm_compute; reflexivity. Qed.

End ConflictCheck.

(* ===================================================================== *)
(** * The merge step of [handleConfirmChanges] (C8)                       *)
(* ===================================================================== *)

Section Merge.
Context {host : Host}.

Lemma find_taskId_Some (changes : list ProposedChange) (k : string)
    (change : ProposedChange) :
  find (fun c => String.eqb (ProposedChange.taskId c) k) changes = Some change ->
  In change changes /\ ProposedChange.taskId change = k.
Proof.
  intros H. apply find_some in H as [Hin Heq]. split; [exact Hin|].
  apply String.eqb_eq, Heq.
Qed.

Lemma find_taskId_None (changes : list ProposedChange) (k : string) :
  find (fun c => String.eqb (ProposedChange.taskId c) k) changes = None ->
  forall c, In c changes -> ProposedChange.taskId c <> k.
Proof.
  intros H c Hin Heq. pose proof (find_none _ _ H c Hin) as Hf. cbv beta in Hf.
  apply String.eqb_eq in Heq. congruence.
Qed.

(** C8.  The merged list has the length of the existing list plus the
    number of new tasks.  An existing task stays in its slot; when a
    change carries its id, the first such change gives it its start and
    end date and, when its [newAssignee] is a non-empty string, its
    assignee, and the other fields, among them status, gmpCritical,
    category and dependencies, are those of the task; when no change
    carries its id the task is kept as it is.  The new tasks follow in
    order, without [isNew] and [reason] and otherwise as proposed.  The
    handler stores [cascadeSchedule] of the merged list. *)
Theorem handleConfirmChanges_merge (prevTasks : list Task)
    (changes : list ProposedChange) (newTasks : list Task) :
  let merged := mergedTasks prevTasks changes newTasks in
  length merged = (length prevTasks + length newTasks)%nat /\
  (forall i task, prevTasks !! i = Some task ->
     exists task', merged !! i = Some task' /\
       keptByMerge task task' /\
       match find (fun c => String.eqb (ProposedChange.taskId c) (id task)) changes with
       | Some change =>
           In change changes /\ ProposedChange.taskId change = id task /\
           startDate task' = ProposedChange.newStartDate change /\
           endDate task' = ProposedChange.newEndDate change /\
           assignee task' =
             match ProposedChange.newAssignee change with
             | Some a => if String.eqb a EmptyString then assignee task else a
             | None => assignee task
             end
       | None =>
           (forall c, In c changes -> ProposedChange.taskId c <> id task) /\
           task' = task
       end) /\
  (forall j t, newTasks !! j = Some t ->
     exists t', merged !! (length prevTasks + j)%nat = Some t' /\
       isNew t' = None /\ reason t' = None /\
       t' = mkTask (id t) (name t) (startDate t) (endDate t) (duration t)
              (status t) (assignee t) (progress t) (dependencies t)
              (gmpCritical t) (category t) None None) /\
  handleConfirmChanges prevTasks changes newTasks = Some (cascadeSchedule merged).
Proof.
  intros merged. subst merged. unfold mergedTasks. split; [|split; [|split]].
  - rewrite length_app, !length_map. reflexivity.
  - intros i task Hi. exists (applyChange changes task). split.
    + rewrite lookup_app_l by (rewrite length_map; eapply lookup_lt_Some, Hi).
      rewrite list_lookup_fmap, Hi. reflexivity.
    + unfold applyChange.
      destruct (find _ changes) as [change|] eqn:Hf.
      * split; [unfold keptByMerge; cbn; tauto|].
        apply find_taskId_Some in Hf as [Hin Hid]. cbn. tauto.
      * split; [unfold keptByMerge; cbn; tauto|].
        split; [apply find_taskId_None, Hf | reflexivity].
  - intros j t Hj. exists (finalizeNewTask t). split.
    + rewrite lookup_app_r by (rewrite length_map; lia).
      rewrite length_map. replace (length prevTasks + j - length prevTasks)%nat with j by lia.
      rewrite list_lookup_fmap, Hj. reflexivity.
    + cbn. tauto.
  - reflexivity.
Qed.

End Merge.

(* ===================================================================== *)
(** * Copies and mutation (C9)                                            *)
(* ===================================================================== *)

Section ObjectFacts.
Context {host : Host}.

Lemma lookup_total_prefix (s1 s2 : list Task) (r : nat) :
  s1 `prefix_of` s2 -> (r < length s1)%nat -> s2 !!! r = s1 !!! r.
Proof. intros [k ->] Hr. apply lookup_total_app_l, Hr. Qed.

Lemma alloc_lookup (store k : list Task) (obj : Task) :
  (store ++ [obj]) `prefix_of` k -> k !!! length store = obj.
Proof.
  intros Hp. rewrite (lookup_total_prefix _ _ _ Hp) by (rewrite length_app; cbn; lia).
  apply list_lookup_total_middle. reflexivity.
Qed.

Lemma contents_prefix (s1 s2 : list Task) (refs : list nat) :
  s1 `prefix_of` s2 -> Forall (Objects.validIn s1) refs -> Objects.contents s2 refs = Objects.contents s1 refs.
Proof.
  intros Hp. induction 1 as [|r refs Hr _ IH]; [reflexivity|].
  unfold Objects.contents in *. cbn [fmap list_fmap]. f_equal; [|exact IH].
  apply lookup_total_prefix; assumption.
Qed.

Lemma validIn_prefix (s1 s2 : list Task) (refs : list nat) :
  s1 `prefix_of` s2 -> Forall (Objects.validIn s1) refs -> Forall (Objects.validIn s2) refs.
Proof.
  intros Hp Hv. eapply Forall_impl; [exact Hv|].
  intros r Hr. unfold Objects.validIn in *. apply prefix_length in Hp. lia.
Qed.

Lemma copyTasks_spec (tasks : list nat) :
  forall store store' copies,
  Objects.copyTasks store tasks = (store', copies) -> Forall (Objects.validIn store) tasks ->
  store `prefix_of` store' /\
  Objects.contents store' copies = Objects.contents store tasks /\
  Forall (fun r => (length store <= r < length store')%nat) copies.
Proof.
  induction tasks as [|r rest IH]; intros store store' copies; cbn [Objects.copyTasks].
  - intros [= <- <-] _. split; [reflexivity|]. split; [reflexivity | constructor].
  - unfold Objects.alloc.
    destruct (Objects.copyTasks (store ++ [store !!! r]) rest) as [store2 rest'] eqn:Hrest.
    intros [= <- <-] Hv. inversion Hv as [|? ? Hr Hvrest]; subst.
    assert (Hp1 : store `prefix_of` store ++ [store !!! r])
      by (apply prefix_app_r; reflexivity).
    destruct (IH _ _ _ Hrest (validIn_prefix _ _ _ Hp1 Hvrest)) as (Hp2 & Hc & Hf).
    split; [etrans; eassumption|]. split.
    + unfold Objects.contents in *. cbn [fmap list_fmap]. f_equal.
      * apply alloc_lookup, Hp2.
      * rewrite Hc. apply (contents_prefix _ _ _ Hp1 Hvrest).
    + constructor.
      * apply prefix_length in Hp2. rewrite length_app in Hp2. cbn in Hp2. lia.
      * eapply Forall_impl; [exact Hf|]. intros x. cbn beta.
        rewrite length_app. cbn. lia.
Qed.

(** The map of references denotes the map of tasks. *)
Lemma refMapOf_from (store : list Task) (refs : list nat) (m : gmap string nat) :
  (fun d : nat => store !!! d) <$> foldl (fun m (r : nat) => <[id (store !!! r) := r]> m) m refs
  = foldl (fun m t => <[id t := t]> m) ((fun d : nat => store !!! d) <$> m) (Objects.contents store refs).
Proof.
  revert m. induction refs as [|r refs IH]; intros m; [reflexivity|].
  unfold Objects.contents in *. cbn [foldl fmap list_fmap]. rewrite IH, fmap_insert. reflexivity.
Qed.

Lemma refMapOf_contents (store : list Task) (refs : list nat) :
  (fun d : nat => store !!! d) <$> Objects.refMapOf store refs = taskMapOf (Objects.contents store refs).
Proof. unfold Objects.refMapOf, taskMapOf. rewrite refMapOf_from, fmap_empty. reflexivity. Qed.

Lemma refMapOf_values (store : list Task) (refs : list nat) (m : gmap string nat)
    (k : string) (r : nat) :
  foldl (fun m (r : nat) => <[id (store !!! r) := r]> m) m refs !! k = Some r ->
  r ∈ refs \/ m !! k = Some r.
Proof.
  revert m. induction refs as [|x refs IH]; intros m H; cbn [foldl] in H; [right; exact H|].
  destruct (IH _ H) as [Hin | Hm]; [left; right; exact Hin|].
  destruct (decide (id (store !!! x) = k)) as [Heq | Hne].
  - rewrite <- Heq, lookup_insert_eq in Hm. injection Hm as <-. left. left.
  - rewrite lookup_insert_ne in Hm by exact Hne. right. exact Hm.
Qed.

(** The map of a pass read through a later store. *)
Lemma refMapOf_later (store0 store : list Task) (refs : list nat) :
  store0 `prefix_of` store -> Forall (Objects.validIn store0) refs ->
  (fun d : nat => store !!! d) <$> Objects.refMapOf store0 refs = taskMapOf (Objects.contents store0 refs).
Proof.
  intros Hp Hv. rewrite <- refMapOf_contents. apply map_fmap_ext.
  intros k r Hk. apply lookup_total_prefix; [exact Hp|].
  destruct (refMapOf_values _ _ _ _ _ Hk) as [Hin | He].
  - rewrite Forall_forall in Hv. apply Hv, Hin.
  - rewrite lookup_empty in He. discriminate.
Qed.

(** The [for] loop on objects does what the loop on tasks does: it
    extends the store, and every slot keeps its reference or receives a
    new one. *)
Lemma forEachSlot_refines (taskMap : gmap string nat) (m : gmap string Task)
    (cur : list nat) :
  forall store,
  (forall store', store `prefix_of` store' ->
     (fun d : nat => store' !!! d) <$> taskMap = m) ->
  Forall (Objects.validIn store) cur ->
  match forEachTask m (Objects.contents store cur) with
  | Returns (ts', ch) =>
      exists store' cur',
        Objects.forEachSlot store taskMap cur = Returns (store', cur', ch) /\
        Objects.contents store' cur' = ts' /\ store `prefix_of` store' /\
        Forall (Objects.validIn store') cur' /\
        Forall2 (fun r r' => r' = r \/ (length store <= r')%nat) cur cur'
  | Throws e => Objects.forEachSlot store taskMap cur = Throws e
  end.
Proof.
  induction cur as [|r rest IH]; intros store Hm Hv.
  - cbn. exists store, []. repeat split; try constructor. reflexivity.
  - inversion Hv as [|? ? Hr Hvrest]; subst.
    unfold Objects.contents in *. cbn [fmap list_fmap forEachTask Objects.forEachSlot].
    unfold Objects.scheduleSlot. rewrite (Hm store (reflexivity _)).
    destruct (scheduleTask m (store !!! r)) as [[t' [|]]|e] eqn:Hst; exc_simpl;
      [| |reflexivity].
    + unfold Objects.alloc.
      assert (Hp1 : store `prefix_of` store ++ [t']) by (apply prefix_app_r; reflexivity).
      specialize (IH (store ++ [t'])
                    (fun s' Hp => Hm s' (transitivity Hp1 Hp))
                    (validIn_prefix _ _ _ Hp1 Hvrest)).
      pose proof (contents_prefix _ _ _ Hp1 Hvrest) as Hc. unfold Objects.contents in Hc.
      rewrite Hc in IH.
      destruct (forEachTask m ((fun r0 : nat => store !!! r0) <$> rest)) as [[ts' ch]|e];
        exc_simpl.
      * destruct IH as (store' & cur' & -> & Hc' & Hp' & Hv' & Hf'). exc_simpl.
        exists store', (length store :: cur'). split; [reflexivity|].
        split; [|split; [etrans; eassumption | split]].
        -- cbn [fmap list_fmap]. f_equal; [|exact Hc'].
           apply alloc_lookup, Hp'.
        -- constructor; [|exact Hv']. unfold Objects.validIn.
           apply prefix_length in Hp'. rewrite length_app in Hp'. cbn in Hp'. lia.
        -- constructor; [right; lia|].
           eapply Forall2_impl; [exact Hf'|]. intros x y [-> | Hy]; [left; reflexivity|].
           right. rewrite length_app in Hy. cbn in Hy. lia.
      * rewrite IH. reflexivity.
    + specialize (IH store Hm Hvrest).
      destruct (forEachTask m ((fun r0 : nat => store !!! r0) <$> rest)) as [[ts' ch]|e];
        exc_simpl.
      * destruct IH as (store' & cur' & -> & Hc' & Hp' & Hv' & Hf'). exc_simpl.
        exists store', (r :: cur'). split; [reflexivity|].
        split; [|split; [exact Hp' | split]].
        -- cbn [fmap list_fmap]. f_equal; [|exact Hc'].
           rewrite (lookup_total_prefix _ _ _ Hp' Hr).
           symmetry. eapply scheduleTask_keep, Hst.
        -- constructor; [|exact Hv'].
           unfold Objects.validIn in *. apply prefix_length in Hp'. lia.
        -- constructor; [left; reflexivity | exact Hf'].
      * rewrite IH. reflexivity.
Qed.

(** One pass on objects does what a pass on tasks does. *)
Lemma loopBody_refines (st : Objects.LoopState) (n0 : nat) :
  Forall (Objects.validIn (Objects.store st)) (Objects.currentTasks st) ->
  Forall (fun r => (n0 <= r)%nat) (Objects.currentTasks st) ->
  (n0 <= length (Objects.store st))%nat ->
  match loopBody (mkLoop (Objects.contents (Objects.store st) (Objects.currentTasks st))
                         (Objects.hasChanged st) (Objects.iterations st)) with
  | Returns pst =>
      exists st', Objects.loopBody st = Returns st' /\
        Objects.contents (Objects.store st') (Objects.currentTasks st') = currentTasks pst /\
        Objects.hasChanged st' = hasChanged pst /\
        Objects.iterations st' = iterations pst /\
        Objects.store st `prefix_of` Objects.store st' /\
        Forall (Objects.validIn (Objects.store st')) (Objects.currentTasks st') /\
        Forall (fun r => (n0 <= r)%nat) (Objects.currentTasks st')
  | Throws e => Objects.loopBody st = Throws e
  end.
Proof.
  intros Hv Hfresh Hn0. destruct st as [store cur ch it].
  cbn [Objects.store Objects.currentTasks Objects.hasChanged Objects.iterations] in *.
  unfold loopBody, Objects.loopBody.
  cbn [currentTasks iterations Objects.store Objects.currentTasks Objects.iterations].
  pose proof (forEachSlot_refines (Objects.refMapOf store cur)
                (taskMapOf (Objects.contents store cur)) cur store
                (fun s' Hp => refMapOf_later store s' cur Hp Hv) Hv) as Href.
  destruct (forEachTask _ _) as [[ts' ch']|e]; exc_simpl.
  - destruct Href as (store' & cur' & -> & Hc & Hp & Hv' & Hf). exc_simpl.
    eexists. split; [reflexivity|].
    cbn [Objects.store Objects.currentTasks Objects.hasChanged Objects.iterations
         currentTasks hasChanged iterations].
    repeat split; try assumption.
    clear -Hf Hfresh Hn0. induction Hf as [|r r' l l' Hr _ IH]; [constructor|].
    inversion Hfresh; subst. constructor; [|apply IH; assumption].
    destruct Hr as [-> | Hr]; lia.
  - rewrite Href. reflexivity.
Qed.

(** The [while] loop on objects does what the loop on tasks does. *)
Lemma whileLoop_refines (fuel : nat) (n0 : nat) :
  forall st : Objects.LoopState,
  Forall (Objects.validIn (Objects.store st)) (Objects.currentTasks st) ->
  Forall (fun r => (n0 <= r)%nat) (Objects.currentTasks st) ->
  (n0 <= length (Objects.store st))%nat ->
  match whileLoop fuel
          (mkLoop (Objects.contents (Objects.store st) (Objects.currentTasks st))
                  (Objects.hasChanged st) (Objects.iterations st)) with
  | Returns pst =>
      exists st', Objects.whileLoop fuel st = Returns st' /\
        Objects.contents (Objects.store st') (Objects.currentTasks st') = currentTasks pst /\
        Objects.store st `prefix_of` Objects.store st' /\
        Forall (Objects.validIn (Objects.store st')) (Objects.currentTasks st') /\
        Forall (fun r => (n0 <= r)%nat) (Objects.currentTasks st')
  | Throws e => Objects.whileLoop fuel st = Throws e
  end.
Proof.
  induction fuel as [|fuel IH]; intros st Hv Hfresh Hn0; cbn [whileLoop Objects.whileLoop].
  - exists st. repeat split; try assumption; reflexivity.
  - unfold loopCondition, Objects.loopCondition. cbn [hasChanged iterations].
    destruct (Objects.hasChanged st && (Objects.iterations st <? 50)).
    + pose proof (loopBody_refines st n0 Hv Hfresh Hn0) as Hb.
      destruct (loopBody _) as [pst|e]; exc_simpl.
      * destruct Hb as (st1 & -> & Hc & Hch & Hit & Hp & Hv1 & Hf1). exc_simpl.
        specialize (IH st1 Hv1 Hf1 ltac:(apply prefix_length in Hp; lia)).
        rewrite Hc, Hch, Hit in IH.
        destruct pst as [pts pch pit]. cbn [currentTasks hasChanged iterations] in IH.
        destruct (whileLoop fuel _) as [pst'|e].
        -- destruct IH as (st' & Hrun & Hc' & Hp' & Hv' & Hf').
           exists st'. repeat split; try assumption. etrans; eassumption.
        -- exact IH.
      * rewrite Hb. reflexivity.
    + exists st. repeat split; try assumption; reflexivity.
Qed.

(** C9.  Run on task objects, [cascadeSchedule] leaves every object of
    the caller's store as it is (the store it returns extends the
    caller's), returns an array as long as the input array whose
    references are all to objects allocated during the call, and the
    object it returns in a slot agrees with the input object of the slot
    on every field other than [startDate] and [endDate]; the tasks it
    returns are those [cascadeSchedule] on task values computes. *)
Theorem cascadeSchedule_frame (store : list Task) (tasks : list nat)
    (store' : list Task) (out : list nat) :
  Forall (Objects.validIn store) tasks ->
  Objects.cascadeSchedule store tasks = Returns (store', out) ->
  store `prefix_of` store' /\
  (forall r obj, store !! r = Some obj -> store' !! r = Some obj) /\
  Forall (fun r' => (length store <= r' < length store')%nat) out /\
  length out = length tasks /\
  (forall i r r', tasks !! i = Some r -> out !! i = Some r' ->
     sameOtherFields (store !!! r) (store' !!! r')) /\
  cascadeSchedule (Objects.contents store tasks) = Returns (Objects.contents store' out).
Proof.
  intros Hv. unfold Objects.cascadeSchedule.
  destruct (Objects.copyTasks store tasks) as [store1 copies] eqn:Hcopy.
  destruct (copyTasks_spec _ _ _ _ Hcopy Hv) as (Hp1 & Hc1 & Hf1).
  assert (Hv1 : Forall (Objects.validIn store1) copies).
  { eapply Forall_impl; [exact Hf1|]. intros r Hr. cbn beta in Hr.
    unfold Objects.validIn. lia. }
  assert (Hfresh1 : Forall (fun r => (length store <= r)%nat) copies).
  { eapply Forall_impl; [exact Hf1|]. intros r Hr. cbn beta in Hr. lia. }
  pose proof (whileLoop_refines 50 (length store)
                (Objects.mkLoop store1 copies true 0) Hv1 Hfresh1
                ltac:(apply prefix_length in Hp1; exact Hp1)) as Href.
  cbn [Objects.store Objects.currentTasks Objects.hasChanged Objects.iterations] in Href.
  rewrite Hc1 in Href.
  assert (Hpure : cascadeRun (Objects.contents store tasks)
                  = whileLoop 50 (mkLoop (Objects.contents store tasks) true 0))
    by reflexivity.
  destruct (whileLoop 50 (mkLoop (Objects.contents store tasks) true 0)) as [pst|e].
  - destruct Href as (st' & -> & Hc & Hp & Hv' & Hf'). exc_simpl.
    intros [= <- <-].
    assert (Hcas : cascadeSchedule (Objects.contents store tasks)
                   = Returns (Objects.contents (Objects.store st') (Objects.currentTasks st'))).
    { unfold cascadeSchedule. rewrite Hpure. exc_simpl. rewrite Hc. reflexivity. }
    pose proof (cascadeSchedule_sameOtherFields _ _ Hcas) as Hmoved.
    assert (Hlen : length (Objects.currentTasks st') = length tasks).
    { apply Forall2_length in Hmoved. unfold Objects.contents in Hmoved.
      rewrite !length_fmap in Hmoved. symmetry. exact Hmoved. }
    assert (Hpre : store `prefix_of` Objects.store st') by (etrans; eassumption).
    split; [exact Hpre|].
    split; [intros r obj Hr; eapply prefix_lookup_Some; eassumption|].
    split.
    { rewrite Forall_forall in Hv', Hf'. apply Forall_forall. intros r Hin.
      specialize (Hv' r Hin). specialize (Hf' r Hin). unfold Objects.validIn in Hv'. lia. }
    split; [exact Hlen|]. split; [|exact Hcas].
    intros i r r' Hi Hi'.
    eapply (Forall2_lookup_lr _ _ _ i); [exact Hmoved | |];
      unfold Objects.contents; rewrite list_lookup_fmap.
    + rewrite Hi. reflexivity.
    + rewrite Hi'. reflexivity.
  - rewrite Href. exc_simpl. discriminate.
Qed.

End ObjectFacts.

(* ===================================================================== *)
(** * [addDays]                                                           *)
(* ===================================================================== *)

Section AddDays.
Context {host : Host}.
Import JSDate JSDateFacts.

Lemma daysFromCivil_add_days (y m d k : Z) :
  daysFromCivil y m (d + k) = daysFromCivil y m d + k.
Proof. unfold daysFromCivil. lia. Qed.

(** What [setDate(getDate() + days)] does to a time value, in any zone:
    the local time moves by whole days and is read back as UTC with the
    offset in force at the new local time. *)
Lemma setDate_add_days (zone : Zone) (t days : Z) :
  setDate zone (Some t) ((fun d => d + days) <$> getDate zone (Some t))
  = TimeClip (UTC zone (LocalTime zone t + days * msPerDay)).
Proof.
  unfold setDate, getDate. exc_simpl.
  destruct (civilFromDays (Day (LocalTime zone t))) as [[y m] d] eqn:Hc.
  apply civilFromDays_spec in Hc as (_ & _ & Hday & _).
  rewrite daysFromCivil_add_days, Hday. do 2 f_equal.
  unfold Day, TimeWithinDay.
  pose proof (Z.div_mod (LocalTime zone t) msPerDay ltac:(discriminate)). lia.
Qed.

Lemma addDays_fixed (offset : Z) (s : string) (days : Z) :
  addDays (fixedZone offset) s days =
  match parse s with
  | Some t => toISODate (TimeClip (t + days * msPerDay))
  | None => Throws RangeError
  end.
Proof.
  unfold addDays. destruct (parse s) as [t|]; [|reflexivity].
  rewrite setDate_add_days. unfold UTC, LocalTime.
  cbn [fixedZone offsetAtUTC offsetAtLocal]. do 2 f_equal. lia.
Qed.

Lemma addDays_fixed_returns (offset : Z) (s : string) (days t : Z) :
  parse s = Some t ->
  - maxTime <= t + days * msPerDay <= maxTime ->
  addDays (fixedZone offset) s days = Returns (isoDate (t + days * msPerDay)) /\
  (wholeDay t ->
   parse (isoDate (t + days * msPerDay)) = Some (t + days * msPerDay)).
Proof.
  intros Hp Hr. rewrite addDays_fixed, Hp, TimeClip_range by exact Hr.
  split; [reflexivity|]. intros Hw. apply parse_isoDate_whole; [exact Hr|].
  unfold wholeDay in Hw.
  rewrite Zplus_mod, Hw, Z.mod_mul by discriminate. reflexivity.
Qed.

(** On a string of a date-only form the string returned parses to the
    time value of the input plus [days] days. *)
Lemma addDays_fixed_date_only (offset : Z) (s : string) (days t : Z) :
  parseDateOnly s = Some t ->
  - maxTime <= t + days * msPerDay <= maxTime ->
  addDays (fixedZone offset) s days = Returns (isoDate (t + days * msPerDay)) /\
  parse (isoDate (t + days * msPerDay)) = Some (t + days * msPerDay).
Proof.
  intros Hp Hr.
  destruct (addDays_fixed_returns offset s days t (parse_date_only _ _ Hp) Hr) as [Ha Hb].
  split; [exact Ha|]. apply Hb, (parseDateOnly_whole_day _ _ Hp).
Qed.

(** X1.  In a zone with one offset, [addDays] of a date that parses
    returns the date [days] days later, as long as that day is in the
    range of [Date]; and when the date is a calendar date (midnight UTC
    of a day, as [YYYY-MM-DD] is read), the string it returns parses to
    the time value of the input plus [days] days. *)
Theorem addDays_fixed_zone (offset : Z) (s : string) (days t : Z) :
  parse s = Some t ->
  - maxTime <= t + days * msPerDay <= maxTime ->
  addDays (fixedZone offset) s days = Returns (isoDate (t + days * msPerDay)) /\
  (wholeDay t ->
   parse (isoDate (t + days * msPerDay)) = Some (t + days * msPerDay)).
Proof. apply addDays_fixed_returns. Qed.

(** X2.  [addDays] throws [RangeError] on a date that does not parse, in
    every zone; in a zone with one offset it throws exactly when the date
    does not parse or the day asked for is outside the range of [Date]. *)
Theorem addDays_throws :
  (forall zone s days, parse s = None -> addDays zone s days = Throws RangeError) /\
  (forall offset s days,
     addDays (fixedZone offset) s days = Throws RangeError <->
     parse s = None \/
     exists t, parse s = Some t /\
       ~ (- maxTime <= t + days * msPerDay <= maxTime)).
Proof.
  split.
  - intros zone s days Hp. unfold addDays. rewrite Hp. reflexivity.
  - intros offset s days. rewrite addDays_fixed.
    destruct (parse s) as [t|]; [|split; [left; reflexivity | reflexivity]].
    destruct (TimeClip (t + days * msPerDay)) as [u|] eqn:Hc; cbn [toISODate].
    + apply TimeClip_Some in Hc as [_ Hr]. split; [discriminate|].
      intros [Hn | (t' & [= <-] & Hn)]; [discriminate | contradiction].
    + split; [|reflexivity]. intros _. right. exists t. split; [reflexivity|].
      intros Hr. rewrite TimeClip_range in Hc by exact Hr. discriminate.
Qed.

(** X3.  In a zone with one offset, adding [a] days and then [b] days to
    a calendar date is adding [a + b] days, whenever the first call
    returns. *)
Theorem addDays_compose (offset : Z) (s r : string) (a b : Z) :
  (forall t, parse s = Some t -> wholeDay t) ->
  addDays (fixedZone offset) s a = Returns r ->
  addDays (fixedZone offset) r b = addDays (fixedZone offset) s (a + b).
Proof.
  intros Hcal. rewrite !addDays_fixed.
  destruct (parse s) as [t|] eqn:Hp; [|discriminate].
  destruct (TimeClip (t + a * msPerDay)) as [u|] eqn:Hc; cbn [toISODate]; [|discriminate].
  apply TimeClip_Some in Hc as [-> Hr]. intros [= <-].
  rewrite parse_isoDate_whole; [do 2 f_equal; lia | exact Hr |].
  pose proof (Hcal t eq_refl) as Hw. unfold wholeDay in Hw.
  rewrite Zplus_mod, Hw, Z.mod_mul by discriminate. reflexivity.
Qed.

(** X4.  Across a forward change of the clock [addDays(s, 1)] returns
    the date of [s] itself, for a calendar date [s]: when the offset in
    force one local day after [s] exceeds the offset in force at [s] by
    at most a day, the instant computed lies on the UTC day of [s]. *)
Theorem addDays_forward_clock_change (zone : Zone) (s : string) (t : Z) :
  parse s = Some t -> wholeDay t -> t < maxTime ->
  offsetAtUTC zone t < offsetAtLocal zone (LocalTime zone t + msPerDay)
    <= offsetAtUTC zone t + msPerDay ->
  addDays zone s 1 = Returns (isoDate t).
Proof.
  intros Hp Hw Hlt Hoff. unfold addDays. rewrite Hp, setDate_add_days.
  pose proof (parse_range _ _ Hp) as Hr. unfold wholeDay in Hw.
  set (u := UTC zone (LocalTime zone t + 1 * msPerDay)).
  assert (Hu : t <= u < t + msPerDay).
  { subst u. unfold UTC, LocalTime in *. rewrite Z.mul_1_l. lia. }
  assert (HtD : t = Day t * msPerDay).
  { unfold Day. pose proof (Z.div_mod t msPerDay ltac:(discriminate)). lia. }
  assert (Hmax : t + msPerDay <= maxTime).
  { clear -HtD Hlt. unfold Day, maxTime in *. change msPerDay with 86400000 in *.
    Z.to_euclidean_division_equations. lia. }
  rewrite TimeClip_range by lia. cbn [toISODate]. f_equal.
  unfold isoDate. replace (Day u) with (Day t); [reflexivity|].
  unfold Day at 2. apply Z.div_unique with (r := u - t).
  - left. lia.
  - clearbody u. change msPerDay with 86400000 in *. lia.
Qed.

End AddDays.

(* ===================================================================== *)
(** * Consistent schedules and the two ways to resolve an id             *)
(* ===================================================================== *)

Section Consistent.
Context {host : Host}.
Import JSDate JSDateFacts.

Lemma wholeDay_lt (a b : Z) : wholeDay a -> wholeDay b -> a < b -> a + msPerDay <= b.
Proof.
  unfold wholeDay. change msPerDay with 86400000. intros Ha Hb Hlt.
  Z.to_euclidean_division_equations. lia.
Qed.

(** On calendar dates, the loop body leaves a task that satisfies the
    invariant as it is. *)
Lemma scheduleTask_consistent (ts : list Task) (t : Task) :
  Forall calendarDates ts -> calendarDates t ->
  finishToStart ts t -> scheduleTask (taskMapOf ts) t = Returns (t, false).
Proof.
  intros Hcal [Hcs _] (s & Hs & Hall).
  assert (Hmx : 0 < maxDependencyEndOf (taskMapOf ts) (dependencies t) ->
                maxDependencyEndOf (taskMapOf ts) (dependencies t) + msPerDay <= s).
  { intros Hpos. unfold maxDependencyEndOf in *.
    destruct (foldl_visit_attained (taskMapOf ts) (dependencies t) 0)
      as [Heq | (d & D & Hd & HD & Hp)]; [lia|].
    destruct (Hall d D Hd HD) as (e & He & Hlt).
    unfold endMs in He. rewrite Hp in He. injection He as <-.
    apply wholeDay_lt; [| |exact Hlt].
    - apply (taskMapOf_calendar ts Hcal d D HD), Hp.
    - apply Hcs, Hs. }
  pose proof (scheduleTask_spec (taskMapOf ts) t) as Hspec. cbv zeta in Hspec.
  destruct (scheduleTask (taskMapOf ts) t) as [[t' [|]]|err].
  - destruct Hspec as (Hpos & s0 & e0 & Hs0 & _ & Hlt & _).
    rewrite Hs in Hs0. injection Hs0 as <-. specialize (Hmx Hpos). lia.
  - destruct Hspec as [-> _]. reflexivity.
  - destruct Hspec as (Hpos & s0 & Hs0 & Hlt & _).
    rewrite Hs in Hs0. injection Hs0 as <-. specialize (Hmx Hpos). lia.
Qed.

(** Every pass over a list of tasks with calendar dates that satisfy the
    invariant, or have only dependency ids that do not resolve, changes
    nothing. *)
Lemma consistent_settled (tasks : list Task) :
  Forall calendarDates tasks ->
  (forall t, t ∈ tasks ->
     finishToStart tasks t \/
     (forall d, d ∈ dependencies t -> taskMapOf tasks !! d = None)) ->
  forEachTask (taskMapOf tasks) tasks = Returns (tasks, false).
Proof.
  intros Hcal H. apply forEachTask_stable, Forall_forall.
  intros t Hin. destruct (H t Hin) as [Hfs | Hun].
  - apply scheduleTask_consistent; [exact Hcal | | exact Hfs].
    rewrite Forall_forall in Hcal. apply Hcal, Hin.
  - apply scheduleTask_unconstrained, maxDependencyEndOf_zero.
    intros d D e Hd HD _. rewrite (Hun d Hd) in HD. discriminate.
Qed.

(** X5.  A schedule of calendar dates that is already consistent is
    returned as it is: when every task satisfies the finish-to-start
    invariant in the list, or has only dependency ids that do not
    resolve, [cascadeSchedule] returns the list unchanged and does not
    throw. *)
Theorem cascadeSchedule_consistent_noop (tasks : list Task) :
  Forall calendarDates tasks ->
  (forall t, t ∈ tasks ->
     finishToStart tasks t \/
     (forall d, d ∈ dependencies t -> taskMapOf tasks !! d = None)) ->
  cascadeSchedule tasks = Returns tasks.
Proof.
  intros Hcal H. apply settled_cascadeSchedule, consistent_settled; assumption.
Qed.

(** ** [find] and [Map] *)

Lemma find_id_None (ts : list Task) (d : string) :
  d ∉ map id ts -> find (fun t => String.eqb (id t) d) ts = None.
Proof.
  induction ts as [|t ts IH]; intros Hn; cbn [find]; [reflexivity|].
  cbn [map] in Hn. apply not_elem_of_cons in Hn as [Hne Hn].
  destruct (String.eqb_spec (id t) d); [congruence | apply IH, Hn].
Qed.

Lemma foldl_insert_find (ts : list Task) (m : gmap string Task) (d : string) :
  NoDup (map id ts) ->
  foldl (fun m t => <[id t := t]> m) m ts !! d =
  match find (fun t => String.eqb (id t) d) ts with
  | Some x => Some x
  | None => m !! d
  end.
Proof.
  revert m. induction ts as [|t ts IH]; intros m Hnd; cbn [foldl find]; [reflexivity|].
  cbn [map] in Hnd. apply NoDup_cons in Hnd as [Hnotin Hnd].
  rewrite IH by exact Hnd.
  destruct (String.eqb_spec (id t) d) as [<- | Hne].
  - rewrite find_id_None by exact Hnotin. apply lookup_insert_eq.
  - destruct (find _ ts); [reflexivity|]. apply lookup_insert_ne, Hne.
Qed.

(** On a list without duplicate ids, [allTasks.find] (the first task
    with the id) and [taskMap.get] (the last one) resolve alike. *)
Lemma find_taskMapOf (ts : list Task) (d : string) :
  NoDup (map id ts) ->
  find (fun t => String.eqb (id t) d) ts = taskMapOf ts !! d.
Proof.
  intros Hnd. unfold taskMapOf. rewrite foldl_insert_find by exact Hnd.
  destruct (find _ ts); [reflexivity | symmetry; apply lookup_empty].
Qed.

Lemma checkEach_None (zone : Zone) (u : Task) (all : list Task) (deps : list string) :
  checkEach zone u all deps = Returns None <-> firstViolation u all deps = None.
Proof.
  induction deps as [|d deps IH]; cbn [checkEach firstViolation]; [tauto|].
  destruct (find _ all) as [D|]; [|exact IH].
  fold (endMs D). fold (startMs u).
  destruct (startMs u) as [s|]; [|exact IH].
  destruct (endMs D) as [e|]; [|exact IH].
  cbn [numberLe]. destruct (s <=? e); [|exact IH].
  destruct (toISODate _) as [x|err]; exc_simpl; split; discriminate.
Qed.

Lemma firstViolation_None (u : Task) (all : list Task) (deps : list string) :
  firstViolation u all deps = None <->
  forall d D s e, d ∈ deps ->
    find (fun t => String.eqb (id t) d) all = Some D ->
    startMs u = Some s -> endMs D = Some e -> e < s.
Proof.
  induction deps as [|d0 deps IH]; cbn [firstViolation].
  - split; [|reflexivity]. intros _ d D s e Hd. inversion Hd.
  - destruct (find (fun t => String.eqb (id t) d0) all) as [D0|] eqn:Hf.
    + destruct (startMs u) as [s0|] eqn:Hs.
      * destruct (endMs D0) as [e0|] eqn:He.
        -- destruct (Z.leb_spec s0 e0) as [Hle | Hgt].
           ++ split; [discriminate|]. intros H.
              specialize (H d0 D0 s0 e0 ltac:(left) Hf eq_refl He). lia.
           ++ rewrite IH. split; intros H d D s e Hd HD Hs' HD'.
              ** apply elem_of_cons in Hd as [-> | Hd]; [|eapply H; eassumption].
                 rewrite Hf in HD. injection HD as <-. rewrite He in HD'.
                 injection HD' as <-. injection Hs' as <-. lia.
              ** eapply H; [right|..]; eassumption.
        -- rewrite IH. split; intros H d D s e Hd HD Hs' HD'.
           ** apply elem_of_cons in Hd as [-> | Hd]; [|eapply H; eassumption].
              rewrite Hf in HD. injection HD as <-. rewrite He in HD'. discriminate.
           ** eapply H; [right|..]; eassumption.
      * rewrite IH. split; intros H d D s e Hd HD Hs' HD'; [discriminate|].
        discriminate.
    + rewrite IH. split; intros H d D s e Hd HD Hs' HD'.
      * apply elem_of_cons in Hd as [-> | Hd]; [|eapply H; eassumption].
        rewrite Hf in HD. discriminate.
      * eapply H; [right|..]; eassumption.
Qed.

(** X6.  On a task list without duplicate ids, [checkDependencies]
    returns [null], in any zone, exactly when the task starts strictly
    after the end of every dependency that [cascadeSchedule]'s map
    resolves, as far as the dates parse: no conflict is reported exactly
    when the cascade's invariant holds for the task. *)
Theorem checkDependencies_null_iff (zone : Zone) (u : Task) (allTasks : list Task) :
  NoDup (map id allTasks) ->
  (checkDependencies zone u allTasks = Returns None <->
   forall d D s e, d ∈ dependencies u -> taskMapOf allTasks !! d = Some D ->
     startMs u = Some s -> endMs D = Some e -> e < s).
Proof.
  intros Hnd. unfold checkDependencies. rewrite checkEach_None, firstViolation_None.
  split; intros H d D s e Hd HD; apply (H d D s e Hd).
  - rewrite find_taskMapOf by exact Hnd. exact HD.
  - rewrite <- find_taskMapOf by exact Hnd. exact HD.
Qed.

End Consistent.

(* ===================================================================== *)
(** * The handlers that edit the task list                                *)
(* ===================================================================== *)

Section Handlers.
Context {host : Host}.
Import JSDate JSDateFacts.

Lemma replaceTask_lookup (u : Task) (ts : list Task) (i : nat) (t : Task) :
  ts !! i = Some t ->
  replaceTask u ts !! i = Some (if String.eqb (id t) (id u) then u else t).
Proof.
  intros Hi. unfold replaceTask.
  change (map ?f ts) with (f <$> ts). rewrite list_lookup_fmap, Hi. reflexivity.
Qed.

Lemma replaceTask_ids (u : Task) (ts : list Task) :
  map id (replaceTask u ts) = map id ts.
Proof.
  unfold replaceTask. rewrite map_map. apply map_ext. intros t.
  destruct (String.eqb_spec (id t) (id u)); congruence.
Qed.

Lemma cascadeSchedule_ids (tasks out : list Task) :
  cascadeSchedule tasks = Returns out -> map id out = map id tasks.
Proof. intros H. apply sameOtherFields_ids, cascadeSchedule_sameOtherFields, H. Qed.

Lemma replaceTask_calendar (u : Task) (ts : list Task) :
  calendarDates u -> Forall calendarDates ts -> Forall calendarDates (replaceTask u ts).
Proof.
  intros Hu Hts. unfold replaceTask. apply Forall_forall. intros t Hin.
  apply list_elem_of_In, in_map_iff in Hin as (x & <- & Hx).
  destruct (String.eqb (id x) (id u)); [exact Hu|].
  rewrite Forall_forall in Hts. apply Hts, list_elem_of_In, Hx.
Qed.

(** X7.  [handleTaskUpdate] never adds, removes or reorders tasks: the
    ids stay in their slots.  When the check reports a conflict no task
    changes and the edit is held in [pendingTaskUpdate]; otherwise the
    conflict state is left alone, and every slot whose task carries the
    id of the edited task holds the edited task, every other slot its
    own task, with, at most, other dates; when the dates of the edit and
    of the tasks are calendar dates, each is as it was or moved later by
    the cascade. *)
Theorem handleTaskUpdate_slots (zone : Zone) (u : Task) (st st' : App.State) :
  App.handleTaskUpdate zone u st = Returns st' ->
  map id (App.tasks st') = map id (App.tasks st) /\
  ((exists D suggested,
      checkDependencies zone u (App.tasks st)
        = Returns (Some (mkConflict D suggested)) /\
      App.tasks st' = App.tasks st /\
      App.pendingTaskUpdate st' = Some u /\
      App.conflict st' = Some (App.mkConflictState u D suggested)) \/
   (checkDependencies zone u (App.tasks st) = Returns None /\
    App.conflict st' = App.conflict st /\
    App.pendingTaskUpdate st' = App.pendingTaskUpdate st /\
    forall i t, App.tasks st !! i = Some t ->
      exists t', App.tasks st' !! i = Some t' /\
        sameOtherFields (if String.eqb (id t) (id u) then u else t) t' /\
        (calendarDates u -> Forall calendarDates (App.tasks st) ->
         movedLater (if String.eqb (id t) (id u) then u else t) t'))).
Proof.
  unfold App.handleTaskUpdate. cbn [canEditTasks negb].
  destruct (checkDependencies zone u (App.tasks st)) as [[[D suggested]|]|err];
    [| |discriminate].
  - intros [= <-]. cbn [App.tasks App.conflict App.pendingTaskUpdate].
    split; [reflexivity|]. left. exists D, suggested. auto.
  - destruct (cascadeSchedule (replaceTask u (App.tasks st))) as [out|err] eqn:Hc;
      exc_simpl; [|discriminate].
    intros [= <-]. cbn [App.tasks App.conflict App.pendingTaskUpdate].
    split.
    + rewrite (cascadeSchedule_ids _ _ Hc). apply replaceTask_ids.
    + right. repeat split. intros i t Hi.
      pose proof (cascadeSchedule_sameOtherFields _ _ Hc) as Hsame.
      destruct (Forall2_lookup_l _ _ _ _ _ Hsame (replaceTask_lookup u _ _ _ Hi))
        as (t' & Ht' & Hm).
      exists t'. split; [exact Ht'|]. split; [exact Hm|].
      intros Hu Hts.
      apply cascadeSchedule_movedLater in Hc; [|apply replaceTask_calendar; assumption].
      apply (Forall2_lookup_lr _ _ _ i _ _ Hc (replaceTask_lookup u _ _ _ Hi) Ht').
Qed.

Lemma firstViolation_Some (u : Task) (all : list Task) (deps : list string)
    (D : Task) (e : Z) :
  firstViolation u all deps = Some (D, e) ->
  exists s, startMs u = Some s /\ endMs D = Some e /\ s <= e.
Proof.
  induction deps as [|d deps IH]; cbn [firstViolation]; [discriminate|].
  destruct (find _ all) as [D0|]; [|exact IH].
  destruct (startMs u) as [s|] eqn:Hs; [|exact IH].
  destruct (endMs D0) as [e0|] eqn:He; [|exact IH].
  destruct (Z.leb_spec s e0); [|exact IH].
  intros [= <- <-]. exists s. auto.
Qed.

(** X8.  In a zone with one offset, an edit with calendar dates that
    conflicts with a dependency [D] with calendar dates is held, and
    [resolveConflict] then replaces the task by the edited task moved to
    the day after [D] ends, with its duration ([endDate - startDate])
    and every other field kept, and cascades; this needs the end date of
    the edited task to be a date and the moved end date to be in the
    range of [Date]. *)
Theorem resolveConflict_moves_past_dependency (offset : Z) (u D : Task)
    (suggested : string) (ts : list Task) (c0 : option App.ConflictState)
    (p0 : option Task) (e : Z) :
  checkDependencies (fixedZone offset) u ts
    = Returns (Some (mkConflict D suggested)) ->
  calendarDates u -> calendarDates D ->
  endMs u = Some e ->
  (forall s eD, startMs u = Some s -> endMs D = Some eD ->
     eD + msPerDay + (e - s) <= maxTime) ->
  let held := App.mkState ts (Some (App.mkConflictState u D suggested)) (Some u) in
  App.handleTaskUpdate (fixedZone offset) u (App.mkState ts c0 p0) = Returns held /\
  exists fixed s eD,
    startMs u = Some s /\ endMs D = Some eD /\ s <= eD /\
    startDate fixed = suggested /\
    startMs fixed = Some (eD + msPerDay) /\
    endMs fixed = Some (eD + msPerDay + (e - s)) /\
    spanMs fixed = spanMs u /\ sameOtherFields u fixed /\
    App.resolveConflict held =
      (newTasks ← cascadeSchedule (replaceTask fixed ts);
       Returns (App.mkState newTasks None None)).
Proof.
  intros Hcheck [Hus Hue] [_ HDe] He Hroom held. split.
  { unfold App.handleTaskUpdate. cbn [canEditTasks negb App.tasks].
    rewrite Hcheck. reflexivity. }
  rewrite checkDependencies_fixed_zone in Hcheck.
  destruct (firstViolation u ts (dependencies u)) as [[D' eD]|] eqn:Hfv;
    [|discriminate].
  destruct (Z.leb_spec (eD + msPerDay) maxTime) as [Hin|]; [|discriminate].
  injection Hcheck as <- <-.
  apply firstViolation_Some in Hfv as (s & Hs & HD & Hle).
  specialize (Hroom s eD Hs HD).
  pose proof (Hus s Hs) as Hsw. pose proof (parse_range _ _ Hs) as Hsr.
  pose proof (Hue e He) as Hew. pose proof (parse_range _ _ He) as Her.
  pose proof (HDe eD HD) as HDw. pose proof (parse_range _ _ HD) as HDr.
  unfold wholeDay in Hsw, Hew, HDw.
  assert (Hday : 0 < msPerDay) by reflexivity.
  assert (Hst : parse (isoDate (eD + msPerDay)) = Some (eD + msPerDay)).
  { apply parse_isoDate_whole; [lia|].
    rewrite Zplus_mod, HDw, Z_mod_same_full. reflexivity. }
  assert (Hen : parse (isoDate (eD + msPerDay + (e - s)))
                = Some (eD + msPerDay + (e - s))).
  { apply parse_isoDate_whole; [lia|].
    rewrite Zplus_mod, (Zplus_mod eD), HDw, Z_mod_same_full, Zminus_mod, Hew, Hsw.
    reflexivity. }
  assert (Hfl1 : fl (e - s) = e - s).
  { apply fl_whole_day; [rewrite Zminus_mod, Hew, Hsw; reflexivity|].
    change (2 ^ 63) with 9223372036854775808. unfold maxTime in *. lia. }
  assert (Hfl2 : fl (eD + msPerDay + (e - s)) = eD + msPerDay + (e - s)).
  { apply fl_whole_day.
    - rewrite Zplus_mod, (Zplus_mod eD), HDw, Z_mod_same_full, Zminus_mod, Hew, Hsw.
      reflexivity.
    - change (2 ^ 63) with 9223372036854775808. unfold maxTime in *.
      change msPerDay with 86400000 in *. lia. }
  assert (Hfix : App.fixedTaskOf u (isoDate (eD + msPerDay))
                 = Returns (withDates u (isoDate (eD + msPerDay))
                              (isoDate (eD + msPerDay + (e - s))))).
  { unfold App.fixedTaskOf, getTimeOf. fold (startMs u). fold (endMs u).
    rewrite Hs, He, Hst. exc_simpl. rewrite Hfl1, Hfl2.
    rewrite TimeClip_range by lia. reflexivity. }
  exists (withDates u (isoDate (eD + msPerDay)) (isoDate (eD + msPerDay + (e - s)))),
    s, eD.
  split; [exact Hs|]. split; [exact HD|]. split; [exact Hle|].
  split; [reflexivity|]. split; [exact Hst|]. split; [exact Hen|].
  split.
  { unfold spanMs, startMs, endMs in *. cbn [startDate endDate withDates].
    rewrite Hst, Hen, Hs, He. cbn. f_equal. lia. }
  split; [unfold sameOtherFields; cbn; tauto|].
  unfold App.resolveConflict, held.
  cbn [App.pendingTaskUpdate App.conflict App.suggestedDate App.tasks canEditTasks].
  rewrite Hfix. reflexivity.
Qed.

(** X9.  An edit that is held for a conflict and whose end date does not
    parse cannot be fixed: [resolveConflict] throws [RangeError], in
    every zone, and [cancelConflict] is the way out; it drops the held
    edit and leaves the tasks as they were. *)
Theorem resolveConflict_throws_on_invalid_end (zone : Zone) (u D : Task)
    (suggested : string) (ts : list Task) (c0 : option App.ConflictState)
    (p0 : option Task) :
  checkDependencies zone u ts = Returns (Some (mkConflict D suggested)) ->
  endMs u = None ->
  exists held,
    App.handleTaskUpdate zone u (App.mkState ts c0 p0) = Returns held /\
    App.resolveConflict held = Throws RangeError /\
    App.cancelConflict held = App.mkState ts None None.
Proof.
  intros Hcheck He. eexists. split; [|split].
  - unfold App.handleTaskUpdate. cbn [canEditTasks negb App.tasks].
    rewrite Hcheck. reflexivity.
  - unfold App.resolveConflict.
    cbn [App.pendingTaskUpdate App.conflict App.suggestedDate canEditTasks].
    unfold App.fixedTaskOf, getTimeOf. fold (endMs u). rewrite He. exc_simpl.
    destruct (parse suggested); reflexivity.
  - reflexivity.
Qed.

End Handlers.

(* ===================================================================== *)
(** * Deleting and inserting tasks                                        *)
(* ===================================================================== *)

Section DeleteInsert.
Context {host : Host}.
Import JSDate JSDateFacts.

(** A task none of whose dependency ids resolves keeps its slot and its
    dates through [cascadeSchedule]. *)
Lemma cascadeSchedule_unresolved_slot (tasks out : list Task) (i : nat) (t : Task) :
  cascadeSchedule tasks = Returns out -> tasks !! i = Some t ->
  (forall d, d ∈ dependencies t -> taskMapOf tasks !! d = None) ->
  out !! i = Some t.
Proof.
  intros Hret Hi Hun. apply cascadeSchedule_Returns in Hret as (st & Hrun & <-).
  apply (whileLoop_unresolved_slot tasks i t 50 (initialState tasks) st);
    [exact Hun | reflexivity | exact Hi | exact Hrun].
Qed.

Lemma taskMapOf_absent (ts : list Task) (k : string) :
  (forall t, t ∈ ts -> id t <> k) -> taskMapOf ts !! k = None.
Proof.
  intros H. destruct (taskMapOf ts !! k) as [D|] eqn:HD; [|reflexivity].
  apply taskMapOf_elem in HD as [Hin Hid]. destruct (H D Hin Hid).
Qed.

Lemma filter_other_ids (k : string) (ts : list Task) (t : Task) :
  t ∈ List.filter (fun t => negb (String.eqb (id t) k)) ts <-> t ∈ ts /\ id t <> k.
Proof.
  rewrite !list_elem_of_In, filter_In. split; intros [Hin Hk]; split; try exact Hin.
  - intros Heq. apply String.eqb_eq in Heq. rewrite Heq in Hk. discriminate.
  - destruct (String.eqb_spec (id t) k); [contradiction | reflexivity].
Qed.

Lemma filter_sublist (f : Task -> bool) (ts : list Task) :
  List.filter f ts `sublist_of` ts.
Proof.
  induction ts as [|t ts IH]; cbn [List.filter]; [constructor|].
  destruct (f t); [apply sublist_skip | apply sublist_cons]; exact IH.
Qed.

(** X10.  [handleTaskDelete] removes every task carrying the id and
    keeps the others in their order, and it edits no other task: a task
    that depends on the deleted id keeps that id in its dependencies.
    The id then resolves to nothing, so a task that depended on the
    deleted task only is left where it is by a later [cascadeSchedule]. *)
Theorem handleTaskDelete_dangling (taskId : string) (st : App.State) :
  let st' := App.handleTaskDelete taskId st in
  (forall t, t ∈ App.tasks st' <-> t ∈ App.tasks st /\ id t <> taskId) /\
  App.tasks st' `sublist_of` App.tasks st /\
  taskMapOf (App.tasks st') !! taskId = None /\
  (forall out i t,
     cascadeSchedule (App.tasks st') = Returns out ->
     App.tasks st' !! i = Some t ->
     (forall d, d ∈ dependencies t -> d = taskId) ->
     out !! i = Some t).
Proof.
  cbv zeta. unfold App.handleTaskDelete. cbn [canEditTasks negb App.tasks].
  assert (Habs : taskMapOf (List.filter (fun t => negb (String.eqb (id t) taskId))
                              (App.tasks st)) !! taskId = None).
  { apply taskMapOf_absent. intros t Ht. apply filter_other_ids in Ht. apply Ht. }
  split; [intros t; apply filter_other_ids|].
  split; [apply filter_sublist|]. split; [exact Habs|].
  intros out i t Hc Hi Hdeps.
  apply (cascadeSchedule_unresolved_slot _ _ _ _ Hc Hi).
  intros d Hd. rewrite (Hdeps d Hd). exact Habs.
Qed.

Lemma findIndex_Some (k : string) (ts : list Task) (i : nat) :
  App.findIndex k ts = Some i ->
  exists t, ts !! i = Some t /\ id t = k /\
    forall j t', (j < i)%nat -> ts !! j = Some t' -> id t' <> k.
Proof.
  revert i. induction ts as [|t ts IH]; intros i; cbn [App.findIndex]; [discriminate|].
  destruct (String.eqb_spec (id t) k) as [Heq | Hne].
  - intros [= <-]. exists t. split; [reflexivity|]. split; [exact Heq|].
    intros j t' Hj. lia.
  - destruct (App.findIndex k ts) as [i'|]; cbn; [|discriminate].
    intros [= <-]. destruct (IH i' eq_refl) as (x & Hx & Hid & Hfirst).
    exists x. split; [exact Hx|]. split; [exact Hid|].
    intros [|j] t' Hj Ht'; cbn in Ht'.
    + injection Ht' as <-. exact Hne.
    + apply (Hfirst j t'); [lia | exact Ht'].
Qed.

Lemma findIndex_None (k : string) (ts : list Task) :
  App.findIndex k ts = None <-> forall t, t ∈ ts -> id t <> k.
Proof.
  induction ts as [|t ts IH]; cbn [App.findIndex].
  - split; [intros _ t Ht; inversion Ht | reflexivity].
  - destruct (String.eqb_spec (id t) k) as [Heq | Hne].
    + split; [discriminate|]. intros H. destruct (H t ltac:(left) Heq).
    + destruct (App.findIndex k ts) as [i'|]; cbn.
      * split; [discriminate|]. intros H.
        assert (Hn : Some i' = None); [|discriminate].
        apply IH. intros t' Ht'. apply H. right. exact Ht'.
      * split; [|reflexivity]. intros _ t' Ht'.
        apply elem_of_cons in Ht' as [-> | Ht']; [exact Hne|].
        apply (proj1 IH eq_refl), Ht'.
Qed.

(** X11.  [handleInsertTask] changes nothing when no task carries the
    target id.  Otherwise it adds one task next to the first task with
    that id, directly before or directly after it, and keeps all the
    other tasks in their order; the new task has the dates and the
    duration of the target, no dependencies, and is marked [isNew]; a
    later [cascadeSchedule] leaves it in its slot as it is. *)
Theorem handleInsertTask_spec (now : Z) (targetTaskId : string)
    (position : Position) (st : App.State) :
  let st' := App.handleInsertTask now targetTaskId position st in
  ((forall t, t ∈ App.tasks st -> id t <> targetTaskId) -> st' = st) /\
  (forall index target,
     App.tasks st !! index = Some target -> id target = targetTaskId ->
     (forall j t, (j < index)%nat -> App.tasks st !! j = Some t -> id t <> targetTaskId) ->
     let newTask :=
       mkTask ("task_" +:+ pretty now) "新任务" (startDate target) (endDate target)
         (duration target) Pending "未分配" 0 [] false "General" (Some true) None in
     let at_ := match position with after => S index | before => index end in
     length (App.tasks st') = S (length (App.tasks st)) /\
     App.tasks st' !! at_ = Some newTask /\
     App.tasks st' !! (match position with after => index | before => S index end)
       = Some target /\
     (forall j, (j < at_)%nat -> App.tasks st' !! j = App.tasks st !! j) /\
     (forall j, (at_ <= j)%nat -> App.tasks st' !! S j = App.tasks st !! j) /\
     (forall out, cascadeSchedule (App.tasks st') = Returns out ->
        out !! at_ = Some newTask)).
Proof.
  cbv zeta. unfold App.handleInsertTask. cbn [canEditTasks negb]. split.
  - intros Hnone. rewrite (proj2 (findIndex_None _ _) Hnone). reflexivity.
  - intros index target Hi Hid Hfirst.
    destruct (App.findIndex targetTaskId (App.tasks st)) as [i|] eqn:Hf.
    2:{ destruct (proj1 (findIndex_None _ _) Hf target); [|exact Hid].
        eapply list_elem_of_lookup_2, Hi. }
    apply findIndex_Some in Hf as (x & Hx & Hxid & Hxfirst).
    assert (i = index).
    { destruct (Nat.lt_trichotomy i index) as [Hlt | [Heq | Hgt]]; [|exact Heq|].
      - destruct (Hfirst i x Hlt Hx Hxid).
      - destruct (Hxfirst index target Hgt Hi Hid). }
    subst i. rewrite Hx in Hi. injection Hi as ->.
    rewrite (list_lookup_total_correct _ _ _ Hx).
    cbn [App.tasks].
    set (newTask := mkTask _ _ _ _ _ _ _ _ _ _ _ _ _).
    set (at_ := match position with after => S index | before => index end).
    pose proof (lookup_lt_Some _ _ _ Hx) as Hlen.
    assert (Hat : (at_ <= length (App.tasks st))%nat) by (subst at_; destruct position; lia).
    assert (Hnew : (take at_ (App.tasks st) ++ newTask :: drop at_ (App.tasks st)) !! at_
                   = Some newTask).
    { rewrite lookup_app_r by (rewrite length_take; lia).
      rewrite length_take. replace (at_ - at_ `min` length (App.tasks st))%nat with 0%nat by lia.
      reflexivity. }
    assert (Hbefore : forall j, (j < at_)%nat ->
              (take at_ (App.tasks st) ++ newTask :: drop at_ (App.tasks st)) !! j
              = App.tasks st !! j).
    { intros j Hj. rewrite lookup_app_l by (rewrite length_take; lia).
      apply lookup_take_lt, Hj. }
    assert (Hafter : forall j, (at_ <= j)%nat ->
              (take at_ (App.tasks st) ++ newTask :: drop at_ (App.tasks st)) !! S j
              = App.tasks st !! j).
    { intros j Hj. rewrite lookup_app_r by (rewrite length_take; lia).
      rewrite length_take. replace (S j - at_ `min` length (App.tasks st))%nat
        with (S (j - at_)) by lia.
      rewrite lookup_cons, lookup_drop. f_equal. lia. }
    split.
    { rewrite length_app, length_take. cbn [length]. rewrite length_drop. lia. }
    split; [exact Hnew|]. split.
    { subst at_. destruct position.
      - rewrite Hafter by lia. exact Hx.
      - rewrite Hbefore by lia. exact Hx. }
    split; [exact Hbefore|]. split; [exact Hafter|].
    intros out Hc. apply (cascadeSchedule_unresolved_slot _ _ _ _ Hc Hnew).
    intros d Hd. inversion Hd.
Qed.

End DeleteInsert.

(* ===================================================================== *)
(** * The module templates of [handleAddModule]                           *)
(* ===================================================================== *)

Section Modules.
Context {host : Host}.
Import JSDate JSDateFacts.

Lemma moduleTaskId_inj (baseId : Z) : Inj (=) (=) (moduleTaskId baseId).
Proof.
  intros i j H. unfold moduleTaskId in H.
  do 3 apply (inj (String.app _)) in H. apply (inj pretty), H.
Qed.

Lemma dependenciesOn_moduleTaskId (baseId : Z) (index : nat) :
  dependenciesOn (moduleTaskId baseId index) = [moduleTaskId baseId index].
Proof. reflexivity. Qed.

(** In a zone with one offset a template expands without an exception
    into the tasks of its steps, laid out one after the other from a
    calendar date, with ids numbered from [index]. *)
Lemma expandTemplate_fixed (offset baseId : Z) (prefix : string) (template : list Step) :
  forall (index : nat) (cur prevId : string) (c : Z),
  parse cur = Some c -> wholeDay c -> - maxTime <= c ->
  c + templateDays template * msPerDay <= maxTime ->
  Forall (fun step => 0 <= Step.duration step) template ->
  exists ts,
    expandTemplate (fixedZone offset) baseId prefix template index cur prevId = Returns ts /\
    laidOut c (dependenciesOn prevId) ts /\
    map id ts = map (moduleTaskId baseId) (seq index (length template)) /\
    Forall2 (fromStep prefix) template ts /\
    (forall t, head ts = Some t -> startDate t = cur).
Proof.
  assert (Hday : 0 < msPerDay) by reflexivity.
  induction template as [|step rest IH]; intros index cur prevId c Hp Hw Hlo Hhi Hdur;
    cbn [expandTemplate].
  - exists []. repeat split; [constructor | discriminate].
  - inversion Hdur as [|? ? Hd Hdrest]; subst.
    cbn [templateDays foldr] in Hhi. fold (templateDays rest) in Hhi.
    assert (Hrest : 0 <= templateDays rest).
    { clear -Hdrest. induction Hdrest as [|x l Hx _ IHl]; cbn; [lia|].
      fold (templateDays l). lia. }
    destruct (addDays_fixed_returns offset cur (Step.duration step) c Hp ltac:(nia))
      as [-> Hend]. specialize (Hend Hw).
    assert (Hwe : wholeDay (c + Step.duration step * msPerDay)).
    { apply wholeDay_add; [exact Hw|]. apply Z.mod_mul. discriminate. }
    exc_simpl.
    destruct (addDays_fixed_returns offset _ 1 _ Hend ltac:(nia)) as [-> Hnext].
    specialize (Hnext Hwe).
    exc_simpl.
    destruct (IH (S index) (isoDate (c + Step.duration step * msPerDay + 1 * msPerDay))
                (moduleTaskId baseId index)
                (c + Step.duration step * msPerDay + 1 * msPerDay) Hnext
                ltac:(apply wholeDay_add; [exact Hwe | reflexivity])
                ltac:(nia) ltac:(nia) Hdrest) as (ts & -> & Hlaid & Hids & Hsteps & _).
    exc_simpl. eexists. split; [reflexivity|]. split; [|split; [|split]].
    + cbn [laidOut]. unfold startMs, endMs. cbn [startDate endDate duration dependencies id].
      split; [exact Hp|]. split; [exact Hend|]. split; [reflexivity|].
      rewrite dependenciesOn_moduleTaskId, Z.mul_1_l in Hlaid. exact Hlaid.
    + cbn [map length seq id]. f_equal. exact Hids.
    + constructor; [|exact Hsteps]. unfold fromStep. cbn. tauto.
    + intros t [= <-]. reflexivity.
Qed.

(** Tasks laid out from a calendar date have calendar dates. *)
Lemma laidOut_calendar (ts : list Task) :
  forall c deps0, wholeDay c -> laidOut c deps0 ts -> Forall calendarDates ts.
Proof.
  induction ts as [|t ts IH]; intros c deps0 Hw; cbn [laidOut]; [constructor|].
  intros (Hs & He & _ & Hl).
  assert (Hwe : wholeDay (c + duration t * msPerDay)).
  { apply wholeDay_add; [exact Hw|]. apply Z.mod_mul. discriminate. }
  constructor.
  - split.
    + intros s Hs'. rewrite Hs in Hs'. injection Hs' as <-. exact Hw.
    + intros e He'. rewrite He in He'. injection He' as <-. exact Hwe.
  - apply (IH (c + duration t * msPerDay + msPerDay) [id t]); [|exact Hl].
    apply wholeDay_add; [exact Hwe | reflexivity].
Qed.

Lemma find_lookup_NoDup (ts : list Task) (i : nat) (t : Task) :
  NoDup (map id ts) -> ts !! i = Some t -> taskMapOf ts !! id t = Some t.
Proof.
  intros Hnd Hi. rewrite <- find_taskMapOf by exact Hnd.
  revert i Hi. induction ts as [|x ts IH]; intros i Hi; [discriminate|].
  cbn [map] in Hnd. apply NoDup_cons in Hnd as [Hnotin Hnd]. cbn [find].
  destruct i as [|i]; cbn in Hi.
  - injection Hi as ->. rewrite String.eqb_refl. reflexivity.
  - destruct (String.eqb_spec (id x) (id t)) as [Heq | Hne]; [|eapply IH; eassumption].
    destruct Hnotin. rewrite Heq. apply list_elem_of_fmap. exists t.
    split; [reflexivity|]. eapply list_elem_of_lookup_2, Hi.
Qed.

(** Tasks laid out one after the other satisfy the invariant. *)
Lemma laidOut_consistent (all : list Task) :
  NoDup (map id all) ->
  forall rest pre c deps0,
  all = pre ++ rest -> laidOut c deps0 rest ->
  (deps0 = [] \/
   exists p e, p ∈ pre /\ deps0 = [id p] /\ endMs p = Some e /\ e < c) ->
  forall t, t ∈ rest ->
    finishToStart all t \/ (forall d, d ∈ dependencies t -> taskMapOf all !! d = None).
Proof.
  assert (Hday : 0 < msPerDay) by reflexivity.
  intros Hnd. induction rest as [|x rest IH]; intros pre c deps0 Hall Hl Hdeps t Ht.
  - inversion Ht.
  - cbn [laidOut] in Hl. destruct Hl as (Hs & He & Hd & Hl).
    apply elem_of_cons in Ht as [-> | Ht].
    + destruct Hdeps as [-> | (p & e & Hp & -> & Hpe & Hlt)].
      * right. rewrite Hd. intros d H. inversion H.
      * left. exists c. split; [exact Hs|]. intros d D H HD.
        rewrite Hd in H. apply list_elem_of_In in H. destruct H as [<- | []].
        assert (Hpin : p ∈ all) by (rewrite Hall; apply elem_of_app; left; exact Hp).
        apply list_elem_of_lookup_1 in Hpin as [i Hi].
        rewrite (find_lookup_NoDup _ _ _ Hnd Hi) in HD. injection HD as <-.
        exists e. split; assumption.
    + apply (IH (pre ++ [x]) _ _ ltac:(rewrite <- app_assoc; exact Hall) Hl); [|exact Ht].
      right. exists x, (c + duration x * msPerDay).
      split; [apply elem_of_app; right; left|].
      split; [reflexivity|]. split; [exact He | lia].
Qed.

(** The module tasks in a zone with one offset. *)
Lemma moduleTasks_fixed (offset baseId now : Z) (type : ModuleType) :
  - maxTime <= now -> now + 100 * msPerDay <= maxTime ->
  exists ts,
    moduleTasks (fixedZone offset) baseId now type = Returns ts /\
    moduleOf baseId type ts /\
    (forall t, head ts = Some t -> startDate t = isoDate now) /\
    laidOut (JSDate.Day now * msPerDay) [] ts /\
    NoDup (map id ts).
Proof.
  intros Hlo Hhi.
  assert (Hday : 0 < msPerDay) by reflexivity.
  pose proof (parse_isoDate now ltac:(lia)) as Htoday.
  assert (Hw : wholeDay (JSDate.Day now * msPerDay)) by (apply Z.mod_mul; discriminate).
  assert (Hc : now - msPerDay < JSDate.Day now * msPerDay <= now).
  { unfold JSDate.Day. pose proof (Z.div_mod now msPerDay ltac:(discriminate)).
    pose proof (Z.mod_pos_bound now msPerDay Hday). lia. }
  assert (Hclo : - maxTime <= JSDate.Day now * msPerDay).
  { pose proof (parse_range _ _ Htoday). lia. }
  assert (Htemplate : forall prefix template,
            templateDays template <= 100 ->
            Forall (fun step => 0 <= Step.duration step) template ->
            exists ts,
              expandTemplate (fixedZone offset) baseId prefix template 0 (isoDate now)
                EmptyString = Returns ts /\
              templated baseId prefix template ts /\
              (forall t, head ts = Some t -> startDate t = isoDate now) /\
              laidOut (JSDate.Day now * msPerDay) [] ts /\
              NoDup (map id ts)).
  { intros prefix template Hdays Hdur.
    destruct (expandTemplate_fixed offset baseId prefix template 0 (isoDate now)
                EmptyString _ Htoday Hw Hclo ltac:(nia) Hdur)
      as (ts & Hex & Hlaid & Hids & Hsteps & Hhead).
    exists ts. split; [exact Hex|]. split; [split; assumption|].
    split; [exact Hhead|]. split; [exact Hlaid|].
    rewrite Hids.
    apply (@NoDup_fmap_2 _ _ _ (moduleTaskId_inj baseId)), NoDup_seq. }
  destruct type; cbn [moduleTasks moduleOf].
  - destruct (addDays_fixed_returns offset (isoDate now) 5 _ Htoday ltac:(nia))
      as [-> Hend]. specialize (Hend Hw).
    exc_simpl. eexists. split; [reflexivity|].
    split; [repeat split|]. split; [intros t [= <-]; reflexivity|]. split.
    { cbn [laidOut]. unfold startMs, endMs. cbn [startDate endDate duration dependencies].
      auto. }
    apply NoDup_singleton.
  - apply Htemplate; [vm_compute; discriminate | repeat constructor; discriminate].
  - apply Htemplate; [vm_compute; discriminate | repeat constructor; discriminate].
  - apply Htemplate; [vm_compute; discriminate | repeat constructor; discriminate].
Qed.

(** X12.  In a zone with one offset, and with the clock at least 100
    days before the end of the range of [Date], [handleAddModule] throws
    no exception and appends to the project's tasks the module of the
    given type: the general task, or one task for each step of the
    type's template, with the step's name, duration, GMP flag and
    category and the ids [task_<baseId>_<index>].  The module is
    consistent from the start: its first task starts today, its tasks
    are laid out one after the other, each ending [duration] days after
    it starts and, in a template, each next one starting the day after
    and depending on the one before; their ids are distinct; and
    [cascadeSchedule] returns the module unchanged.  The conflict dialog
    is left as it is. *)
Theorem handleAddModule_consistent (offset baseId now : Z) (type : ModuleType)
    (st : App.State) :
  - maxTime <= now -> now + 100 * msPerDay <= maxTime ->
  exists ts,
    App.handleAddModule (fixedZone offset) baseId now type st
    = Returns (App.mkState (App.tasks st ++ ts) (App.conflict st)
                 (App.pendingTaskUpdate st)) /\
    moduleOf baseId type ts /\
    (forall t, head ts = Some t -> startDate t = isoDate now) /\
    laidOut (JSDate.Day now * msPerDay) [] ts /\
    NoDup (map id ts) /\
    cascadeSchedule ts = Returns ts.
Proof.
  intros Hlo Hhi.
  destruct (moduleTasks_fixed offset baseId now type Hlo Hhi)
    as (ts & Hm & Hof & Hhead & Hlaid & Hnd).
  exists ts. split.
  { unfold App.handleAddModule. cbn [canEditTasks negb]. rewrite Hm. reflexivity. }
  split; [exact Hof|]. split; [exact Hhead|].
  split; [exact Hlaid|]. split; [exact Hnd|].
  apply settled_cascadeSchedule, consistent_settled.
  - apply (laidOut_calendar ts _ [] ltac:(apply Z.mod_mul; discriminate) Hlaid).
  - apply (laidOut_consistent ts Hnd ts [] _ [] eq_refl Hlaid). left. reflexivity.
Qed.

End Modules.

(* ===================================================================== *)
(** * The zoom buttons                                                    *)
(* ===================================================================== *)

Section Zooming.

(** X13.  The two zoom buttons undo each other except at the ends of the
    scale: zooming in and then out gives back the view mode, but from
    [Day], where zooming in does nothing, it gives [Week]; zooming out
    and then in gives back the view mode, but from [Quarter] it gives
    [Month].  Three presses of a button reach its end of the scale from
    every view mode. *)
Theorem handleZoom_round_trip (viewMode : Zoom.ViewMode) :
  Zoom.handleZoomOut (Zoom.handleZoomIn viewMode)
  = match viewMode with Zoom.Day => Zoom.Week | m => m end /\
  Zoom.handleZoomIn (Zoom.handleZoomOut viewMode)
  = match viewMode with Zoom.Quarter => Zoom.Month | m => m end /\
  Zoom.handleZoomIn (Zoom.handleZoomIn (Zoom.handleZoomIn viewMode)) = Zoom.Day /\
  Zoom.handleZoomOut (Zoom.handleZoomOut (Zoom.handleZoomOut viewMode)) = Zoom.Quarter.
Proof. destruct viewMode; repeat split. Qed.

End Zooming.

(* ===================================================================== *)
(** * Examples                                                            *)
(* ===================================================================== *)

(** The theorems above at concrete inputs, and the inputs on which a
    claim of the specification fails.  The examples run on
    [exampleHost]; their date strings are read alike on every host. *)

Section Examples.
Import JSDate JSDateFacts.
#[local] Existing Instance exampleHost.

(** The dates of the sample tasks are calendar dates. *)
Ltac calendar :=
  repeat constructor; intros ? Hp; vm_compute in Hp;
  first [discriminate Hp | injection Hp as <-; reflexivity].

(** The theorem of C5 at a concrete input. *)
Lemma cascadeSchedule_preserves_duration_witness :
  length [sample "A" "2023-10-11" "2023-10-15" ["B"]; chainB]
    = length [chainA; chainB] /\
  forall i t, [chainA; chainB] !! i = Some t ->
    exists t', [sample "A" "2023-10-11" "2023-10-15" ["B"]; chainB] !! i = Some t' /\
      id t' = id t /\ spanMs t' = spanMs t /\
      (t' = t \/
       exists shift, 0 < shift /\ wholeDay shift /\ shiftedBy shift t t').
Proof.
  apply (cascadeSchedule_preserves_duration [chainA; chainB]).
  - calendar.
  - vm_compute. reflexivity.
Defined.

(** C5 as stated fails on a date with a time of day: A, from 2023-10-01
    to 18:00 on 2023-10-05, is moved behind B to 2023-10-11 and
    2023-10-15; [toISOString().split('T')[0]] drops the 18 hours, and
    [endDate - startDate] goes from 4 days and 18 hours to 4 days. *)
Lemma cascadeSchedule_drops_time_of_day :
  let A := sample "A" "2023-10-01" "2023-10-05T18:00:00Z" ["B"] in
  let A' := sample "A" "2023-10-11" "2023-10-15" ["B"] in
  cascadeSchedule [A; chainB] = Returns [A'; chainB] /\
  spanMs A = Some (4 * msPerDay + 18 * msPerHour) /\
  spanMs A' = Some (4 * msPerDay).
Proof. repeat split; vm_compute; reflexivity. Qed.

(** The theorem of C6 at a concrete input. *)
Lemma cascadeSchedule_keeps_date_order_witness :
  length [sample "A" "2023-10-11" "2023-10-15" ["B"]; chainB]
    = length [chainA; chainB] /\
  forall i t t', [chainA; chainB] !! i = Some t ->
    [sample "A" "2023-10-11" "2023-10-15" ["B"]; chainB] !! i = Some t' ->
    (datesOrdered t <-> datesOrdered t').
Proof.
  apply (cascadeSchedule_keeps_date_order [chainA; chainB]).
  - calendar.
  - vm_compute. reflexivity.
Defined.

(** C6 as stated fails: a task that ends before it starts and has no
    dependencies is returned as it is. *)
Lemma cascadeSchedule_leaves_inverted_dates :
  cascadeSchedule [inverted] = Returns [inverted] /\ ~ datesOrdered inverted.
Proof.
  split; [vm_compute; reflexivity|].
  intros (s & e & Hs & He & Hle).
  vm_compute in Hs, He. injection Hs as <-. injection He as <-. lia.
Qed.

(** Why C6 as amended asks for calendar dates: A, which ends at 06:00
    and starts at 12:00 on 2023-10-01, is moved behind B, which ends at
    20:00 on 2023-10-10, and comes back with both dates 2023-10-11.  No
    pass leaves A alone: each one replaces it by a task with the same
    two dates, and the loop ends at the cap of 50 passes. *)
Lemma cascadeSchedule_time_of_day_reorders :
  let A := sample "A" "2023-10-01T12:00:00Z" "2023-10-01T06:00:00Z" ["B"] in
  let B := sample "B" "2023-10-01" "2023-10-10T20:00:00Z" [] in
  let A' := sample "A" "2023-10-11" "2023-10-11" ["B"] in
  cascadeRun [A; B] = Returns (mkLoop [A'; B] true 50) /\
  ~ datesOrdered A /\ datesOrdered A'.
Proof.
  intros A B A'. split; [vm_compute; reflexivity|]. split.
  - intros (s & e & Hs & He & Hle).
    vm_compute in Hs, He. injection Hs as <-. injection He as <-. lia.
  - eexists _, _. split; [vm_compute; reflexivity|].
    split; [vm_compute; reflexivity | lia].
Qed.

(** The theorem of C1 at a concrete input. *)
Lemma cascadeSchedule_converged_invariant_witness :
  cascadeSchedule [chainA; chainB]
    = Returns [sample "A" "2023-10-11" "2023-10-15" ["B"]; chainB] /\
  forall t s, t ∈ [sample "A" "2023-10-11" "2023-10-15" ["B"]; chainB] ->
    startMs t = Some s ->
    constrained [sample "A" "2023-10-11" "2023-10-15" ["B"]; chainB] t ->
    forall d D e, d ∈ dependencies t ->
      taskMapOf [sample "A" "2023-10-11" "2023-10-15" ["B"]; chainB] !! d = Some D ->
      endMs D = Some e -> e < s.
Proof.
  apply (cascadeSchedule_converged_invariant [chainA; chainB]
           (mkLoop [sample "A" "2023-10-11" "2023-10-15" ["B"]; chainB] false 2)).
  - vm_compute. reflexivity.
  - reflexivity.
Defined.

(** C1 as stated fails on a cycle: after the 50 passes, A still starts
    on 2024-10-10, before its dependency B ends on 2024-10-19. *)
Lemma cascadeSchedule_cycle_violates_invariant :
  let A' := sample "A" "2024-10-10" "2024-10-14" ["B"] in
  let B' := sample "B" "2024-10-10" "2024-10-19" ["A"] in
  cascadeSchedule [cycleA; cycleB] = Returns [A'; B'] /\
  "B" ∈ dependencies A' /\ taskMapOf [A'; B'] !! "B" = Some B' /\
  (exists s e, startMs A' = Some s /\ endMs B' = Some e /\ s <= e) /\
  ~ finishToStart [A'; B'] A'.
Proof.
  intros A' B'. split; [vm_compute; reflexivity|].
  split; [left|]. split; [vm_compute; reflexivity|].
  split.
  { eexists _, _. split; [vm_compute; reflexivity|].
    split; [vm_compute; reflexivity | vm_compute; discriminate]. }
  intros (s & Hs & Hdeps).
  destruct (Hdeps "B" B') as (e & He & Hlt); [left | vm_compute; reflexivity |].
  vm_compute in Hs, He. injection Hs as <-. injection He as <-. lia.
Qed.

(** The theorem of C2 at a concrete input. *)
Lemma cascadeSchedule_idempotent_when_converged_witness :
  cascadeSchedule [chainA; chainB]
    = Returns [sample "A" "2023-10-11" "2023-10-15" ["B"]; chainB] /\
  cascadeSchedule [sample "A" "2023-10-11" "2023-10-15" ["B"]; chainB]
    = Returns [sample "A" "2023-10-11" "2023-10-15" ["B"]; chainB].
Proof.
  apply (cascadeSchedule_idempotent_when_converged [chainA; chainB]
           (mkLoop [sample "A" "2023-10-11" "2023-10-15" ["B"]; chainB] false 2)).
  - vm_compute. reflexivity.
  - reflexivity.
Defined.

(** C2 as stated fails on a cycle: a second cascade moves the tasks
    again. *)
Lemma cascadeSchedule_cycle_not_idempotent :
  let once := [sample "A" "2024-10-10" "2024-10-14" ["B"];
               sample "B" "2024-10-10" "2024-10-19" ["A"]] in
  let twice := [sample "A" "2025-10-20" "2025-10-24" ["B"];
                sample "B" "2025-10-20" "2025-10-29" ["A"]] in
  cascadeSchedule [cycleA; cycleB] = Returns once /\
  cascadeSchedule once = Returns twice /\
  twice <> once.
Proof.
  intros once twice. split; [vm_compute; reflexivity|].
  split; [vm_compute; reflexivity | discriminate].
Qed.

(** The theorem of C10 at a concrete input. *)
Lemma cascadeSchedule_epoch_sentinel_witness :
  scheduleTask (taskMapOf [ancientA; ancientB]) ancientA
  = scheduleTask (delete "B" (taskMapOf [ancientA; ancientB])) ancientA.
Proof.
  apply (proj1 cascadeSchedule_epoch_sentinel
           (taskMapOf [ancientA; ancientB]) "B" ancientB 0 ancientA).
  - vm_compute. reflexivity.
  - vm_compute. reflexivity.
  - lia.
Defined.

(** The theorem of C7 at a concrete input. *)
Lemma cascadeSchedule_unknown_dependencies_and_throws_witness :
  (exists out, cascadeSchedule [chainA; chainB] = Returns out) /\
  [haunted; chainB] !! 0%nat = Some haunted.
Proof.
  split.
  - apply (proj1 cascadeSchedule_unknown_dependencies_and_throws
             [chainA; chainB] (9 * msPerDay) 1696896000000).
    + vm_compute. discriminate.
    + vm_compute. discriminate.
    + intros t Ht. apply list_elem_of_In in Ht.
      destruct Ht as [<- | [<- | []]]; (split; [|calendar]); eexists _, _;
        (split; [vm_compute; reflexivity|]);
        (split; [vm_compute; reflexivity|]);
        split; vm_compute; discriminate.
  - apply (proj1 (proj2 cascadeSchedule_unknown_dependencies_and_throws)
             [haunted; chainB] [haunted; chainB] 0%nat haunted).
    + vm_compute. reflexivity.
    + reflexivity.
    + intros d Hd. apply list_elem_of_In in Hd. destruct Hd as [<- | []].
      vm_compute. reflexivity.
Defined.

(** C7 as stated fails: a task that has to be shifted and whose end date
    is no date makes [toISOString] throw, and so does a shift past the
    last day of the range of [Date]. *)
Lemma cascadeSchedule_throws_on_invalid_date :
  cascadeSchedule [openEnded; chainB] = Throws RangeError /\
  cascadeSchedule [sample "A" "0000-01-01" "9999-12-31" ["B"];
                   sample "B" "0000-01-01" "9999-12-31" ["A"]] = Throws RangeError.
Proof. split; vm_compute; reflexivity. Qed.

(** The theorem of C9 at a concrete input. *)
Lemma cascadeSchedule_frame_witness :
  let store := [chainA; chainB] in
  let store' := [chainA; chainB; chainA; chainB;
                 sample "A" "2023-10-11" "2023-10-15" ["B"]] in
  let tasks := [0; 1]%nat in
  let out := [4; 3]%nat in
  store `prefix_of` store' /\
  (forall r obj, store !! r = Some obj -> store' !! r = Some obj) /\
  Forall (fun r' => (length store <= r' < length store')%nat) out /\
  length out = length tasks /\
  (forall i r r', tasks !! i = Some r -> out !! i = Some r' ->
     sameOtherFields (store !!! r) (store' !!! r')) /\
  cascadeSchedule (Objects.contents store tasks) = Returns (Objects.contents store' out).
Proof.
  apply (cascadeSchedule_frame [chainA; chainB] [0; 1]%nat).
  - repeat constructor.
  - vm_compute. reflexivity.
Defined.

(** The theorem of X1 at a concrete input. *)
Lemma addDays_fixed_zone_witness :
  addDays (fixedZone (8 * msPerHour)) "2024-02-28" 2
    = Returns (isoDate (1709078400000 + 2 * msPerDay)) /\
  (wholeDay 1709078400000 ->
   parse (isoDate (1709078400000 + 2 * msPerDay)) = Some (1709078400000 + 2 * msPerDay)).
Proof.
  apply (addDays_fixed_zone (8 * msPerHour) "2024-02-28" 2 1709078400000).
  - vm_compute. reflexivity.
  - vm_compute. split; discriminate.
Defined.

(** The theorem of X2 at a concrete input. *)
Lemma addDays_throws_witness : addDays zoneNewYork2023 "TBD" 1 = Throws RangeError.
Proof. apply (proj1 addDays_throws zoneNewYork2023 "TBD" 1). vm_compute. reflexivity. Defined.

(** The theorem of X3 at a concrete input. *)
Lemma addDays_compose_witness :
  addDays (fixedZone 0) "2023-10-06" 1 = addDays (fixedZone 0) "2023-10-01" (5 + 1).
Proof.
  apply (addDays_compose 0 "2023-10-01" "2023-10-06" 5 1).
  - intros t Hp. vm_compute in Hp. injection Hp as <-. reflexivity.
  - vm_compute. reflexivity.
Defined.

(** The theorem of X4 at a concrete input. *)
Lemma addDays_forward_clock_change_witness :
  addDays zoneNewYork2023 "2023-03-12" 1 = Returns (isoDate 1678579200000).
Proof.
  apply (addDays_forward_clock_change zoneNewYork2023 "2023-03-12" 1678579200000).
  - vm_compute. reflexivity.
  - reflexivity.
  - vm_compute. reflexivity.
  - vm_compute. split; [reflexivity | discriminate].
Defined.

(** The theorem of X5 at a concrete input. *)
Lemma cascadeSchedule_consistent_noop_witness :
  cascadeSchedule [sample "A" "2023-10-11" "2023-10-15" ["B"]; chainB]
  = Returns [sample "A" "2023-10-11" "2023-10-15" ["B"]; chainB].
Proof.
  apply (cascadeSchedule_consistent_noop
           [sample "A" "2023-10-11" "2023-10-15" ["B"]; chainB]); [calendar|].
  intros t Ht. apply list_elem_of_In in Ht. destruct Ht as [<- | [<- | []]].
  - left. exists 1696982400000. split; [vm_compute; reflexivity|].
    intros d D Hd. apply list_elem_of_In in Hd. destruct Hd as [<- | []].
    intros HD. vm_compute in HD. injection HD as <-.
    exists 1696896000000. split; [vm_compute; reflexivity | lia].
  - right. intros d Hd. inversion Hd.
Defined.

(** The theorem of X6 at a concrete input. *)
Lemma checkDependencies_null_iff_witness :
  checkDependencies zoneNewYork2023 chainA [chainA; chainB] = Returns None <->
  forall d D s e, d ∈ dependencies chainA -> taskMapOf [chainA; chainB] !! d = Some D ->
    startMs chainA = Some s -> endMs D = Some e -> e < s.
Proof.
  apply (checkDependencies_null_iff zoneNewYork2023 chainA [chainA; chainB]).
  apply (bool_decide_unpack _). vm_compute. exact I.
Defined.

(** The theorem of X7 at a concrete input. *)
Lemma handleTaskUpdate_slots_witness :
  let st := App.mkState [chainA; chainB] None None in
  let st' := App.mkState [chainA; chainB]
               (Some (App.mkConflictState chainA chainB "2023-10-11")) (Some chainA) in
  map id (App.tasks st') = map id (App.tasks st) /\
  ((exists D suggested,
      checkDependencies zoneUTC chainA (App.tasks st)
        = Returns (Some (mkConflict D suggested)) /\
      App.tasks st' = App.tasks st /\
      App.pendingTaskUpdate st' = Some chainA /\
      App.conflict st' = Some (App.mkConflictState chainA D suggested)) \/
   (checkDependencies zoneUTC chainA (App.tasks st) = Returns None /\
    App.conflict st' = App.conflict st /\
    App.pendingTaskUpdate st' = App.pendingTaskUpdate st /\
    forall i t, App.tasks st !! i = Some t ->
      exists t', App.tasks st' !! i = Some t' /\
        sameOtherFields (if String.eqb (id t) (id chainA) then chainA else t) t' /\
        (calendarDates chainA -> Forall calendarDates (App.tasks st) ->
         movedLater (if String.eqb (id t) (id chainA) then chainA else t) t'))).
Proof.
  apply (handleTaskUpdate_slots zoneUTC chainA (App.mkState [chainA; chainB] None None)).
  vm_compute. reflexivity.
Defined.

(** The theorem of X8 at a concrete input. *)
Lemma resolveConflict_moves_past_dependency_witness :
  let held := App.mkState [chainA; chainB]
                (Some (App.mkConflictState chainA chainB "2023-10-11")) (Some chainA) in
  App.handleTaskUpdate (fixedZone 0) chainA (App.mkState [chainA; chainB] None None)
    = Returns held /\
  exists fixed s eD,
    startMs chainA = Some s /\ endMs chainB = Some eD /\ s <= eD /\
    startDate fixed = "2023-10-11" /\
    startMs fixed = Some (eD + msPerDay) /\
    endMs fixed = Some (eD + msPerDay + (1696464000000 - s)) /\
    spanMs fixed = spanMs chainA /\ sameOtherFields chainA fixed /\
    App.resolveConflict held =
      (newTasks ← cascadeSchedule (replaceTask fixed [chainA; chainB]);
       Returns (App.mkState newTasks None None)).
Proof.
  apply (resolveConflict_moves_past_dependency 0 chainA chainB "2023-10-11"
           [chainA; chainB] None None 1696464000000).
  - vm_compute. reflexivity.
  - calendar.
  - calendar.
  - vm_compute. reflexivity.
  - intros s eD Hs HD. vm_compute in Hs, HD. injection Hs as <-. injection HD as <-.
    vm_compute. discriminate.
Defined.

(** The theorem of X9 at a concrete input. *)
Lemma resolveConflict_throws_on_invalid_end_witness :
  exists held,
    App.handleTaskUpdate zoneUTC openEnded (App.mkState [openEnded; chainB] None None)
      = Returns held /\
    App.resolveConflict held = Throws RangeError /\
    App.cancelConflict held = App.mkState [openEnded; chainB] None None.
Proof.
  apply (resolveConflict_throws_on_invalid_end zoneUTC openEnded chainB "2023-10-11").
  - vm_compute. reflexivity.
  - vm_compute. reflexivity.
Defined.

(** The theorem of X11 at a concrete input. *)
Lemma handleInsertTask_spec_witness :
  App.handleInsertTask 1696118400123 "ghost" after (App.mkState [chainA; chainB] None None)
  = App.mkState [chainA; chainB] None None.
Proof.
  apply (proj1 (handleInsertTask_spec 1696118400123 "ghost" after
                  (App.mkState [chainA; chainB] None None))).
  intros t Ht. apply list_elem_of_In in Ht. destruct Ht as [<- | [<- | []]]; discriminate.
Defined.

(** The theorem of X12 at a concrete input. *)
Lemma handleAddModule_consistent_witness :
  exists ts,
    App.handleAddModule zonePlus8 1678000000000 1678000000000 equipment
      (App.mkState [chainA; chainB] None None)
    = Returns (App.mkState ([chainA; chainB] ++ ts) None None) /\
    moduleOf 1678000000000 equipment ts /\
    (forall t, head ts = Some t -> startDate t = isoDate 1678000000000) /\
    laidOut (JSDate.Day 1678000000000 * msPerDay) [] ts /\
    NoDup (map id ts) /\
    cascadeSchedule ts = Returns ts.
Proof.
  apply (handleAddModule_consistent _ 1678000000000 1678000000000 equipment
           (App.mkState [chainA; chainB] None None)).
  - vm_compute. discriminate.
  - vm_compute. discriminate.
Defined.

End Examples.
